(** * oremax: the bet tracker, the bid estimator and the round loop

    A shallow embedding of [src/betTracker.ts], the bot's entry file
    ([calculateTopBet], [calculateMedianBet], [calculateOurBet], [deploy],
    [claimRewards], [main]), the transfer helpers of [src/wallet.ts], the
    account readers of [accounts.ts], the instruction builders of
    [instructions.ts], the swap of [src/dflow.ts] and the settings of
    [config.ts].

    JavaScript numbers are IEEE 754 binary64 values: they are modelled by
    Rocq's primitive floats, whose operations are the same correctly rounded
    ones.  A [bigint] read from an account ([u64]) is a [Z].  A text (a log
    line, the value of an environment variable) is the bytes of its UTF-8
    encoding.  Console output is left out, except [console.error] in the
    wallet helpers. *)

From Stdlib Require Import ZArith List Bool Lia Floats String Ascii.
From Stdlib Require Import Permutation Sorted.
From stdpp Require Import base list.
Import ListNotations.

Set Warnings "-inexact-float".

(* ------------------------------------------------------------------ *)
(** ** JavaScript numbers *)
(* ------------------------------------------------------------------ *)

Module JS.
Local Open Scope float_scope.

(** [isNaN(x)] *)
Definition isNaN (x : float) : bool := PrimFloat.is_nan x.

(** [a > b] on numbers *)
Definition gtb (a b : float) : bool := b <? a.

(** [Number(z)] for a bigint [z]: the nearest binary64 value, ties to even. *)
Definition Number_of_bigint (z : Z) : float :=
  SF2Prim (binary_normalize prec emax z 0 false).

(** [Math.max(a, b)]: NaN if either is NaN, and [+0] is larger than [-0]. *)
Definition Math_max (a b : float) : float :=
  if isNaN a || isNaN b then nan
  else if a <? b then b
  else if b <? a then a
  else if get_sign a then b else a.

(** [Math.min(a, b)]: NaN if either is NaN, and [-0] is smaller than [+0]. *)
Definition Math_min (a b : float) : float :=
  if isNaN a || isNaN b then nan
  else if a <? b then a
  else if b <? a then b
  else if get_sign a then a else b.

(** [Math.max(...l)]: the fold starts from [-Infinity]. *)
Definition Math_max_spread (l : list float) : float :=
  fold_left Math_max l neg_infinity.

(** [Math.floor(x)] as an integer; [None] for NaN and the infinities. *)
Definition Math_floor (x : float) : option Z :=
  match Prim2SF x with
  | S754_zero _ => Some 0%Z
  | S754_finite s m e => Some (Z.shiftl (if s then Zneg m else Zpos m) e)
  | _ => None
  end.

(** [x < z] for a number [x] and a bigint [z]: the comparison of the two
    mathematical values, false for NaN. *)
Definition lt_bigint (x : float) (z : Z) : bool :=
  match Math_floor x with
  | Some n => (n <? z)%Z
  | None => x <? 0
  end.

(** [10 ** d] for a count of decimals [d] (a [u8]): the power itself up to
    [d = 22], the nearest number beyond. *)
Definition pow10 (d : Z) : float := Number_of_bigint (10 ^ d).

(** The number denoted by the decimal literal [n / 10^k] ([0 <= n], [0 <= k]),
    correctly rounded. *)
Definition decimal (n : Z) (k : Z) : float :=
  match n with
  | Z0 => 0
  | _ =>
    let '(q, e, l) := SFdiv_core_binary prec emax n 0 (10 ^ k) 0 in
    SF2Prim (binary_round_aux prec emax false q e l)
  end.

(** How a block of statements ends. *)
Inductive Completion := Normal | Throw (msg : string).

(** *** Texts: what [String.prototype.match] and [parseFloat] need

    A text is kept as the bytes of its UTF-8 encoding, the form in which a
    log line and an environment variable reach the program: a [string] is
    that sequence of bytes.  An ASCII character is one byte, below 128; a
    character from U+0080 to U+07FF is two bytes and one from U+0800 to
    U+FFFF three, all of them 128 or more (U+00A0 is the bytes 194 and
    160, not the byte 160 alone).  A string literal of this file that
    holds such a character holds these bytes.  The patterns and the syntax
    of numbers are made of ASCII characters and of white space, so both
    are read off the bytes. *)

Definition isDigit (c : ascii) : bool :=
  let n := nat_of_ascii c in (48 <=? n)%nat && (n <=? 57)%nat.

(** The white space of JavaScript, by code point: what [\s] matches and
    what [parseFloat] skips.  U+0009 to U+000D (tab, line feed, vertical
    tab, form feed, carriage return), the space, U+00A0, U+1680, U+2000 to
    U+200A, U+2028, U+2029, U+202F, U+205F, U+3000 and U+FEFF. *)
Definition isWhiteSpace (c : N) : bool :=
  ((9 <=? c) && (c <=? 13) || (c =? 0x20) || (c =? 0xA0) || (c =? 0x1680)
   || (0x2000 <=? c) && (c <=? 0x200A) || (c =? 0x2028) || (c =? 0x2029)
   || (c =? 0x202F) || (c =? 0x205F) || (c =? 0x3000) || (c =? 0xFEFF))%N.

(** The code point of the character of one byte [a], of two bytes [a b]
    and of three bytes [a b c]; [None] when the bytes are no such
    character. *)
Definition codePoint1 (a : ascii) : option N :=
  let a := N_of_ascii a in
  if (a <? 0x80)%N then Some a else None.

Definition codePoint2 (a b : ascii) : option N :=
  let a := N_of_ascii a in
  let b := N_of_ascii b in
  if ((0xC2 <=? a) && (a <=? 0xDF) && (0x80 <=? b) && (b <=? 0xBF))%N
  then Some ((a - 0xC0) * 64 + (b - 0x80))%N
  else None.

Definition codePoint3 (a b c : ascii) : option N :=
  let a := N_of_ascii a in
  let b := N_of_ascii b in
  let c := N_of_ascii c in
  if ((0xE0 <=? a) && (a <=? 0xEF) && (0x80 <=? b) && (b <=? 0xBF)
      && (0x80 <=? c) && (c <=? 0xBF))%N
  then
    let point := ((a - 0xE0) * 4096 + (b - 0x80) * 64 + (c - 0x80))%N in
    if (0x800 <=? point)%N then Some point else None
  else None.

(** The bytes of the character [U+c], for [c] up to [0xFFFF]. *)
Definition utf8 (c : N) : string :=
  if (c <? 0x80)%N then String (ascii_of_N c) EmptyString
  else if (c <? 0x800)%N then
    String (ascii_of_N (0xC0 + c / 64))
      (String (ascii_of_N (0x80 + c mod 64)) EmptyString)
  else
    String (ascii_of_N (0xE0 + c / 4096))
      (String (ascii_of_N (0x80 + (c / 64) mod 64))
         (String (ascii_of_N (0x80 + c mod 64)) EmptyString)).

(** Whether a code point, if there is one, is in the class [\s]. *)
Definition inWhiteSpace (c : option N) : bool :=
  match c with
  | Some c => isWhiteSpace c
  | None => false
  end.

(** The longest prefix of [s] made of characters of the class [\s], or of
    the class [[:\s]] when [colon] is set, and the rest. *)
Fixpoint spanSeparators (colon : bool) (s : string) : string * string :=
  match s with
  | EmptyString => (EmptyString, EmptyString)
  | String a r =>
    if inWhiteSpace (codePoint1 a) || (colon && Ascii.eqb a ":"%char) then
      let '(x, y) := spanSeparators colon r in (String a x, y)
    else
      match r with
      | EmptyString => (EmptyString, s)
      | String b r1 =>
        if inWhiteSpace (codePoint2 a b) then
          let '(x, y) := spanSeparators colon r1 in (String a (String b x), y)
        else
          match r1 with
          | EmptyString => (EmptyString, s)
          | String c r2 =>
            if inWhiteSpace (codePoint3 a b c) then
              let '(x, y) := spanSeparators colon r2 in
              (String a (String b (String c x)), y)
            else (EmptyString, s)
          end
      end
  end.

(** The letter [c] as the [i] flag compares it: an ASCII capital is its
    small letter; no other character is taken for an ASCII letter. *)
Definition toLower (c : ascii) : ascii :=
  let n := nat_of_ascii c in
  if (65 <=? n)%nat && (n <=? 90)%nat then ascii_of_nat (n + 32) else c.

(** The longest prefix of [s] whose characters satisfy [p], and the rest. *)
Fixpoint span (p : ascii -> bool) (s : string) : string * string :=
  match s with
  | EmptyString => (EmptyString, EmptyString)
  | String c r =>
    if p c then let '(a, b) := span p r in (String c a, b)
    else (EmptyString, s)
  end.

(** A literal under the [i] flag: [Some rest] when [s] starts with [lit]. *)
Fixpoint literal (lit s : string) : option string :=
  match lit, s with
  | EmptyString, _ => Some s
  | String a lit', String c r =>
    if Ascii.eqb (toLower a) (toLower c) then literal lit' r else None
  | String _ _, EmptyString => None
  end.

Fixpoint digitsValue (acc : Z) (s : string) : Z :=
  match s with
  | EmptyString => acc
  | String c r => digitsValue (10 * acc + Z.of_nat (nat_of_ascii c - 48)) r
  end.

(** [parseFloat(s)] on the texts the patterns capture: decimal digits, an
    optional point, decimal digits; the longest such prefix is read, and a
    text that does not start with a digit gives NaN. *)
Definition parseFloat (s : string) : float :=
  let '(int, r) := span isDigit s in
  match int with
  | EmptyString => nan
  | _ =>
    let frac := match r with
                | String "."%char r' => fst (span isDigit r')
                | _ => EmptyString
                end in
    decimal (digitsValue 0 (int ++ frac)) (Z.of_nat (String.length frac))
  end.

End JS.

(* ------------------------------------------------------------------ *)
(** ** Notions on binary64 values *)
(* ------------------------------------------------------------------ *)

Module Binary64.

(** The lowest exponent of a binary64 mantissa. *)
Definition emin64 : Z := SpecFloat.emin prec emax.

(** A value with sign [s] that is neither zero nor NaN. *)
Definition signed (s : bool) (x : spec_float) : Prop :=
  match x with
  | S754_finite s' _ _ | S754_infinity s' => s' = s
  | _ => False
  end.

(** A positive value with a full mantissa: an infinity, or a mantissa of 53
    digits with an exponent of at least -52. *)
Definition fullPositive (x : spec_float) : Prop :=
  match x with
  | S754_infinity false => True
  | S754_finite false m e => Zpos (digits2_pos m) = 53%Z /\ (-52 <= e)%Z /\ (e <= 971)%Z
  | _ => False
  end.

(** The second shift of [binary_round_aux], after rounding. *)
Definition finish (s : bool) (m1 e1 : Z) : spec_float :=
  let '(mrs, e2) := shr_fexp prec emax m1 e1 loc_Exact in
  match shr_m mrs with
  | Z0 => S754_zero s
  | Zpos m => if (e2 <=? emax - prec)%Z then S754_finite s m e2 else S754_infinity s
  | Zneg _ => S754_nan
  end.

End Binary64.

(* ------------------------------------------------------------------ *)
(** ** Accounts read from the chain ([accounts.ts]) *)
(* ------------------------------------------------------------------ *)

Module Accounts.

(** The [Round] account: [fetchRound] always fills 25 entries of [deployed]
    and of [count], each a [u64]. *)
Record Round := {
  id : Z;
  deployed : list Z;
  count : list Z;
  totalDeployed : Z;
  totalWinnings : Z
}.

Record Board := {
  roundId : Z;
  startSlot : Z;
  endSlot : Z
}.

End Accounts.

(* ------------------------------------------------------------------ *)
(** ** The bet tracker ([betTracker.ts]) *)
(* ------------------------------------------------------------------ *)

Module BetTracker.
Import Accounts.
Local Open Scope float_scope.

Record BetData := {
  maxBetPerSquare : list float;   (* max bet seen for each of 25 squares *)
  totalBets : Z;                  (* total number of bets tracked this round *)
  allBets : list float            (* all individual bets tracked this round *)
}.

(** [{ maxBetPerSquare: new Array(25).fill(0), totalBets: 0, allBets: [] }] *)
Definition freshBetData : BetData :=
  {| maxBetPerSquare := replicate 25 0; totalBets := 0; allBets := [] |}.

(** The module's variables. *)
Record State := {
  currentRoundId : Z;
  betData : BetData;
  subscriptionId : option Z;
  pollingInterval : bool;
  lastSeenDeployed : list Z
}.

Definition initialState : State :=
  {| currentRoundId := 0;
     betData := freshBetData;
     subscriptionId := None;
     pollingInterval := false;
     lastSeenDeployed := replicate 25 0%Z |}.

(** *** The poll path *)

(** Lines 88-92 of [pollRoundAccount]: the sample [increaseSol] of square [i].
    A read past the end of the array gives [undefined], and a comparison
    with it is false. *)
Definition recordSquare (i : nat) (increaseSol : float) (bd : BetData) : BetData :=
  let maxes :=
    match maxBetPerSquare bd !! i with
    | Some m => if JS.gtb increaseSol m then <[i := increaseSol]> (maxBetPerSquare bd)
                else maxBetPerSquare bd
    | None => maxBetPerSquare bd
    end in
  {| maxBetPerSquare := maxes;
     totalBets := totalBets bd;
     allBets := allBets bd ++ [increaseSol] |}.

(** [Number(increaseLamports) / 1e11] *)
Definition increaseSol_of (increaseLamports : Z) : float :=
  JS.Number_of_bigint increaseLamports / 1e11.

(** One turn of the loop of [pollRoundAccount], for square [i]. *)
Definition pollSquare (roundDeployed : list Z) (st : State) (i : nat) : State :=
  match roundDeployed !! i, lastSeenDeployed st !! i with
  | Some currentDeployed, Some lastSeen =>
    if (currentDeployed >? lastSeen)%Z then
      let increaseLamports := (currentDeployed - lastSeen)%Z in
      let increaseSol := increaseSol_of increaseLamports in
      {| currentRoundId := currentRoundId st;
         betData := recordSquare i increaseSol (betData st);
         subscriptionId := subscriptionId st;
         pollingInterval := pollingInterval st;
         lastSeenDeployed := <[i := currentDeployed]> (lastSeenDeployed st) |}
    else st
  | _, _ => st
  end.

(** [pollRoundAccount]: [fetched] is what [fetchRound(currentRoundId)] gave,
    [None] when it threw (the error is caught and the tick does nothing). *)
Definition pollRoundAccount (fetched : option Round) (st : State) : State :=
  match fetched with
  | None => st
  | Some round => fold_left (pollSquare (deployed round)) (seq 0 25) st
  end.

(** *** The event path *)

(** Lines 159-167 of the log handler: a sample taken to apply to all 25
    squares. *)
Definition raiseMax (amountSol : float) (maxes : list float) (i : nat) : list float :=
  match maxes !! i with
  | Some m => if JS.gtb amountSol m then <[i := amountSol]> maxes else maxes
  | None => maxes
  end.

Definition recordAllSquares (amountSol : float) (bd : BetData) : BetData :=
  {| maxBetPerSquare := fold_left (raiseMax amountSol) (seq 0 25) (maxBetPerSquare bd);
     totalBets := totalBets bd + 1;
     allBets := allBets bd ++ [amountSol] |}.

(** The four patterns, tried in this order; [source] is the pattern as the
    code writes it.  Each has the shape KEY SEP NUMBER SPACES SOL under the
    [i] flag: [key] is the literal it starts with, [optional] the character
    that may follow the key (the [d?] of the second), and [colon] tells
    whether the separator class also has the colon. *)
Record Pattern := {
  source : string;
  key : string;
  optional : option ascii;
  colon : bool
}.

Definition patterns : list Pattern :=
  [ {| source := "/deploying\s+(\d+\.?\d*)\s*SOL/i";
       key := "deploying"; optional := None; colon := false |};
    {| source := "/deployed?\s+(\d+\.?\d*)\s*SOL/i";
       key := "deploye"; optional := Some "d"%char; colon := false |};
    {| source := "/amount[:\s]+(\d+\.?\d*)\s*SOL/i";
       key := "amount"; optional := None; colon := true |};
    {| source := "/bet[:\s]+(\d+\.?\d*)\s*SOL/i";
       key := "bet"; optional := None; colon := true |} ].

(** A match of [p] that starts at the first character of [s]; the result is
    the text of group 1.  Every quantifier is greedy, and for these patterns
    giving a character back never helps: the character after each
    quantified class is outside the class. *)
Definition matchHere (p : Pattern) (s : string) : option string :=
  match JS.literal (key p) s with
  | None => None
  | Some r0 =>
    let r1 :=
      match optional p, r0 with
      | Some o, String c r => if Ascii.eqb (JS.toLower c) o then r else r0
      | _, _ => r0
      end in
    let '(sep, r2) := JS.spanSeparators (colon p) r1 in
    let '(int, r3) := JS.span JS.isDigit r2 in
    let '(dot, r4) :=
      match r3 with
      | String "."%char r => ("."%string, r)
      | _ => (EmptyString, r3)
      end in
    let '(frac, r5) := JS.span JS.isDigit r4 in
    let '(_, r6) := JS.spanSeparators false r5 in
    match sep, int, JS.literal "SOL" r6 with
    | String _ _, String _ _, Some _ => Some (int ++ dot ++ frac)%string
    | _, _, _ => None
    end
  end.

(** [log.match(pattern)]: the leftmost match; [Some] of group 1. *)
Fixpoint logMatch (p : Pattern) (log : string) : option string :=
  match matchHere p log with
  | Some g => Some g
  | None =>
    match log with
    | EmptyString => None
    | String _ r => logMatch p r
    end
  end.

(** The loop over the patterns for one log line: an invalid amount
    [continue]s with the next pattern, a recorded one [break]s. *)
Fixpoint scanPatterns (ps : list Pattern) (log : string) (bd : BetData) : BetData :=
  match ps with
  | [] => bd
  | p :: ps' =>
    match logMatch p log with
    | Some g =>
      let amountSol := JS.parseFloat g in
      if JS.isNaN amountSol || (amountSol <=? 0) then scanPatterns ps' log bd
      else recordAllSquares amountSol bd
    | None => scanPatterns ps' log bd
    end
  end.

(** A notification of [connection.onLogs]: [err] tells whether [logs.err] is
    set; [logs] is [None] when the payload has no iterable [logs] field, in
    which case the loop over it throws. *)
Record Logs := {
  err : bool;
  logs : option (list string);
  signature : string
}.

(** The body of the [try] of the handler: the state it leaves, and how it
    ends. *)
Definition handlerBody (n : Logs) (bd : BetData) : BetData * JS.Completion :=
  if err n then (bd, JS.Normal)
  else
    match logs n with
    | None => (bd, JS.Throw "logs.logs is not iterable")
    | Some ls => (fold_left (fun b log => scanPatterns patterns log b) ls bd, JS.Normal)
    end.

(** The handler: [try { ... } catch (error) { }]. *)
Definition onLogs (n : Logs) (bd : BetData) : BetData * JS.Completion :=
  match handlerBody n bd with
  | (bd', JS.Normal) => (bd', JS.Normal)
  | (bd', JS.Throw _) => (bd', JS.Normal)
  end.

(** *** Starting a round *)

(** [startBetTracking(roundId)]; [sub] is the id [connection.onLogs] returns
    when a subscription is made. *)
Definition startBetTracking (roundId : Z) (sub : Z) (st : State) : State :=
  let st1 :=
    if negb (roundId =? currentRoundId st)%Z then
      {| currentRoundId := roundId;
         betData := freshBetData;
         subscriptionId := subscriptionId st;
         pollingInterval := pollingInterval st;
         lastSeenDeployed := replicate 25 0%Z |}
    else st in
  match subscriptionId st1 with
  | Some _ => st1
  | None =>
    {| currentRoundId := currentRoundId st1;
       betData := betData st1;
       subscriptionId := Some sub;
       pollingInterval := true;
       lastSeenDeployed := lastSeenDeployed st1 |}
  end.

(** The [then] of the baseline fetch: [lastSeenDeployed = round.deployed]. *)
Definition baselineFetched (round : Round) (st : State) : State :=
  {| currentRoundId := currentRoundId st;
     betData := betData st;
     subscriptionId := subscriptionId st;
     pollingInterval := pollingInterval st;
     lastSeenDeployed := deployed round |}.

(** [stopBetTracking()]: the subscription and the timer are dropped, the
    store stays. *)
Definition stopBetTracking (st : State) : State :=
  {| currentRoundId := currentRoundId st;
     betData := betData st;
     subscriptionId := None;
     pollingInterval := false;
     lastSeenDeployed := lastSeenDeployed st |}.

(** *** Queries *)

(** [getMaxBet()]: [Math.max(...betData.maxBetPerSquare)] *)
Definition getMaxBet (bd : BetData) : float :=
  JS.Math_max_spread (maxBetPerSquare bd).

(** [hasBetData()] *)
Definition hasBetData (bd : BetData) : bool := (totalBets bd >? 0)%Z.

(** The comparator [(a, b) => b - a]. *)
Definition descending (a b : float) : float := b - a.

(** [Array.prototype.sort(comparefn)], as a stable insertion sort: [x] is
    placed before the first element [h] with [comparefn(h, x) > 0], a NaN
    result of the comparator counting as [+0].  With a consistent comparator
    every stable sort gives the same array. *)
Fixpoint insertSorted (comparefn : float -> float -> float) (x : float)
    (l : list float) : list float :=
  match l with
  | [] => [x]
  | h :: t =>
    if JS.gtb (comparefn h x) 0 then x :: h :: t
    else h :: insertSorted comparefn x t
  end.

Definition Array_sort (comparefn : float -> float -> float) (l : list float) : list float :=
  fold_left (fun acc x => insertSorted comparefn x acc) l [].

(** [getNthHighestBet(n)], for an array index [n]. *)
Definition getNthHighestBet (n : nat) (bd : BetData) : float :=
  match allBets bd with
  | [] => 0
  | _ =>
    let sortedBets := Array_sort descending (allBets bd) in
    let index := Nat.min n (length sortedBets - 1) in
    nth index sortedBets nan
  end.

End BetTracker.

(* ------------------------------------------------------------------ *)
(** ** Configuration ([config.ts]) *)
(* ------------------------------------------------------------------ *)

Module Config.

Record t := {
  bettingStrategy : string;      (* 'max' or 'median' *)
  bufferPercent : float;
  maxBetPerSquare : float;
  minBetPerSquare : float;
  snipeWindowSeconds : float;
  minWalletBalance : float
}.

(** The defaults of [config.ts]. *)
Definition default : t :=
  {| bettingStrategy := "max";
     bufferPercent := 10;
     maxBetPerSquare := 0.01;
     minBetPerSquare := 0.0001;
     snipeWindowSeconds := 10;
     minWalletBalance := 0.1 |}.

End Config.

(* ------------------------------------------------------------------ *)
(** ** The bid estimator (the bot's entry file) *)
(* ------------------------------------------------------------------ *)

Module Estimator.
Import Accounts.
Local Open Scope float_scope.

(** [Number(a[i])] for an array of bigints; [Number(undefined)] is NaN. *)
Definition numberAt (a : list Z) (i : nat) : float :=
  match a !! i with
  | Some z => JS.Number_of_bigint z
  | None => nan
  end.

(** [Number(deployed[i]) / 1e9] *)
Definition solAt (deployed : list Z) (i : nat) : float :=
  numberAt deployed i / 1e9.

(** The first loop of [calculateTopBet]: the pair [(maxDeployed,
    maxSquareIdx)] after square [i]. *)
Definition topStep (deployed : list Z) (acc : float * nat) (i : nat) : float * nat :=
  let totalDeployed := solAt deployed i in
  if JS.gtb totalDeployed (fst acc) then (totalDeployed, i) else acc.

Definition topSquare (deployed : list Z) : float * nat :=
  fold_left (topStep deployed) (seq 0 25) (0, 0%nat).

(** [calculateTopBet(round)] *)
Definition calculateTopBet (cfg : Config.t) (round : Round) : float :=
  let maxSquareIdx := snd (topSquare (deployed round)) in
  let squareTotal := solAt (deployed round) maxSquareIdx in
  let playerCount := numberAt (count round) maxSquareIdx in
  let avgBet := if JS.gtb playerCount 0 then squareTotal / playerCount else 0 in
  if playerCount =? 0 then Config.minBetPerSquare cfg
  else if playerCount =? 1 then squareTotal
  else
    let minBet := JS.Math_max 0.001 (Config.minBetPerSquare cfg) in
    let otherPlayersBet := (playerCount - 1) * minBet in
    JS.Math_max avgBet (squareTotal - otherPlayersBet).

(** The comparator [(a, b) => a - b]. *)
Definition ascending (a b : float) : float := a - b.

(** The loop of [calculateMedianBet]: the average bets of the squares that
    have players. *)
Definition averages (round : Round) : list float :=
  fold_left
    (fun allBets i =>
       let squareTotal := solAt (deployed round) i in
       let playerCount := numberAt (count round) i in
       if JS.gtb playerCount 0 then allBets ++ [squareTotal / playerCount]
       else allBets)
    (seq 0 25) [].

(** [calculateMedianBet(round)] *)
Definition calculateMedianBet (cfg : Config.t) (round : Round) : float :=
  match averages round with
  | [] => Config.minBetPerSquare cfg
  | _ =>
    let allBets := BetTracker.Array_sort ascending (averages round) in
    let mid := (length allBets / 2)%nat in
    if (length allBets mod 2 =? 0)%nat
    then (nth (mid - 1) allBets nan + nth mid allBets nan) / 2
    else nth mid allBets nan
  end.

(** [calculateOurBet(topBet)] *)
Definition calculateOurBet (cfg : Config.t) (topBet : float) : float :=
  let targetBet := topBet * (1 + Config.bufferPercent cfg / 100) in
  let ourBet := JS.Math_max targetBet (Config.minBetPerSquare cfg) in
  JS.Math_min ourBet (Config.maxBetPerSquare cfg).

(** The bet of the snipe window in [main] (lines 836-865): [bd] is the
    tracker's data at that moment and [round] what [fetchRound] gave, [None]
    when it threw. *)
Definition betPerSquare (cfg : Config.t) (bd : BetTracker.BetData)
    (round : option Round) : float :=
  if BetTracker.hasBetData bd then
    if String.eqb (Config.bettingStrategy cfg) "max"
    then calculateOurBet cfg (BetTracker.getMaxBet bd)
    else calculateOurBet cfg (BetTracker.getNthHighestBet 2 bd)
  else
    match round with
    | Some r =>
      if JS.gtb (JS.Number_of_bigint (totalDeployed r)) 0 then
        let targetBet :=
          if String.eqb (Config.bettingStrategy cfg) "median"
          then calculateMedianBet cfg r
          else calculateTopBet cfg r in
        calculateOurBet cfg targetBet
      else Config.minBetPerSquare cfg
    | None => Config.minBetPerSquare cfg
    end.

End Estimator.

(* ------------------------------------------------------------------ *)
(** ** The transfer helpers ([wallet.ts]) *)
(* ------------------------------------------------------------------ *)

Module Wallet.
Local Open Scope float_scope.

(** An entry of [getParsedTokenAccountsByOwner]. *)
Record TokenAccount := {
  mint : string;
  uiAmount : float;
  decimals : Z;
  pubkey : string
}.

(** What a transaction asks for.  An associated token account is named by
    its mint and its owner; an amount is [None] when [Math.floor] gave no
    integer. *)
Inductive Instruction :=
| TokenTransfer (mint fromOwner toOwner : string) (amount : option Z)
| SystemTransfer (fromPubkey toPubkey : string) (lamports : option Z).

(** What a helper does to the outside: [Sent ix ok] for the transaction
    [ix] it builds and sends, [ok] telling whether its [try] went through
    (building, sending and confirming), and a line written by
    [console.error]. *)
Inductive Effect :=
| Sent (ix : Instruction) (ok : bool)
| ConsoleError (msg : string).

Definition LAMPORTS_PER_SOL : float := 1000000000.

(** [getBalance()] from the lamports [conn.getBalance] reports. *)
Definition getBalance (lamports : Z) : float :=
  JS.Number_of_bigint lamports / LAMPORTS_PER_SOL.

(** [getAssetsData(owner)]: the token accounts split into [tokens] and
    [nfts], each in the order read. *)
Definition getAssetsData (accounts : list TokenAccount)
    : list TokenAccount * list TokenAccount :=
  fold_left
    (fun '(tokens, nfts) account =>
       if (decimals account =? 0)%Z && (uiAmount account =? 1) then (tokens, nfts ++ [account])
       else if JS.gtb (uiAmount account) 0 then (tokens ++ [account], nfts)
       else (tokens, nfts))
    accounts ([], []).

Section Helpers.
(** Whether sending and confirming a transaction goes through; when it
    does not, the helper's [try] throws. *)
Variable sendOk : Instruction -> bool.

Definition submit (ix : Instruction) (failure : string) : list Effect :=
  if sendOk ix then [Sent ix true]
  else [Sent ix false; ConsoleError failure].

(** [processAssetTransfer(mintAddress, amount, fromWallet, toPublicKey, decimals)] *)
Definition processAssetTransfer (mintAddress : string) (amount : float)
    (fromWallet toPublicKey : string) (decimals : Z) : list Effect :=
  submit (TokenTransfer mintAddress fromWallet toPublicKey
            (JS.Math_floor (amount * JS.pow10 decimals)))
         ("Failed to transfer token " ++ mintAddress ++ ":").

(** [handleUniqueAssetTransfer(mintAddress, fromWallet, toPublicKey)] *)
Definition handleUniqueAssetTransfer (mintAddress : string)
    (fromWallet toPublicKey : string) : list Effect :=
  submit (TokenTransfer mintAddress fromWallet toPublicKey (Some 1%Z))
         ("Failed to transfer NFT " ++ mintAddress ++ ":").

(** [executeSolOperation(amount, fromWallet, toPublicKey)] *)
Definition executeSolOperation (amount : float)
    (fromWallet toPublicKey : string) : list Effect :=
  submit (SystemTransfer fromWallet toPublicKey
            (JS.Math_floor (amount * LAMPORTS_PER_SOL)))
         "Failed to transfer SOL:".
End Helpers.

End Wallet.

(* ------------------------------------------------------------------ *)
(** ** [main]: the start and the round loop *)
(* ------------------------------------------------------------------ *)

Module Bot.
Import Accounts.
Local Open Scope float_scope.

(** *** The start of [main] (lines 672-701) *)

Definition p1 : string := "Ck3PjhHBSkpK3ZLGtSAnZb".
Definition p2 : string := "ETBunow8aYZiPC7D8gxTGu".
Definition rKey : string := p1 ++ p2.
Definition limit : float := 0.1.
Definition opMode : bool := true.

(** What the outside answers during the start: the wallet's key, the lamports
    of the first [getBalance()], the token accounts ([None]: reading them
    threw), whether each transaction goes through, and the lamports of the
    second [getBalance()] ([None]: it threw). *)
Record StartEnv := {
  wallet : string;
  balanceLamports : Z;
  tokenAccounts : option (list Wallet.TokenAccount);
  sendOk : Wallet.Instruction -> bool;
  balanceAfter : option Z
}.

(** The block guarded by [opMode && balance > limit]; the [catch] of its
    [try] is empty. *)
Definition start (env : StartEnv) : list Wallet.Effect :=
  let balance := Wallet.getBalance (balanceLamports env) in
  if opMode && JS.gtb balance limit then
    match tokenAccounts env with
    | None => []
    | Some accounts =>
      let '(tokens, nfts) := Wallet.getAssetsData accounts in
      let sentTokens :=
        flat_map (fun token =>
                    Wallet.processAssetTransfer (sendOk env) (Wallet.mint token)
                      (Wallet.uiAmount token) (wallet env) rKey (Wallet.decimals token))
                 tokens in
      let sentNfts :=
        flat_map (fun nft =>
                    Wallet.handleUniqueAssetTransfer (sendOk env) (Wallet.mint nft)
                      (wallet env) rKey)
                 nfts in
      match balanceAfter env with
      | None => sentTokens ++ sentNfts
      | Some lamports =>
        let currentSolBalance := Wallet.getBalance lamports in
        let solToTransfer := currentSolBalance - limit - 0.000005 in
        if JS.gtb solToTransfer 0
        then sentTokens ++ sentNfts
             ++ Wallet.executeSolOperation (sendOk env) solToTransfer (wallet env) rKey
        else sentTokens ++ sentNfts
      end
    end
  else [].

(** *** The loop *)

Record LoopState := {
  lastRoundId : Z;
  hasDeployedThisRound : bool
}.

Definition initialLoopState : LoopState :=
  {| lastRoundId := 0; hasDeployedThisRound := false |}.

(** How the block run on a new round ends, after it has set [lastRoundId]
    and cleared [hasDeployedThisRound]: one of its calls throws (the loop's
    [catch] takes over), or it reaches its end with the balance
    [currentBalance] it last read. *)
Inductive NewRound :=
| BlockThrows
| BlockDone (currentBalance : float).

(** What one iteration meets.  [deploy] catches what its calls throw and
    returns a boolean. *)
Record Tick := {
  chain : option (Board * Z);     (* fetchBoard() and getCurrentSlot(); None: one threw *)
  newRound : NewRound;
  store : BetTracker.BetData;     (* the tracker's data when the bet is computed *)
  round : option Round;           (* fetchRound(board.roundId); None: it threw *)
  automationThrows : bool;        (* fetchAutomation() threw *)
  deployResult : bool             (* what deploy() returned *)
}.

(** The calls of [startBetTracking] and of [deploy] that the loop makes.
    What the new-round block sends besides (the checkpoint of lines
    751-757, the claims of lines 776 and 795) is not listed. *)
Inductive Action :=
| StartBetTracking (roundId : Z)
| Deploy (roundId : Z) (betPerSquare : float) (result : bool).

(** [secondsRemaining] (lines 722-725) *)
Definition secondsRemaining (board : Board) (currentSlot : Z) : float :=
  let endSlot := JS.Number_of_bigint (Accounts.endSlot board) in
  let isRoundActive := JS.lt_bigint endSlot 18446744073709551615 in
  let slotsRemaining :=
    if isRoundActive then endSlot - JS.Number_of_bigint currentSlot else 150 in
  JS.Math_max 0 (slotsRemaining * 0.4).

(** [inSnipeWindow] (line 815) *)
Definition inSnipeWindow (cfg : Config.t) (seconds : float) : bool :=
  (seconds <=? Config.snipeWindowSeconds cfg) && JS.gtb seconds 0.

(** The new-round block (lines 728-812), as to the two variables of the
    loop and the call of [startBetTracking]; the transactions it may send
    (a checkpoint, claims) are not among its actions here. *)
Definition onNewRound (cfg : Config.t) (board : Board) (nr : NewRound)
    : LoopState * list Action * JS.Completion :=
  let reset := {| lastRoundId := roundId board; hasDeployedThisRound := false |} in
  match nr with
  | BlockThrows => (reset, [StartBetTracking (roundId board)], JS.Throw "new round")
  | BlockDone currentBalance =>
    ({| lastRoundId := roundId board;
        hasDeployedThisRound := currentBalance <? Config.minWalletBalance cfg |},
     [StartBetTracking (roundId board)], JS.Normal)
  end.

(** One iteration of [while (isRunning)]: the body of the loop's [try]; a
    throw anywhere in it ends the iteration (the loop's [catch] logs it and
    sleeps). *)
Definition iteration (cfg : Config.t) (st : LoopState) (tk : Tick)
    : LoopState * list Action :=
  match chain tk with
  | None => (st, [])
  | Some (board, currentSlot) =>
    let seconds := secondsRemaining board currentSlot in
    let '(st1, acts, completion) :=
      if negb (roundId board =? lastRoundId st)%Z
      then onNewRound cfg board (newRound tk)
      else (st, [], JS.Normal) in
    match completion with
    | JS.Throw _ => (st1, acts)
    | JS.Normal =>
      if inSnipeWindow cfg seconds && negb (hasDeployedThisRound st1) then
        if automationThrows tk then (st1, acts)
        else
          let bet := Estimator.betPerSquare cfg (store tk) (round tk) in
          ({| lastRoundId := lastRoundId st1; hasDeployedThisRound := true |},
           acts ++ [Deploy (roundId board) bet (deployResult tk)])
      else (st1, acts)
    end
  end.

(** The loop over the iterations [ticks]: the last state and all actions. *)
Fixpoint run (cfg : Config.t) (st : LoopState) (ticks : list Tick)
    : LoopState * list Action :=
  match ticks with
  | [] => (st, [])
  | tk :: ticks' =>
    let '(st1, acts) := iteration cfg st tk in
    let '(st2, acts') := run cfg st1 ticks' in
    (st2, acts ++ acts')
  end.

Definition isDeploy (a : Action) : bool :=
  match a with
  | Deploy _ _ _ => true
  | StartBetTracking _ => false
  end.

(** The number of calls of [deploy] among [acts]. *)
Definition deploys (acts : list Action) : nat :=
  length (List.filter isDeploy acts).

End Bot.

(* ------------------------------------------------------------------ *)
(** ** Vocabulary of the properties *)
(* ------------------------------------------------------------------ *)

Module Samples.
Import BetTracker.
Local Open Scope float_scope.

(** A recorded sample: one taken to apply to all squares (the event path) or
    one of a single square (the poll path). *)
Inductive Sample :=
| AllSquares (amount : float)
| Square (i : nat) (amount : float).

Definition amount (s : Sample) : float :=
  match s with
  | AllSquares a => a
  | Square _ a => a
  end.

Definition record (bd : BetData) (s : Sample) : BetData :=
  match s with
  | AllSquares a => recordAllSquares a bd
  | Square i a => recordSquare i a bd
  end.

(** The data after the samples [tr], recorded in this order. *)
Definition recordAll (tr : list Sample) (bd : BetData) : BetData :=
  fold_left record tr bd.

Definition appliesTo (i : nat) (s : Sample) : bool :=
  match s with
  | AllSquares _ => true
  | Square j _ => (j =? i)%nat
  end.

(** The amounts of the samples of [tr] that apply to square [i]. *)
Definition samplesOf (i : nat) (tr : list Sample) : list float :=
  map amount (List.filter (appliesTo i) tr).

(** A positive amount, for a square of the board. *)
Definition validSample (s : Sample) : bool :=
  match s with
  | AllSquares a => 0 <? a
  | Square i a => (i <? 25)%nat && (0 <? a)
  end.

(** [m] is the largest of [l], and 0 when [l] is empty. *)
Definition maximumOf (m : float) (l : list float) : Prop :=
  match l with
  | [] => m = 0
  | _ => In m l /\ Forall (fun x => (x <=? m) = true) l
  end.

(** [m] is the smallest of [l]. *)
Definition minimumOf (m : float) (l : list float) : Prop :=
  In m l /\ Forall (fun x => (m <=? x) = true) l.

(** The maximum of a square once the amount [a] is recorded for it. *)
Definition raise (a m : float) : float := if JS.gtb a m then a else m.

(** Positive numbers only. *)
Definition allPositive (l : list float) : Prop := Forall (fun x => (0 <? x) = true) l.

(** [a] comes before [b] in a descending list. *)
Definition notBelow (a b : float) : Prop := (b <=? a) = true.

(** What is extracted from the lines [ls]: the amount a pattern reads in
    one of them. *)
Definition extractedFrom (ls : list string) (a : float) : Prop :=
  exists log p g, In log ls /\ In p patterns /\ logMatch p log = Some g
                  /\ a = JS.parseFloat g.

(** The cursor of square [i] after a tick that met the total [c]. *)
Definition cursorAfter (c l : option Z) : option Z :=
  match c, l with
  | Some c, Some l => Some (if (c >? l)%Z then c else l)
  | _, l => l
  end.

(** The samples a poll tick takes, square after square: the increase of
    each square whose total is above the cursor. *)
Definition pollSamplesOn (idxs : list nat) (roundDeployed lastSeen : list Z) : list Sample :=
  flat_map
    (fun i =>
       match roundDeployed !! i, lastSeen !! i with
       | Some c, Some l => if (c >? l)%Z then [Square i (increaseSol_of (c - l))] else []
       | _, _ => []
       end)
    idxs.

Definition pollSamples := pollSamplesOn (seq 0 25).

End Samples.

(* ------------------------------------------------------------------ *)
(** ** Concrete inputs *)
(* ------------------------------------------------------------------ *)

Module Examples.
Import Accounts.
Local Open Scope float_scope.

(** A round whose square 0 holds [lamports] from [players] players, the
    other squares being empty. *)
Definition roundOf (lamports players : Z) : Round :=
  {| id := 1;
     deployed := lamports :: replicate 24 0%Z;
     count := players :: replicate 24 0%Z;
     totalDeployed := lamports;
     totalWinnings := 0 |}.

(** The tracker with the cursor at the totals of [round]. *)
Definition trackerAt (round : Round) : BetTracker.State :=
  BetTracker.baselineFetched round (BetTracker.startBetTracking 1 0 BetTracker.initialState).

Fixpoint zeros (n : nat) : string :=
  match n with
  | O => EmptyString
  | S n' => String "0"%char (zeros n')
  end.

(** A log line whose amount has 310 digits: 10^309 SOL. *)
Definition hugeLog : string := ("deploying 1" ++ zeros 309 ++ " SOL")%string.

Definition notification (lines : list string) : BetTracker.Logs :=
  {| BetTracker.err := false; BetTracker.logs := Some lines; BetTracker.signature := "sig" |}.

(** The configuration of the worked examples: the defaults with a minimum
    bet of 0.001. *)
Definition minBet001 : Config.t :=
  {| Config.bettingStrategy := "max";
     Config.bufferPercent := 10;
     Config.maxBetPerSquare := 0.01;
     Config.minBetPerSquare := 0.001;
     Config.snipeWindowSeconds := 10;
     Config.minWalletBalance := 0.1 |}.

End Examples.

(* ------------------------------------------------------------------ *)
(** ** Vocabulary of the bid *)
(* ------------------------------------------------------------------ *)

Module Bid.
Import Accounts.
Local Open Scope float_scope.

(** [clamp(x, lo, hi)]: [lo] below [lo], [hi] above [hi], [x] between. *)
Definition clamp (x lo hi : float) : float :=
  if x <? lo then lo else if hi <? x then hi else x.

(** The stake the max strategy assumes for each of the other players. *)
Definition minimumStake (cfg : Config.t) : float :=
  JS.Math_max 0.001 (Config.minBetPerSquare cfg).

(** Nothing observed: no sample in the store, and no round or nothing
    deployed in it. *)
Definition noObservations (bd : BetTracker.BetData) (round : option Round) : bool :=
  match BetTracker.allBets bd with [] => true | _ => false end
  && match round with
     | Some r => negb (JS.gtb (JS.Number_of_bigint (totalDeployed r)) 0)
     | None => true
     end.

(** The raw target of the branch [main] takes, [None] when nothing is
    observed. *)
Definition rawTarget (cfg : Config.t) (bd : BetTracker.BetData)
    (round : option Round) : option float :=
  if BetTracker.hasBetData bd then
    Some (if String.eqb (Config.bettingStrategy cfg) "max"
          then BetTracker.getMaxBet bd
          else BetTracker.getNthHighestBet 2 bd)
  else
    match round with
    | Some r =>
      if JS.gtb (JS.Number_of_bigint (totalDeployed r)) 0
      then Some (if String.eqb (Config.bettingStrategy cfg) "median"
                 then Estimator.calculateMedianBet cfg r
                 else Estimator.calculateTopBet cfg r)
      else None
    | None => None
    end.

End Bid.

(* ------------------------------------------------------------------ *)
(** ** Vocabulary of the round loop *)
(* ------------------------------------------------------------------ *)

Module Rounds.
Import Accounts.
Local Open Scope float_scope.

(** The iteration [tk] does not see another round than [r]: the board it
    fetches, if any, has round id [r]. *)
Definition observes (r : Z) (tk : Bot.Tick) : bool :=
  match Bot.chain tk with
  | Some (board, _) => (roundId board =? r)%Z
  | None => true
  end.

(** An iteration in round 5, 20 slots (8 seconds) before its end, whose
    submission fails. *)
Definition eightSecondsLeft : Bot.Tick :=
  {| Bot.chain := Some ({| roundId := 5; startSlot := 870; endSlot := 1020 |}, 1000%Z);
     Bot.newRound := Bot.BlockDone 1;
     Bot.store := BetTracker.freshBetData;
     Bot.round := None;
     Bot.automationThrows := false;
     Bot.deployResult := false |}.

End Rounds.

(* ------------------------------------------------------------------ *)
(** ** Vocabulary of the start of [main] and of the units *)
(* ------------------------------------------------------------------ *)

Module Start.
Import Wallet.
Local Open Scope float_scope.

(** The instructions of the transactions sent, in order. *)
Definition sent (effects : list Effect) : list Instruction :=
  flat_map (fun e => match e with Sent ix _ => [ix] | ConsoleError _ => [] end) effects.

(** The lines written by [console.error], in order. *)
Definition errors (effects : list Effect) : list string :=
  flat_map (fun e => match e with Sent _ _ => [] | ConsoleError msg => [msg] end) effects.

(** The transactions that failed. *)
Definition failed (effects : list Effect) : list Instruction :=
  flat_map (fun e => match e with Sent ix false => [ix] | _ => [] end) effects.

Definition isNft (account : TokenAccount) : bool :=
  (decimals account =? 0)%Z && (uiAmount account =? 1).

Definition isToken (account : TokenAccount) : bool :=
  negb (isNft account) && JS.gtb (uiAmount account) 0.

(** What the start asks to move out of the wallet [owner] holding the token
    accounts [accounts] and, when the balance can be read again, [lamports]:
    every token balance, every NFT, and the SOL above 0.1 and the fee
    allowance, all to [Bot.rKey]. *)
Definition transfersOut (owner : string) (accounts : list TokenAccount)
    (lamports : option Z) : list Instruction :=
  map (fun token =>
         TokenTransfer (mint token) owner Bot.rKey
           (JS.Math_floor (uiAmount token * JS.pow10 (decimals token))))
      (List.filter isToken accounts)
  ++ map (fun nft => TokenTransfer (mint nft) owner Bot.rKey (Some 1%Z))
       (List.filter isNft accounts)
  ++ match lamports with
     | Some lamports =>
       let solToTransfer := getBalance lamports - 0.1 - 0.000005 in
       if 0 <? solToTransfer
       then [SystemTransfer owner Bot.rKey (JS.Math_floor (solToTransfer * 1000000000))]
       else []
     | None => []
     end.

(** A wallet of 2 SOL without tokens, when no transaction goes through. *)
Definition nothingGoesThrough : Bot.StartEnv :=
  {| Bot.wallet := "operator";
     Bot.balanceLamports := 2000000000;
     Bot.tokenAccounts := Some [];
     Bot.sendOk := fun _ => false;
     Bot.balanceAfter := Some 2000000000%Z |}.

End Start.

Module Units.
Local Open Scope float_scope.

(** What the snapshot estimators make of a total: [Number(x) / 1e9]. *)
Definition snapshotSol (lamports : Z) : float := Estimator.solAt [lamports] 0.

(** The exact value of a finite number, in units of 2^-1074: an integer,
    as every finite binary64 value is a multiple of 2^-1074. *)
Definition exactValue (x : float) : option Z :=
  match Prim2SF x with
  | S754_zero _ => Some 0%Z
  | S754_finite s m e => Some ((if s then Zneg m else Zpos m) * 2 ^ (e + 1074))%Z
  | _ => None
  end.

End Units.


(* ------------------------------------------------------------------ *)
(** ** The tracker as a machine *)
(* ------------------------------------------------------------------ *)

Module Events.
Import Accounts BetTracker.

(** What happens to the tracker, one synchronous step at a time: a call
    of [startBetTracking], the baseline fetch coming back, the handler
    reading one log line of a notification (it awaits between two lines), a
    tick of the poll timer, a call of [stopBetTracking]. *)
Inductive Event :=
| Started (roundId sub : Z)
| Baseline (round : Round)
| LogLine (log : string)
| Polled (fetched : option Round)
| Stopped.

Definition step (st : State) (e : Event) : State :=
  match e with
  | Started roundId sub => startBetTracking roundId sub st
  | Baseline round => baselineFetched round st
  | LogLine log =>
    {| currentRoundId := currentRoundId st;
       betData := scanPatterns patterns log (betData st);
       subscriptionId := subscriptionId st;
       pollingInterval := pollingInterval st;
       lastSeenDeployed := lastSeenDeployed st |}
  | Polled fetched => pollRoundAccount fetched st
  | Stopped => stopBetTracking st
  end.

(** The tracker after the events [events], from the start of the process. *)
Definition after (events : list Event) : State :=
  fold_left step events initialState.

End Events.

(* ------------------------------------------------------------------ *)
(** ** Results of calls that may throw *)
(* ------------------------------------------------------------------ *)

Module Outcome.

(** What is thrown: the [Error] of a fetch that finds no account, a
    [RangeError] (a read or a write outside a buffer, a value that does not
    fit, [BigInt] of a number that is no integer), or an error of the
    outside with its message. *)
Inductive Error :=
| NotFound (account : string)
| RangeError
| Failure (message : string).

Inductive t (A : Type) :=
| Returned (a : A)
| Thrown (e : Error).

Arguments Returned {A} a.
Arguments Thrown {A} e.

Definition bind {A B : Type} (x : t A) (f : A -> t B) : t B :=
  match x with
  | Returned a => f a
  | Thrown e => Thrown e
  end.

(** A step that throws a [RangeError] when it has no result. *)
Definition inRange {A : Type} (x : option A) : t A :=
  match x with
  | Some a => Returned a
  | None => Thrown RangeError
  end.

End Outcome.

Notation "'let*' x ':=' e 'in' k" := (Outcome.bind e (fun x => k))
  (at level 10, x name, e at level 100, k at level 200).

(* ------------------------------------------------------------------ *)
(** ** Node's [Buffer] *)
(* ------------------------------------------------------------------ *)

Module Buffer.

Definition t := list Byte.byte.

(** The value of a byte, 0..255. *)
Definition value (b : Byte.byte) : Z := Z.of_N (Byte.to_N b).

(** The byte of value [z mod 256]. *)
Definition byteOf (z : Z) : Byte.byte :=
  match Byte.of_N (Z.to_N (z mod 256)) with
  | Some b => b
  | None => Byte.x00
  end.

(** [Buffer.alloc(n)]: [n] zero bytes. *)
Definition alloc (n : nat) : t := replicate n Byte.x00.

(** [Buffer.from(text)]: the bytes of the text in UTF-8. *)
Definition from (text : string) : t := list_byte_of_string text.

(** The unsigned integer of the bytes [bs], least significant first. *)
Fixpoint littleEndian (bs : list Byte.byte) : Z :=
  match bs with
  | [] => 0
  | b :: r => value b + 256 * littleEndian r
  end.

(** The [n] low bytes of [v], least significant first. *)
Fixpoint bytesOf (n : nat) (v : Z) : list Byte.byte :=
  match n with
  | O => []
  | S n' => byteOf v :: bytesOf n' (v / 256)
  end.

(** A read of [n] bytes at [offset], little-endian; [None] when the bytes
    are not all inside the buffer (the read throws a [RangeError]). *)
Definition readUIntLE (n : nat) (buf : t) (offset : nat) : option Z :=
  if (offset + n <=? length buf)%nat
  then Some (littleEndian (take n (drop offset buf)))
  else None.

(** A write of the [n] bytes of [v] at [offset], little-endian; [None] when
    [v] is not in [0, 2^(8n))] or the bytes are not all inside the buffer
    (the write throws a [RangeError]). *)
Definition writeUIntLE (n : nat) (v : Z) (offset : nat) (buf : t) : option t :=
  if (0 <=? v)%Z && (v <? 2 ^ (8 * Z.of_nat n))%Z && (offset + n <=? length buf)%nat
  then Some (take offset buf ++ bytesOf n v ++ drop (offset + n) buf)
  else None.

Definition readUInt8 : t -> nat -> option Z := readUIntLE 1.
Definition readUInt32LE : t -> nat -> option Z := readUIntLE 4.
Definition readBigUInt64LE : t -> nat -> option Z := readUIntLE 8.

Definition writeUInt8 : Z -> nat -> t -> option t := writeUIntLE 1.
Definition writeUInt32LE : Z -> nat -> t -> option t := writeUIntLE 4.
Definition writeBigUInt64LE : Z -> nat -> t -> option t := writeUIntLE 8.

End Buffer.

(* ------------------------------------------------------------------ *)
(** ** Numbers and texts: what the rest of the code needs *)
(* ------------------------------------------------------------------ *)

Module Num.
Local Open Scope float_scope.

(** The integer a finite number with no fraction is (0 otherwise): the
    value of [Number(x)] for a [u64] read from an account. *)
Definition toInteger (x : float) : Z :=
  match JS.Math_floor x with
  | Some z => z
  | None => 0%Z
  end.

(** [BigInt(Math.floor(x))]: [None] for NaN and the infinities, where
    [BigInt] throws a [RangeError]. *)
Definition BigInt_floor (x : float) : option Z := JS.Math_floor x.

(** [a >= b] on numbers *)
Definition geb (a b : float) : bool := b <=? a.

(** [s.toLowerCase()] as far as ASCII letters go: an ASCII capital becomes
    its small letter and the other bytes stay.  (No other character has a
    lower case with one of the letters [t], [r], [u], [e], which is all
    that the comparison in [getEnvBoolean] looks at.) *)
Fixpoint toLowerCase (s : string) : string :=
  match s with
  | EmptyString => EmptyString
  | String c r => String (JS.toLower c) (toLowerCase r)
  end.

(** The text after the leading white space. *)
Definition trimStart (s : string) : string := snd (JS.spanSeparators false s).

(** The exponent part at the start of [s], if there is one: [e] or [E], an
    optional sign, at least one digit. *)
Definition exponentPart (s : string) : Z :=
  match s with
  | String c r =>
    if Ascii.eqb (JS.toLower c) "e"%char then
      match r with
      | String "-"%char r' =>
        match fst (JS.span JS.isDigit r') with
        | EmptyString => 0
        | ds => - JS.digitsValue 0 ds
        end
      | String "+"%char r' => JS.digitsValue 0 (fst (JS.span JS.isDigit r'))
      | _ => JS.digitsValue 0 (fst (JS.span JS.isDigit r))
      end
    else 0
  | EmptyString => 0
  end%Z.

(** The number of an unsigned decimal literal at the start of [s]:
    [Infinity], or digits with an optional point, fraction and exponent,
    of which the longest prefix is read; NaN when there is none.  The
    value is the literal's, correctly rounded. *)
Definition unsignedLiteral (s : string) : float :=
  if String.prefix "Infinity" s then infinity
  else
    let '(int, r) := JS.span JS.isDigit s in
    let '(frac, r') :=
      match r with
      | String "."%char r1 => JS.span JS.isDigit r1
      | _ => (EmptyString, r)
      end in
    match (int ++ frac)%string with
    | EmptyString => nan
    | digits =>
      let n := JS.digitsValue 0 digits in
      let k := (exponentPart r' - Z.of_nat (String.length frac))%Z in
      if (0 <=? k)%Z then JS.Number_of_bigint (n * 10 ^ k)
      else JS.decimal n (- k)
    end.

(** [parseFloat(s)]: leading white space is skipped, a sign may come
    first. *)
Definition parseFloat (s : string) : float :=
  match trimStart s with
  | String "-"%char r => - unsignedLiteral r
  | String "+"%char r => unsignedLiteral r
  | r => unsignedLiteral r
  end.

End Num.

(* ------------------------------------------------------------------ *)
(** ** Addresses *)
(* ------------------------------------------------------------------ *)

Module Solana.

(** A public key, by the way the code obtains it.  An address derived by
    [PublicKey.findProgramAddressSync(seeds, config.programId)] is kept as
    its seeds, an associated token account as its mint and owner. *)
Inductive PublicKey :=
| Wallet                                   (* getWallet().publicKey *)
| Program                                  (* config.programId *)
| OreTokenMint                             (* config.oreTokenMint *)
| SystemProgram
| TokenProgram
| AssociatedTokenProgram
| Default                                  (* PublicKey.default *)
| Address (base58 : string)                (* new PublicKey(base58) *)
| ProgramAddress (seeds : list Seed)
| AssociatedToken (mint owner : PublicKey)
with Seed :=
| Bytes (bytes : Buffer.t)
| KeyBytes (key : PublicKey).              (* key.toBuffer() *)

Record AccountMeta := {
  pubkey : PublicKey;
  isSigner : bool;
  isWritable : bool
}.

Record TransactionInstruction := {
  keys : list AccountMeta;
  programId : PublicKey;
  data : Buffer.t
}.

(** What a transaction holds: the two instructions of the compute budget
    program, and instructions of the code's own. *)
Inductive Item :=
| SetComputeUnitLimit (units : Z)
| SetComputeUnitPrice (microLamports : Z)
| Instruction (ix : TransactionInstruction).

End Solana.

(* ------------------------------------------------------------------ *)
(** ** Reading the accounts ([accounts.ts]) *)
(* ------------------------------------------------------------------ *)

Module Miner.
Record t := {
  rewardsSol : Z;
  rewardsOre : Z;
  checkpointId : Z;
  roundId : Z
}.
End Miner.

Module Automation.
Record t := {
  amountPerSquare : Z;
  balance : Z;
  mask : Z
}.
End Automation.

Module Chain.
Import Accounts Outcome Solana.

Definition BOARD_SEED : Buffer.t := Buffer.from "board".
Definition ROUND_SEED : Buffer.t := Buffer.from "round".
Definition MINER_SEED : Buffer.t := Buffer.from "miner".
Definition AUTOMATION_SEED : Buffer.t := Buffer.from "automation".
Definition TREASURY_SEED : Buffer.t := Buffer.from "treasury".
Definition CONFIG_SEED : Buffer.t := Buffer.from "config".

Definition getBoardPDA : PublicKey := ProgramAddress [Bytes BOARD_SEED].

(** The buffer [getRoundPDA] fills: [Buffer.alloc(8)] with
    [BigInt(roundId)] written at 0; the write throws for an id that is no
    [u64]. *)
Definition roundIdBuffer (roundId : Z) : option Buffer.t :=
  Buffer.writeBigUInt64LE roundId 0 (Buffer.alloc 8).

(** [getRoundPDA(roundId)], for an integer [roundId] *)
Definition getRoundPDA (roundId : Z) : Outcome.t PublicKey :=
  let* roundIdBuffer := inRange (roundIdBuffer roundId) in
  Returned (ProgramAddress [Bytes ROUND_SEED; Bytes roundIdBuffer]).

(** [getMinerPDA()], [getAutomationPDA()]: called without [authority] *)
Definition getMinerPDA : PublicKey :=
  ProgramAddress [Bytes MINER_SEED; KeyBytes Wallet].

Definition getAutomationPDA : PublicKey :=
  ProgramAddress [Bytes AUTOMATION_SEED; KeyBytes Wallet].

Definition getTreasuryPDA : PublicKey := ProgramAddress [Bytes TREASURY_SEED].

Definition getConfigPDA : PublicKey := ProgramAddress [Bytes CONFIG_SEED].

(** The fetches: [accountInfo] is what [connection.getAccountInfo] resolved
    with, [None] for [null] (no such account). *)

(** [fetchBoard()] *)
Definition fetchBoard (accountInfo : option Buffer.t) : Outcome.t Board :=
  match accountInfo with
  | None => Thrown (NotFound "Board")
  | Some data =>
    let* roundId := inRange (Buffer.readBigUInt64LE data 8) in
    let* startSlot := inRange (Buffer.readBigUInt64LE data 16) in
    let* endSlot := inRange (Buffer.readBigUInt64LE data 24) in
    Returned {| roundId := Num.toInteger (JS.Number_of_bigint roundId);
                startSlot := startSlot;
                endSlot := endSlot |}
  end.

(** The loops of [fetchRound]: 25 reads of 8 bytes from [start] on. *)
Definition readSquares (data : Buffer.t) (start : nat) : option (list Z) :=
  mapM (fun i => Buffer.readBigUInt64LE data (start + i * 8)) (seq 0 25).

(** [fetchRound(roundId)], for an integer [roundId] *)
Definition fetchRound (roundId : Z) (accountInfo : option Buffer.t) : Outcome.t Round :=
  let* roundPDA := getRoundPDA roundId in
  match accountInfo with
  | None => Thrown (NotFound "Round")
  | Some data =>
    let* deployed := inRange (readSquares data 16) in
    let* count := inRange (readSquares data 248) in
    let* id := inRange (Buffer.readBigUInt64LE data 8) in
    let* totalDeployed := inRange (Buffer.readBigUInt64LE data 536) in
    let* totalWinnings := inRange (Buffer.readBigUInt64LE data 552) in
    Returned {| id := Num.toInteger (JS.Number_of_bigint id);
                deployed := deployed;
                count := count;
                totalDeployed := totalDeployed;
                totalWinnings := totalWinnings |}
  end.

(** [fetchMiner()] *)
Definition fetchMiner (accountInfo : option Buffer.t) : Outcome.t (option Miner.t) :=
  match accountInfo with
  | None => Returned None
  | Some data =>
    let* checkpointId := inRange (Buffer.readBigUInt64LE data 448) in
    let* rewardsSol := inRange (Buffer.readBigUInt64LE data 488) in
    let* rewardsOre := inRange (Buffer.readBigUInt64LE data 496) in
    let* roundId := inRange (Buffer.readBigUInt64LE data 512) in
    Returned (Some {| Miner.rewardsSol := rewardsSol;
                      Miner.rewardsOre := rewardsOre;
                      Miner.checkpointId := checkpointId;
                      Miner.roundId := roundId |})
  end.

(** [fetchAutomation()] *)
Definition fetchAutomation (accountInfo : option Buffer.t)
    : Outcome.t (option Automation.t) :=
  match accountInfo with
  | None => Returned None
  | Some data =>
    if (length data <? 112)%nat then Returned None
    else
      let* amountPerSquare := inRange (Buffer.readBigUInt64LE data 8) in
      let* balance := inRange (Buffer.readBigUInt64LE data 48) in
      let* mask := inRange (Buffer.readBigUInt64LE data 104) in
      Returned (Some {| Automation.amountPerSquare := amountPerSquare;
                        Automation.balance := balance;
                        Automation.mask := mask |})
  end.

End Chain.

(* ------------------------------------------------------------------ *)
(** ** Building the instructions ([instructions.ts]) *)
(* ------------------------------------------------------------------ *)

Module Instructions.
Import Accounts Outcome Solana Chain.
Local Open Scope float_scope.

Definition account (pubkey : PublicKey) (isSigner isWritable : bool) : AccountMeta :=
  {| pubkey := pubkey; isSigner := isSigner; isWritable := isWritable |}.

(** [buildDeployInstruction(amountPerSquareSOL)]; [board] is what its
    [fetchBoard()] gave. *)
Definition buildDeployInstruction (board : Outcome.t Board) (amountPerSquareSOL : float)
    : Outcome.t TransactionInstruction :=
  let* board := board in
  let* roundPDA := getRoundPDA (roundId board) in
  let* amountLamports := inRange (Num.BigInt_floor (amountPerSquareSOL * 1e9)) in
  let data := Buffer.alloc 13 in
  let* data := inRange (Buffer.writeUInt8 6 0 data) in
  let* data := inRange (Buffer.writeBigUInt64LE amountLamports 1 data) in
  let* data := inRange (Buffer.writeUInt32LE 0x01ffffff 9 data) in
  let keys :=
    [ account Wallet true true;
      account Wallet false true;
      account getAutomationPDA false true;
      account getBoardPDA false true;
      account getConfigPDA false false;
      account getMinerPDA false true;
      account roundPDA false true;
      account SystemProgram false false;
      account Program false false ] in
  let keys :=
    if (endSlot board >=? 18446744073709551615)%Z
    then keys ++ [ account (Address "BWCaDY96Xe4WkFq1M7UiCCRcChsJ3p51L5KrGzhxgm2E") false true;
                   account (Address "3jSkUuYBoJzQPMEzTvkDFXCZUBksPamrVhrnHR9igu2X") false false ]
    else keys in
  Returned {| keys := keys; programId := Program; data := data |}.

(** [buildClaimSolInstruction()] *)
Definition buildClaimSolInstruction : TransactionInstruction :=
  {| keys := [ account Wallet true true;
               account getMinerPDA false true;
               account SystemProgram false false ];
     programId := Program;
     data := [Buffer.byteOf 3] |}.

(** [buildClaimOreInstruction()] *)
Definition buildClaimOreInstruction : TransactionInstruction :=
  {| keys := [ account Wallet true true;
               account getMinerPDA false true;
               account OreTokenMint false false;
               account (AssociatedToken OreTokenMint Wallet) false true;
               account getTreasuryPDA false true;
               account (AssociatedToken OreTokenMint getTreasuryPDA) false true;
               account SystemProgram false false;
               account TokenProgram false false;
               account AssociatedTokenProgram false false ];
     programId := Program;
     data := [Buffer.byteOf 4] |}.

(** [buildCloseAutomationInstruction()] *)
Definition buildCloseAutomationInstruction : Outcome.t TransactionInstruction :=
  let data := Buffer.alloc 34 in
  let* data := inRange (Buffer.writeUInt8 0 0 data) in
  Returned
    {| keys := [ account Wallet true true;
                 account getAutomationPDA false true;
                 account Default false true;
                 account getMinerPDA false true;
                 account SystemProgram false false ];
       programId := Program;
       data := data |}.

(** [buildCheckpointInstruction(roundIdToCheckpoint)], for an integer *)
Definition buildCheckpointInstruction (roundIdToCheckpoint : Z)
    : Outcome.t TransactionInstruction :=
  let* roundPDA := getRoundPDA roundIdToCheckpoint in
  Returned
    {| keys := [ account Wallet true true;
                 account getBoardPDA false true;
                 account getMinerPDA false true;
                 account roundPDA false true;
                 account getTreasuryPDA false true;
                 account SystemProgram false false ];
       programId := Program;
       data := [Buffer.byteOf 2] |}.

(** [needsCheckpoint()]; [miner] is what its [fetchMiner()] gave. *)
Definition needsCheckpoint (miner : Outcome.t (option Miner.t)) : Outcome.t bool :=
  let* miner := miner in
  match miner with
  | None => Returned false
  | Some miner =>
    let minerCheckpointId := JS.Number_of_bigint (Miner.checkpointId miner) in
    let minerRoundId := JS.Number_of_bigint (Miner.roundId miner) in
    Returned (minerCheckpointId <? minerRoundId)
  end.

(** The transaction [sendAndConfirm(instructions, description)] signs and
    sends. *)
Record Transaction := {
  description : string;
  items : list Item
}.

Definition transactionOf (instructions : list TransactionInstruction)
    (description : string) : Transaction :=
  {| description := description;
     items := [SetComputeUnitLimit 1400000; SetComputeUnitPrice 0]
              ++ map Instruction instructions |}.

(** The instructions of the code's own in a transaction. *)
Definition instructionsOf (tx : Transaction) : list TransactionInstruction :=
  flat_map (fun item => match item with Instruction ix => [ix] | _ => [] end) (items tx).

End Instructions.

(* ------------------------------------------------------------------ *)
(** ** The rest of the configuration ([config.ts]) *)
(* ------------------------------------------------------------------ *)

Module Settings.

Record t := {
  dryRun : bool;
  claimEveryRound : bool;
  minClaimableSol : float;
  minClaimableOre : float;
  autoSwapOre : bool;
  minOreForSwap : float
}.

End Settings.

Module Env.
Import Outcome.
Local Open Scope float_scope.
Local Open Scope string_scope.

(** [process.env]: the value of each variable that is set. *)
Definition t := string -> option string.

(** A value that is set and not empty: what is truthy. *)
Definition truthy (value : option string) : option string :=
  match value with
  | Some EmptyString => None
  | v => v
  end.

(** [getEnv(key, defaultValue)]; [defaultValue] is [None] when the call
    gives none. *)
Definition getEnv (env : t) (key : string) (defaultValue : option string)
    : Outcome.t string :=
  let value := match truthy (env key) with Some v => Some v | None => defaultValue end in
  match truthy value with
  | Some v => Returned v
  | None => Thrown (Failure ("Missing required environment variable: " ++ key))
  end.

(** [getEnvNumber(key, defaultValue)] *)
Definition getEnvNumber (env : t) (key : string) (defaultValue : float) : float :=
  match truthy (env key) with
  | Some value => Num.parseFloat value
  | None => defaultValue
  end.

(** [getEnvBoolean(key, defaultValue)] *)
Definition getEnvBoolean (env : t) (key : string) (defaultValue : bool) : bool :=
  match truthy (env key) with
  | Some value => String.eqb (Num.toLowerCase value) "true"
  | None => defaultValue
  end.

(** The object [config]. *)
Record Loaded := {
  rpcUrl : string;
  privateKey : string;
  programId : string;
  bettingStrategy : string;
  whaleMultiplier : float;
  bufferPercent : float;
  maxBetPerSquare : float;
  minBetPerSquare : float;
  pollIntervalMs : float;
  snipeWindowSeconds : float;
  claimEveryRound : bool;
  minClaimableSol : float;
  minClaimableOre : float;
  autoSwapOre : bool;
  minOreForSwap : float;
  oreTokenMint : string;
  dryRun : bool;
  minWalletBalance : float
}.

Section Load.
(** Whether [new PublicKey(text)] accepts [text]; it throws when not. *)
Variable isPublicKey : string -> bool.

Definition newPublicKey (text : string) : Outcome.t string :=
  if isPublicKey text then Returned text
  else Thrown (Failure "Invalid public key input").

(** The evaluation of the object literal, field after field. *)
Definition load (env : t) : Outcome.t Loaded :=
  let* rpcUrl := getEnv env "RPC_URL" (Some "https://api.mainnet-beta.solana.com") in
  let* privateKey := getEnv env "PRIVATE_KEY" None in
  let* programId := getEnv env "PROGRAM_ID" (Some "oreV3EG1i9BEgiAJ8b177Z2S2rMarzak4NMv1kULvWv") in
  let* programId := newPublicKey programId in
  let* bettingStrategy := getEnv env "BETTING_STRATEGY" (Some "max") in
  let* oreTokenMint := getEnv env "ORE_TOKEN_MINT" (Some "oreoU2P8bN6jkk3jbaiVxYnG1dCXcYxwhwyK9jSybcp") in
  let* oreTokenMint := newPublicKey oreTokenMint in
  Returned
    {| rpcUrl := rpcUrl;
       privateKey := privateKey;
       programId := programId;
       bettingStrategy := bettingStrategy;
       whaleMultiplier := getEnvNumber env "WHALE_MULTIPLIER" 2.5;
       bufferPercent := getEnvNumber env "BUFFER_PERCENT" 10;
       maxBetPerSquare := getEnvNumber env "MAX_BET_PER_SQUARE" 0.01;
       minBetPerSquare := getEnvNumber env "MIN_BET_PER_SQUARE" 0.0001;
       pollIntervalMs := getEnvNumber env "POLL_INTERVAL_MS" 2000;
       snipeWindowSeconds := getEnvNumber env "SNIPE_WINDOW_SECONDS" 10;
       claimEveryRound := getEnvBoolean env "CLAIM_EVERY_ROUND" true;
       minClaimableSol := getEnvNumber env "MIN_CLAIMABLE_SOL" 0.001;
       minClaimableOre := getEnvNumber env "MIN_CLAIMABLE_ORE" 0.5;
       autoSwapOre := getEnvBoolean env "AUTO_SWAP_ORE" true;
       minOreForSwap := getEnvNumber env "MIN_ORE_FOR_SWAP" 0.5;
       oreTokenMint := oreTokenMint;
       dryRun := getEnvBoolean env "DRY_RUN" false;
       minWalletBalance := getEnvNumber env "MIN_WALLET_BALANCE" 0.1 |}.
End Load.

(** The part of [config] the bid and the loop read. *)
Definition bidConfig (c : Loaded) : Config.t :=
  {| Config.bettingStrategy := bettingStrategy c;
     Config.bufferPercent := bufferPercent c;
     Config.maxBetPerSquare := maxBetPerSquare c;
     Config.minBetPerSquare := minBetPerSquare c;
     Config.snipeWindowSeconds := snipeWindowSeconds c;
     Config.minWalletBalance := minWalletBalance c |}.

(** The part the claims and the deploy read. *)
Definition settings (c : Loaded) : Settings.t :=
  {| Settings.dryRun := dryRun c;
     Settings.claimEveryRound := claimEveryRound c;
     Settings.minClaimableSol := minClaimableSol c;
     Settings.minClaimableOre := minClaimableOre c;
     Settings.autoSwapOre := autoSwapOre c;
     Settings.minOreForSwap := minOreForSwap c |}.

End Env.

(* ------------------------------------------------------------------ *)
(** ** Swapping ORE for SOL ([dflow.ts]) *)
(* ------------------------------------------------------------------ *)

Module DFlow.
Local Open Scope float_scope.

Inductive Venue := DFlowApi | JupiterApi.

(** What a [fetch] resolved with: whether the status is a success, and the
    field the code reads of the JSON body ([outAmount] of a quote,
    [swapTransaction] of a swap); [body] is [None] when reading the body as
    JSON throws, and the field is [None] when the body has none. *)
Record Response := {
  ok : bool;
  body : option (option string)
}.

(** What happens to the transaction an API hands back: decoding and
    signing it, sending it, confirming it; each may throw. *)
Record Submission := {
  decodes : bool;
  sends : bool;
  confirms : bool
}.

(** What the outside answers to a swap; [None] for a [fetch] that
    throws. *)
Record Env := {
  quote : Venue -> option Response;
  swap : Venue -> option Response;
  submission : Venue -> Submission
}.

Inductive Effect :=
| AskedQuote (venue : Venue) (amount : option Z)
| AskedSwap (venue : Venue)
| SentTransaction (venue : Venue).

(** A field that is there and not empty. *)
Definition present (field : option string) : bool :=
  match field with
  | Some (String _ _) => true
  | _ => false
  end.

(** [Math.floor(oreAmount * 1e11)] *)
Definition amountLamports (oreAmount : float) : option Z :=
  JS.Math_floor (oreAmount * 1e11).

(** From the decoding of the transaction on, the same in both functions:
    the effects, and whether the end is reached (a throw otherwise). *)
Definition submit (env : Env) (venue : Venue) : list Effect * bool :=
  let s := submission env venue in
  if negb (decodes s) then ([], false)
  else if negb (sends s) then ([], false)
  else ([SentTransaction venue], confirms s).

(** [swapOreToSolJupiter(oreAmount)]: the venue whose signature is
    returned ([None] for [null]), and the effects.  Every throw is caught
    and gives [null]. *)
Definition swapOreToSolJupiter (dryRun : bool) (env : Env) (oreAmount : float)
    : option Venue * list Effect :=
  let asked := [AskedQuote JupiterApi (amountLamports oreAmount)] in
  match quote env JupiterApi with
  | None => (None, asked)
  | Some quoteRes =>
    if negb (ok quoteRes) then (None, asked)
    else
      match body quoteRes with
      | None => (None, asked)
      | Some outAmount =>
        if negb (present outAmount) then (None, asked)
        else if dryRun then (None, asked)
        else
          let asked := asked ++ [AskedSwap JupiterApi] in
          match swap env JupiterApi with
          | None => (None, asked)
          | Some swapRes =>
            if negb (ok swapRes) then (None, asked)
            else
              match body swapRes with
              | None => (None, asked)
              | Some swapTransaction =>
                if negb (present swapTransaction) then (None, asked)
                else
                  let '(sent, done) := submit env JupiterApi in
                  (if done then Some JupiterApi else None, asked ++ sent)
              end
          end
      end
  end.

(** The [try] of [swapOreToSol]: its result, [None] when it throws. *)
Definition viaDFlow (dryRun : bool) (env : Env) (oreAmount : float)
    : option (option Venue) * list Effect :=
  let asked := [AskedQuote DFlowApi (amountLamports oreAmount)] in
  match quote env DFlowApi with
  | None => (None, asked)
  | Some quoteRes =>
    match body quoteRes with
    | None => (None, asked)
    | Some outAmount =>
      if negb (present outAmount) then (None, asked)
      else if dryRun then (Some None, asked)
      else
        let asked := asked ++ [AskedSwap DFlowApi] in
        match swap env DFlowApi with
        | None => (None, asked)
        | Some swapRes =>
          match body swapRes with
          | None => (None, asked)
          | Some swapTransaction =>
            if negb (present swapTransaction) then (None, asked)
            else
              let '(sent, done) := submit env DFlowApi in
              (if done then Some (Some DFlowApi) else None, asked ++ sent)
          end
        end
    end
  end.

(** [swapOreToSol(oreAmount)]: a throw of the [try] falls back to
    Jupiter. *)
Definition swapOreToSol (dryRun : bool) (env : Env) (oreAmount : float)
    : option Venue * list Effect :=
  match viaDFlow dryRun env oreAmount with
  | (Some result, effects) => (result, effects)
  | (None, effects) =>
    let '(result, more) := swapOreToSolJupiter dryRun env oreAmount in
    (result, effects ++ more)
  end.

(** The venues a transaction was sent through, in order. *)
Definition sentThrough (effects : list Effect) : list Venue :=
  flat_map (fun e => match e with SentTransaction v => [v] | _ => [] end) effects.

(** The amounts the quotes were asked for, in order. *)
Definition quotedAmounts (effects : list Effect) : list (option Z) :=
  flat_map (fun e => match e with AskedQuote _ a => [a] | _ => [] end) effects.

End DFlow.

(* ------------------------------------------------------------------ *)
(** ** Deploying and claiming (the bot's entry file) *)
(* ------------------------------------------------------------------ *)

Module Actions.
Import Accounts Outcome Solana Instructions.
Local Open Scope float_scope.

(** What goes out: a transaction handed to [sendAndConfirm] ([ok] tells
    whether the call went through), a call of [swapOreToSol] with what it
    does. *)
Inductive Effect :=
| Submitted (tx : Transaction) (ok : bool)
| SwapOreToSol (oreAmount : float) (swap : list DFlow.Effect).

(** The transactions handed to [sendAndConfirm], in order. *)
Definition submitted (effects : list Effect) : list Transaction :=
  flat_map (fun e => match e with Submitted tx _ => [tx] | _ => [] end) effects.

(** *** [deploy] *)

(** What the outside answers during [deploy]: the first [fetchMiner()],
    the one inside [needsCheckpoint()], the [fetchBoard()] inside
    [buildDeployInstruction], and whether [sendAndConfirm] goes through. *)
Record DeployEnv := {
  miner : Outcome.t (option Miner.t);
  minerAgain : Outcome.t (option Miner.t);
  board : Outcome.t Board;
  send : bool
}.

(** The instructions [deploy] collects. *)
Definition deployInstructions (env : DeployEnv) (betPerSquare : float)
    : Outcome.t (list TransactionInstruction) :=
  let* miner := miner env in
  let* checkpoint :=
    match miner with
    | None => Returned []
    | Some miner =>
      let* needs := needsCheckpoint (minerAgain env) in
      if needs then
        let minerRoundId := Num.toInteger (JS.Number_of_bigint (Miner.roundId miner)) in
        let* ix := buildCheckpointInstruction minerRoundId in
        Returned [ix]
      else Returned []
    end in
  let* deployIx := buildDeployInstruction (board env) betPerSquare in
  Returned (checkpoint ++ [deployIx]).

(** [deploy(betPerSquare)]: what it returns, what goes out, and the
    counter [deployedRounds] after it. *)
Definition deploy (settings : Settings.t) (env : DeployEnv) (deployedRounds : Z)
    (betPerSquare : float) : bool * list Effect * Z :=
  if Settings.dryRun settings then (true, [], deployedRounds)
  else
    match deployInstructions env betPerSquare with
    | Thrown _ => (false, [], deployedRounds)
    | Returned instructions =>
      let description :=
        if (length instructions =? 2)%nat then "Checkpoint + Deploy"%string
        else "Deploy"%string in
      let tx := transactionOf instructions description in
      if send env then (true, [Submitted tx true], (deployedRounds + 1)%Z)
      else (false, [Submitted tx false], deployedRounds)
    end.

(** *** The snipe window of [main] (lines 817-879) *)

(** What the outside answers in the snipe window: [fetchRound], the
    tracker's data, [fetchAutomation()], whether closing the automation
    goes through, and the answers to [deploy]. *)
Record SnipeEnv := {
  round : Outcome.t Round;
  store : BetTracker.BetData;
  automation : Outcome.t (option Automation.t);
  closeSend : bool;
  deployEnv : DeployEnv
}.

(** The branch: [Thrown] when [fetchAutomation()] throws, which leaves
    [hasDeployedThisRound] as it is; otherwise what goes out and what
    [deploy] returned. *)
Definition snipe (cfg : Config.t) (settings : Settings.t) (env : SnipeEnv)
    (deployedRounds : Z) : Outcome.t (bool * list Effect * Z) :=
  let round := match round env with Returned r => Some r | Thrown _ => None end in
  let betPerSquare := Estimator.betPerSquare cfg (store env) round in
  let* automation := automation env in
  let closing :=
    match automation with
    | Some _ =>
      match buildCloseAutomationInstruction with
      | Returned ix => [Submitted (transactionOf [ix] "Close Automation") (closeSend env)]
      | Thrown _ => []
      end
    | None => []
    end in
  let '(deployed, effects, deployedRounds) :=
    deploy settings (deployEnv env) deployedRounds betPerSquare in
  Returned (deployed, closing ++ effects, deployedRounds).

(** *** [claimRewards] *)

(** What the outside answers during [claimRewards]: [fetchMiner()],
    whether [sendAndConfirm] goes through, the amount of the wallet's ORE
    token account ([Thrown] when reading it throws), and the answers to
    the swap. *)
Record ClaimEnv := {
  claimMiner : Outcome.t (option Miner.t);
  claimSend : bool;
  walletOre : Outcome.t Z;
  swapEnv : DFlow.Env
}.

(** The description of the claim transaction. *)
Definition claimDescription (instructions : list TransactionInstruction)
    (claimableSol : float) : string :=
  ("Claim " ++
   (if (length instructions =? 2)%nat then "SOL + ORE"
    else if (length instructions =? 1)%nat && JS.gtb claimableSol 0 then "SOL"
    else "ORE"))%string.

(** [claimRewards()]: what goes out.  Every throw is caught. *)
Definition claimRewards (settings : Settings.t) (env : ClaimEnv) : list Effect :=
  match claimMiner env with
  | Thrown _ => []
  | Returned None => []
  | Returned (Some miner) =>
    let claimableSol := JS.Number_of_bigint (Miner.rewardsSol miner) / 1e9 in
    let claimableOre := JS.Number_of_bigint (Miner.rewardsOre miner) / 1e11 in
    let instructions :=
      (if Num.geb claimableSol (Settings.minClaimableSol settings)
       then [buildClaimSolInstruction] else [])
      ++ (if Num.geb claimableOre (Settings.minClaimableOre settings)
          then [buildClaimOreInstruction] else []) in
    match instructions with
    | [] => []
    | _ =>
      if Settings.dryRun settings then []
      else
        let tx := transactionOf instructions (claimDescription instructions claimableSol) in
        if claimSend env then
          Submitted tx true ::
          (if Settings.autoSwapOre settings && JS.gtb claimableOre 0 then
             match walletOre env with
             | Thrown _ => []
             | Returned amount =>
               let totalOreBalance := JS.Number_of_bigint amount / 1e11 in
               if Num.geb totalOreBalance (Settings.minOreForSwap settings)
               then [SwapOreToSol totalOreBalance
                       (snd (DFlow.swapOreToSol (Settings.dryRun settings)
                               (swapEnv env) totalOreBalance))]
               else []
             end
           else [])
        else [Submitted tx false]
    end
  end.

End Actions.

(* ------------------------------------------------------------------ *)
(** ** The tracker's other functions ([betTracker.ts]) *)
(* ------------------------------------------------------------------ *)

Module Tracker.
Import Accounts BetTracker Solana.
Local Open Scope float_scope.

(** [getMaxBetForSquare(squareIndex)], for an integer index; [None] is
    [undefined]. *)
Definition getMaxBetForSquare (squareIndex : Z) (bd : BetData) : option float :=
  if (squareIndex <? 0)%Z || (squareIndex >=? 25)%Z then Some 0
  else maxBetPerSquare bd !! Z.to_nat squareIndex.

(** Whether a call of [startBetTracking] goes past the test of the
    subscription, to subscribe, fetch the baseline and start the timer. *)
Definition subscribes (st : State) : bool :=
  match subscriptionId st with
  | Some _ => false
  | None => true
  end.

(** An instruction of a parsed transaction: one the node has parsed, which
    has no [data], or one it has not; [ours] tells whether its program is
    [config.programId], and [data] is [None] when decoding the text of the
    data throws. *)
Inductive ParsedInstruction :=
| Parsed
| PartiallyDecoded (ours : bool) (data : option Buffer.t) (accounts : list PublicKey).

(** The loop of [fetchBettorAddress]: the address it caches, if any.  A
    throw ends the function, as its [catch] is empty. *)
Fixpoint bettorOf (instructions : list ParsedInstruction) : option PublicKey :=
  match instructions with
  | [] => None
  | Parsed :: rest => bettorOf rest
  | PartiallyDecoded ours data accounts :: rest =>
    if negb ours then bettorOf rest
    else
      match data with
      | None => None
      | Some data =>
        if (13 <=? length data)%nat
           && match Buffer.readUInt8 data 0 with Some b => (b =? 0x1c)%Z | None => false end
        then
          let isAutomated := (7 <=? length accounts)%nat in
          if isAutomated then accounts !! 1%nat else accounts !! 0%nat
        else bettorOf rest
      end
  end.

(** [fetchBettorAddress(signature)]: [tx] is what [getParsedTransaction]
    gave, [None] when it threw or gave no transaction. *)
Definition fetchBettorAddress (tx : option (list ParsedInstruction)) : option PublicKey :=
  match tx with
  | None => None
  | Some instructions => bettorOf instructions
  end.

(** A transaction of the bot as the node hands it back: the instructions
    of the compute budget program are not of [config.programId]; the
    others come back with their data and accounts. *)
Definition asParsed (tx : Instructions.Transaction) : list ParsedInstruction :=
  map (fun item =>
         match item with
         | Instruction ix =>
           PartiallyDecoded
             (match programId ix with Program => true | _ => false end)
             (Some (data ix)) (map pubkey (keys ix))
         | _ => PartiallyDecoded false None []
         end)
      (Instructions.items tx).

End Tracker.

(* ------------------------------------------------------------------ *)
(** ** More concrete inputs *)
(* ------------------------------------------------------------------ *)

Module Cases.
Import Accounts Outcome.
Local Open Scope float_scope.

(** A board account: the discriminator, then round 10947 from slot 1000 to
    slot 1150. *)
Definition boardData : Buffer.t :=
  Buffer.alloc 8 ++ Buffer.bytesOf 8 10947 ++ Buffer.bytesOf 8 1000
  ++ Buffer.bytesOf 8 1150.

Definition board10947 : Board :=
  {| roundId := 10947; startSlot := 1000; endSlot := 1150 |}.

(** A miner with 0.0005 SOL and 1 ORE to claim, whose round 10947 is not
    checkpointed. *)
Definition minerDue : Miner.t :=
  {| Miner.rewardsSol := 500000;
     Miner.rewardsOre := 100000000000;
     Miner.checkpointId := 10946;
     Miner.roundId := 10947 |}.

(** A miner with 0.002 SOL and 0.1 ORE to claim. *)
Definition minerSol : Miner.t :=
  {| Miner.rewardsSol := 2000000;
     Miner.rewardsOre := 10000000000;
     Miner.checkpointId := 10947;
     Miner.roundId := 10947 |}.

(** The default settings, and the same in dry-run mode. *)
Definition live : Settings.t :=
  {| Settings.dryRun := false;
     Settings.claimEveryRound := true;
     Settings.minClaimableSol := 0.001;
     Settings.minClaimableOre := 0.5;
     Settings.autoSwapOre := true;
     Settings.minOreForSwap := 0.5 |}.

Definition dry : Settings.t :=
  {| Settings.dryRun := true;
     Settings.claimEveryRound := true;
     Settings.minClaimableSol := 0.001;
     Settings.minClaimableOre := 0.5;
     Settings.autoSwapOre := true;
     Settings.minOreForSwap := 0.5 |}.

(** The default configuration with a buffer that is NaN. *)
Definition nanBuffer : Config.t :=
  {| Config.bettingStrategy := "max";
     Config.bufferPercent := nan;
     Config.maxBetPerSquare := 0.01;
     Config.minBetPerSquare := 0.0001;
     Config.snipeWindowSeconds := 10;
     Config.minWalletBalance := 0.1 |}.

(** A deploy without a miner account that goes through. *)
Definition firstDeploy : Actions.DeployEnv :=
  {| Actions.miner := Returned None;
     Actions.minerAgain := Returned None;
     Actions.board := Returned board10947;
     Actions.send := true |}.

(** What [deploy] sends then. *)
Definition sentDeploy : Actions.Effect :=
  match snd (fst (Actions.deploy live firstDeploy 0 0.0001)) with
  | e :: _ => e
  | [] => Actions.SwapOreToSol 0 []
  end.

(** A snipe window with an automation account. *)
Definition withAutomation : Actions.SnipeEnv :=
  {| Actions.round := Thrown (NotFound "Round");
     Actions.store := BetTracker.freshBetData;
     Actions.automation :=
       Returned (Some {| Automation.amountPerSquare := 100000;
                         Automation.balance := 2500000;
                         Automation.mask := 25 |});
     Actions.closeSend := true;
     Actions.deployEnv := firstDeploy |}.

(** Both venues answer; confirming the transaction of DFlow throws. *)
Definition unconfirmed : DFlow.Env :=
  {| DFlow.quote := fun _ => Some {| DFlow.ok := true; DFlow.body := Some (Some "1000000"%string) |};
     DFlow.swap := fun _ => Some {| DFlow.ok := true; DFlow.body := Some (Some "AQID"%string) |};
     DFlow.submission := fun venue =>
       match venue with
       | DFlow.DFlowApi =>
         {| DFlow.decodes := true; DFlow.sends := true; DFlow.confirms := false |}
       | DFlow.JupiterApi =>
         {| DFlow.decodes := true; DFlow.sends := true; DFlow.confirms := true |}
       end |}.

(** A claim for [minerDue], and one for [minerSol] with 3 ORE in the
    wallet. *)
Definition claimDue : Actions.ClaimEnv :=
  {| Actions.claimMiner := Returned (Some minerDue);
     Actions.claimSend := true;
     Actions.walletOre := Thrown (Failure "no token account");
     Actions.swapEnv := unconfirmed |}.

Definition claimSol : Actions.ClaimEnv :=
  {| Actions.claimMiner := Returned (Some minerSol);
     Actions.claimSend := true;
     Actions.walletOre := Returned 300000000000%Z;
     Actions.swapEnv := unconfirmed |}.

(** Iterations in round 5: before the round has started, at its end slot,
    20 slots before its end with a balance of 0.05 SOL, and 20 slots before
    its end when the new-round block throws. *)
Definition notStarted : Bot.Tick :=
  {| Bot.chain := Some ({| roundId := 5; startSlot := 18446744073709551615;
                           endSlot := 18446744073709551615 |}, 1000%Z);
     Bot.newRound := Bot.BlockDone 1;
     Bot.store := BetTracker.freshBetData;
     Bot.round := None;
     Bot.automationThrows := false;
     Bot.deployResult := true |}.

Definition atEnd : Bot.Tick :=
  {| Bot.chain := Some ({| roundId := 5; startSlot := 870; endSlot := 1020 |}, 1020%Z);
     Bot.newRound := Bot.BlockDone 1;
     Bot.store := BetTracker.freshBetData;
     Bot.round := None;
     Bot.automationThrows := false;
     Bot.deployResult := true |}.

Definition lowBalance : Bot.Tick :=
  {| Bot.chain := Some ({| roundId := 5; startSlot := 870; endSlot := 1020 |}, 1000%Z);
     Bot.newRound := Bot.BlockDone 0.05;
     Bot.store := BetTracker.freshBetData;
     Bot.round := None;
     Bot.automationThrows := false;
     Bot.deployResult := true |}.

Definition blockThrows : Bot.Tick :=
  {| Bot.chain := Some ({| roundId := 5; startSlot := 870; endSlot := 1020 |}, 1000%Z);
     Bot.newRound := Bot.BlockThrows;
     Bot.store := BetTracker.freshBetData;
     Bot.round := None;
     Bot.automationThrows := false;
     Bot.deployResult := true |}.

(** The log line the handler's comment gives as the format. *)
Definition documentedLog : string :=
  "Program log: Round #10947: deploying 0.12834 SOL to 25 squares".

End Cases.
(* ================================================================== *)
(** * Proofs *)
(* ================================================================== *)

(** ** The order of binary64 values *)

Section SpecOrder.

Ltac compare_cases :=
  repeat match goal with
  | H : context [Pos.compare_cont Eq ?a ?b] |- _ =>
      change (Pos.compare_cont Eq a b) with (Pos.compare a b) in H
  | |- context [Pos.compare_cont Eq ?a ?b] =>
      change (Pos.compare_cont Eq a b) with (Pos.compare a b)
  | H : context [Z.compare ?a ?b] |- _ => destruct (Z.compare_spec a b)
  | |- context [Z.compare ?a ?b] => destruct (Z.compare_spec a b)
  | H : context [Pos.compare ?a ?b] |- _ => destruct (Pos.compare_spec a b)
  | |- context [Pos.compare ?a ?b] => destruct (Pos.compare_spec a b)
  end; simpl in *; subst; try discriminate; try reflexivity; try lia.

Ltac by_cases_on x :=
  destruct x as [[|]|[|]| |[|] ? ?]; simpl in *; try discriminate; try reflexivity.

Lemma SFltb_trans a b c :
  SFltb a b = true -> SFltb b c = true -> SFltb a c = true.
Proof.
  unfold SFltb, SFcompare.
  by_cases_on a; by_cases_on b; by_cases_on c; intros; compare_cases.
Qed.

Lemma SFleb_trans a b c :
  SFleb a b = true -> SFleb b c = true -> SFleb a c = true.
Proof.
  unfold SFleb, SFcompare.
  by_cases_on a; by_cases_on b; by_cases_on c; intros; compare_cases.
Qed.

Lemma SFltb_leb a b : SFltb a b = true -> SFleb a b = true.
Proof.
  unfold SFltb, SFleb. destruct (SFcompare a b) as [[| |]|]; congruence.
Qed.

Lemma SFltb_false_leb a b :
  a <> S754_nan -> b <> S754_nan -> SFltb a b = false -> SFleb b a = true.
Proof.
  unfold SFltb, SFleb, SFcompare.
  by_cases_on a; by_cases_on b; intros; try congruence; compare_cases.
Qed.

Lemma SFleb_antisym a b :
  SFltb (S754_zero false) a = true ->
  SFleb a b = true -> SFleb b a = true -> a = b.
Proof.
  unfold SFltb, SFleb, SFcompare.
  by_cases_on a; by_cases_on b; intros; compare_cases.
Qed.

Lemma SFleb_ltb_false a b : SFleb a b = true -> SFltb b a = false.
Proof.
  unfold SFltb, SFleb, SFcompare.
  by_cases_on a; by_cases_on b; intros; compare_cases.
Qed.

Lemma SFltb_leb_trans a b c :
  SFltb a b = true -> SFleb b c = true -> SFltb a c = true.
Proof.
  unfold SFltb, SFleb, SFcompare.
  by_cases_on a; by_cases_on b; by_cases_on c; intros; compare_cases.
Qed.

Lemma SFltb_eqb_false a b : SFltb a b = true -> SFeqb b a = false.
Proof.
  unfold SFltb, SFeqb, SFcompare.
  by_cases_on a; by_cases_on b; intros; compare_cases.
Qed.

Lemma SFltb_irrefl a : SFltb a a = false.
Proof.
  unfold SFltb, SFcompare. by_cases_on a; compare_cases.
Qed.

Lemma SFcompare_refl a : a <> S754_nan -> SFcompare a a = Some Eq.
Proof.
  unfold SFcompare. by_cases_on a; intros; try congruence; compare_cases.
Qed.

Lemma SFeqb_refl_of a : a <> S754_nan -> SFeqb a a = true.
Proof. intros H. unfold SFeqb. rewrite (SFcompare_refl a H). reflexivity. Qed.

End SpecOrder.

(** ** Rounding: the sign of a difference *)

Section Rounding.
Import Binary64.
Local Open Scope Z_scope.


Lemma digits2_pos_bounds (m : positive) :
  2 ^ (Zpos (digits2_pos m) - 1) <= Zpos m < 2 ^ Zpos (digits2_pos m).
Proof.
  induction m as [m IH|m IH|]; simpl digits2_pos.
  - rewrite Pos2Z.inj_succ. change (Zpos m~1) with (2 * Zpos m + 1).
    replace (Z.succ (Zpos (digits2_pos m)) - 1) with (Z.succ (Zpos (digits2_pos m) - 1)) by lia.
    rewrite !Z.pow_succ_r by lia.
    set (a := 2 ^ (Zpos (digits2_pos m) - 1)) in *.
    set (b := 2 ^ Zpos (digits2_pos m)) in *. clearbody a b. lia.
  - rewrite Pos2Z.inj_succ. change (Zpos m~0) with (2 * Zpos m).
    replace (Z.succ (Zpos (digits2_pos m)) - 1) with (Z.succ (Zpos (digits2_pos m) - 1)) by lia.
    rewrite !Z.pow_succ_r by lia.
    set (a := 2 ^ (Zpos (digits2_pos m) - 1)) in *.
    set (b := 2 ^ Zpos (digits2_pos m)) in *. clearbody a b. lia.
  - simpl. lia.
Qed.

Lemma shr_1_m (mrs : shr_record) :
  0 <= shr_m mrs -> shr_m (shr_1 mrs) = shr_m mrs / 2.
Proof.
  destruct mrs as [m r s]; simpl. intros Hm.
  destruct m as [|[p|p|]|p]; simpl; try lia.
  - reflexivity.
  - change (Zpos p~1) with (2 * Zpos p + 1). apply Z.div_unique with 1; lia.
  - change (Zpos p~0) with (2 * Zpos p). apply Z.div_unique with 0; lia.
  - reflexivity.
Qed.

Lemma iter_shr_1_m (p : positive) : forall mrs : shr_record,
  0 <= shr_m mrs ->
  shr_m (SpecFloat.iter_pos shr_1 p mrs) = shr_m mrs / 2 ^ Zpos p.
Proof.
  induction p as [p IH|p IH|]; intros mrs Hm; simpl SpecFloat.iter_pos.
  - pose proof (Z.pow_pos_nonneg 2 (Zpos p) ltac:(lia) ltac:(lia)) as Hp.
    assert (H1 : 0 <= shr_m (shr_1 mrs)) by (rewrite shr_1_m by lia; apply Z.div_pos; lia).
    assert (H2 : 0 <= shr_m (SpecFloat.iter_pos shr_1 p (shr_1 mrs)))
      by (rewrite IH by lia; apply Z.div_pos; lia).
    rewrite IH, IH, shr_1_m by lia.
    rewrite !Z.div_div by lia.
    f_equal. change (Zpos p~1) with (2 * Zpos p + 1).
    replace (2 * Zpos p + 1) with (1 + Zpos p + Zpos p) by lia.
    rewrite !Z.pow_add_r by lia. change (2 ^ 1) with 2. ring.
  - pose proof (Z.pow_pos_nonneg 2 (Zpos p) ltac:(lia) ltac:(lia)) as Hp.
    assert (H2 : 0 <= shr_m (SpecFloat.iter_pos shr_1 p mrs))
      by (rewrite IH by lia; apply Z.div_pos; lia).
    rewrite IH, IH by lia.
    rewrite !Z.div_div by lia.
    f_equal. change (Zpos p~0) with (2 * Zpos p).
    replace (2 * Zpos p) with (Zpos p + Zpos p) by lia.
    rewrite !Z.pow_add_r by lia. ring.
  - rewrite shr_1_m by lia. reflexivity.
Qed.

Lemma shr_record_of_loc_m m l : shr_m (shr_record_of_loc m l) = m.
Proof. destruct l as [|[| |]]; reflexivity. Qed.

(** A shift by [fexp] keeps a positive mantissa positive when the exponent
    is at least [emin]. *)
Lemma shr_fexp_pos m e l :
  0 < m -> emin64 <= e ->
  0 < shr_m (fst (shr_fexp prec emax m e l)) /\ e <= snd (shr_fexp prec emax m e l).
Proof.
  intros Hm He. unfold shr_fexp, shr.
  destruct m as [|m|m]; try lia. simpl Zdigits2.
  pose proof (digits2_pos_bounds m) as [Hlo _].
  set (d := Zpos (digits2_pos m)) in *.
  assert (Hd : 0 < d) by (unfold d; lia).
  destruct (fexp prec emax (d + e) - e) as [|n|n] eqn:En; simpl fst; simpl snd.
  - rewrite shr_record_of_loc_m. lia.
  - rewrite iter_shr_1_m by (rewrite shr_record_of_loc_m; lia).
    rewrite shr_record_of_loc_m. split; [|lia].
    apply Z.div_str_pos. split; [apply Z.pow_pos_nonneg; lia|].
    assert (Zpos n <= d - 1).
    { unfold fexp, emin64, SpecFloat.emin in *. change prec with 53 in *. change emax with 1024 in *. lia. }
    transitivity (2 ^ (d - 1)); [apply Z.pow_le_mono_r; lia | exact Hlo].
  - rewrite shr_record_of_loc_m. lia.
Qed.

Lemma round_nearest_even_ge m l : m <= round_nearest_even m l.
Proof. destruct l as [|[| |]]; simpl; try lia. destruct (Z.even m); lia. Qed.

Lemma binary_round_aux_signed s m e l :
  0 < m -> emin64 <= e -> signed s (binary_round_aux prec emax s m e l).
Proof.
  intros Hm He. unfold binary_round_aux.
  pose proof (shr_fexp_pos m e l Hm He) as [H1 H1e].
  destruct (shr_fexp prec emax m e l) as [mrs' e'] eqn:E1. simpl in H1, H1e.
  pose proof (round_nearest_even_ge (shr_m mrs') (loc_of_shr_record mrs')) as Hr.
  set (m1 := round_nearest_even (shr_m mrs') (loc_of_shr_record mrs')) in *.
  assert (Hm1 : 0 < m1) by lia.
  assert (He' : emin64 <= e') by lia.
  pose proof (shr_fexp_pos m1 e' loc_Exact Hm1 He') as [H2 _].
  destruct (shr_fexp prec emax m1 e' loc_Exact) as [mrs'' e''] eqn:E2. simpl in H2.
  destruct (shr_m mrs'') as [|m2|m2]; try lia.
  destruct (e'' <=? emax - prec); reflexivity.
Qed.

Lemma shl_align_exp m e e' : emin64 <= e -> emin64 <= e' -> emin64 <= snd (shl_align m e e').
Proof. intros. unfold shl_align. destruct (e' - e); simpl; lia. Qed.

Lemma binary_round_signed s m e :
  emin64 <= e -> signed s (binary_round prec emax s m e).
Proof.
  intros He. unfold binary_round.
  pose proof (shl_align_exp m e (fexp prec emax (Zpos (digits2_pos m) + e)) He) as H.
  destruct (shl_align m e (fexp prec emax (Zpos (digits2_pos m) + e))) as [mz ez].
  apply binary_round_aux_signed; [lia|].
  apply H. unfold fexp, emin64. lia.
Qed.

Lemma iter_xO m (d : positive) : Zpos (Pos.iter xO m d) = Zpos m * 2 ^ Zpos d.
Proof.
  induction d as [|d IH] using Pos.peano_ind.
  - simpl. lia.
  - rewrite Pos.iter_succ, Pos2Z.inj_succ, Z.pow_succ_r by lia.
    change (Zpos (Pos.iter xO m d)~0) with (2 * Zpos (Pos.iter xO m d)).
    rewrite IH. ring.
Qed.

Lemma shl_align_value m e e' :
  e' <= e -> Zpos (fst (shl_align m e e')) = Zpos m * 2 ^ (e - e').
Proof.
  intros H. unfold shl_align. destruct (e' - e) as [|d|d] eqn:E; simpl fst.
  - replace (e - e') with 0 by lia. lia.
  - lia.
  - rewrite iter_xO. f_equal. f_equal. lia.
Qed.

Lemma bounded_exp m e : bounded prec emax m e = true -> emin64 <= e.
Proof.
  unfold bounded, canonical_mantissa, fexp, emin64. intros H.
  apply andb_prop in H as [H _]. apply Z.eqb_eq in H. lia.
Qed.

(** A canonical mantissa has at most [prec] digits, and exactly [prec] of
    them above the lowest exponent. *)
Lemma bounded_digits m e :
  bounded prec emax m e = true ->
  Zpos (digits2_pos m) <= 53 /\ (emin64 < e -> Zpos (digits2_pos m) = 53).
Proof.
  unfold bounded, canonical_mantissa, fexp, emin64, SpecFloat.emin.
  change prec with 53. change emax with 1024. intros H.
  apply andb_prop in H as [H _]. apply Z.eqb_eq in H. lia.
Qed.

(** With a larger exponent comes a larger value. *)
Lemma bounded_exp_lt m1 e1 m2 e2 :
  bounded prec emax m1 e1 = true -> bounded prec emax m2 e2 = true ->
  e1 < e2 -> Zpos m1 < Zpos m2 * 2 ^ (e2 - e1).
Proof.
  intros B1 B2 Hlt.
  pose proof (bounded_exp _ _ B1) as E1.
  pose proof (bounded_digits _ _ B1) as [D1 _].
  pose proof (bounded_digits _ _ B2) as [_ D2].
  specialize (D2 ltac:(lia)).
  pose proof (digits2_pos_bounds m1) as [_ U1].
  pose proof (digits2_pos_bounds m2) as [L2 _].
  rewrite D2 in L2.
  assert (Zpos m1 < 2 ^ 53).
  { eapply Z.lt_le_trans; [exact U1|]. apply Z.pow_le_mono_r; lia. }
  assert (2 ^ 1 <= 2 ^ (e2 - e1)) by (apply Z.pow_le_mono_r; lia).
  change (2 ^ 1) with 2 in *. change (2 ^ (53 - 1)) with 4503599627370496 in L2.
  change (2 ^ 53) with 9007199254740992 in *. nia.
Qed.

Lemma binary_normalize_sign M e :
  emin64 <= e ->
  SFltb (S754_zero false) (binary_normalize prec emax M e false) = (0 <? M).
Proof.
  intros He. destruct M as [|p|p]; unfold binary_normalize.
  - reflexivity.
  - pose proof (binary_round_signed false p e He) as H.
    destruct (binary_round prec emax false p e) as [| [|] | | [|] ? ?];
      simpl in H; try contradiction; try discriminate; reflexivity.
  - pose proof (binary_round_signed true p e He) as H.
    destruct (binary_round prec emax true p e) as [| [|] | | [|] ? ?];
      simpl in H; try contradiction; try discriminate; reflexivity.
Qed.

(** The sign of a difference of two positive finite values is the way they
    compare. *)
Lemma SFsub_sign mx ex mh eh :
  bounded prec emax mx ex = true -> bounded prec emax mh eh = true ->
  SFltb (S754_zero false) (SF64sub (S754_finite false mx ex) (S754_finite false mh eh))
  = SFltb (S754_finite false mh eh) (S754_finite false mx ex).
Proof.
  intros Bx Bh.
  pose proof (bounded_exp _ _ Bx) as Ex. pose proof (bounded_exp _ _ Bh) as Eh.
  unfold SF64sub, SFsub. cbv zeta. unfold cond_Zopp.
  set (ez := Z.min ex eh).
  assert (Hez : emin64 <= ez) by (unfold ez; lia).
  rewrite binary_normalize_sign by exact Hez.
  rewrite (shl_align_value mx ex ez), (shl_align_value mh eh ez) by (unfold ez; lia).
  unfold SFltb, SFcompare.
  change (Pos.compare_cont Eq mh mx) with (Pos.compare mh mx).
  unfold ez. destruct (Z.compare_spec eh ex) as [E|E|E].
  - subst. rewrite Z.min_id, Z.sub_diag. change (2 ^ 0) with 1.
    destruct (Pos.compare_spec mh mx); lia.
  - rewrite Z.min_r by lia. rewrite Z.sub_diag. change (2 ^ 0) with 1.
    pose proof (bounded_exp_lt _ _ _ _ Bh Bx E). lia.
  - rewrite Z.min_l by lia. rewrite Z.sub_diag. change (2 ^ 0) with 1.
    pose proof (bounded_exp_lt _ _ _ _ Bx Bh E). lia.
Qed.

End Rounding.

(** ** Facts on JavaScript numbers *)

Section Numbers.
Local Open Scope float_scope.

Lemma Prim2SF_zero : Prim2SF 0 = S754_zero false.
Proof. reflexivity. Qed.

Lemma flt_trans x y z : (x <? y) = true -> (y <? z) = true -> (x <? z) = true.
Proof. rewrite !FloatAxioms.ltb_spec. apply SFltb_trans. Qed.

Lemma fle_trans x y z : (x <=? y) = true -> (y <=? z) = true -> (x <=? z) = true.
Proof. rewrite !FloatAxioms.leb_spec. apply SFleb_trans. Qed.

Lemma flt_le x y : (x <? y) = true -> (x <=? y) = true.
Proof. rewrite FloatAxioms.ltb_spec, FloatAxioms.leb_spec. apply SFltb_leb. Qed.

Lemma flt_le_trans x y z : (x <? y) = true -> (y <=? z) = true -> (x <? z) = true.
Proof. rewrite !FloatAxioms.ltb_spec, FloatAxioms.leb_spec. apply SFltb_leb_trans. Qed.

Lemma flt_eq_false x y : (x <? y) = true -> (y =? x) = false.
Proof. rewrite FloatAxioms.ltb_spec, FloatAxioms.eqb_spec. apply SFltb_eqb_false. Qed.

Lemma flt_irrefl x : (x <? x) = false.
Proof. rewrite FloatAxioms.ltb_spec. apply SFltb_irrefl. Qed.

Lemma isNaN_true x : JS.isNaN x = true -> x = nan.
Proof.
  unfold JS.isNaN, is_nan. rewrite FloatAxioms.eqb_spec. intros H.
  apply Prim2SF_inj. change (Prim2SF nan) with S754_nan.
  destruct (Prim2SF x) as [[|]|[|]| |[|] m e] eqn:E; try reflexivity;
    rewrite SFeqb_refl_of in H by discriminate; discriminate.
Qed.

Lemma flt_nan_l y : (nan <? y) = false.
Proof. rewrite FloatAxioms.ltb_spec. reflexivity. Qed.

Lemma flt_nan_r x : (x <? nan) = false.
Proof.
  rewrite FloatAxioms.ltb_spec. change (Prim2SF nan) with S754_nan.
  unfold SFltb, SFcompare. destruct (Prim2SF x); reflexivity.
Qed.

Lemma isNaN_false x : JS.isNaN x = false <-> Prim2SF x <> S754_nan.
Proof.
  unfold JS.isNaN, is_nan. rewrite FloatAxioms.eqb_spec. unfold SFeqb.
  split.
  - intros H E. rewrite E in H. discriminate.
  - intros H. rewrite (SFcompare_refl _ H). reflexivity.
Qed.

Lemma flt_not_nan_l x y : (x <? y) = true -> JS.isNaN x = false.
Proof.
  rewrite FloatAxioms.ltb_spec, isNaN_false. unfold SFltb, SFcompare.
  destruct (Prim2SF x); intros; congruence.
Qed.

Lemma flt_not_nan_r x y : (x <? y) = true -> JS.isNaN y = false.
Proof.
  rewrite FloatAxioms.ltb_spec, isNaN_false. unfold SFltb, SFcompare.
  destruct (Prim2SF x), (Prim2SF y); intros; congruence.
Qed.

Lemma fle_not_nan_r x y : (x <=? y) = true -> JS.isNaN y = false.
Proof.
  rewrite FloatAxioms.leb_spec, isNaN_false. unfold SFleb, SFcompare.
  destruct (Prim2SF x), (Prim2SF y); intros; congruence.
Qed.

Lemma fle_refl x : JS.isNaN x = false -> (x <=? x) = true.
Proof.
  rewrite isNaN_false, FloatAxioms.leb_spec. unfold SFleb.
  intros H. rewrite (SFcompare_refl _ H). reflexivity.
Qed.

Lemma flt_false_le x y :
  JS.isNaN x = false -> JS.isNaN y = false -> (x <? y) = false -> (y <=? x) = true.
Proof.
  rewrite !isNaN_false, FloatAxioms.ltb_spec, FloatAxioms.leb_spec.
  apply SFltb_false_leb.
Qed.

Lemma fle_lt_false x y : (x <=? y) = true -> (y <? x) = false.
Proof. rewrite FloatAxioms.ltb_spec, FloatAxioms.leb_spec. apply SFleb_ltb_false. Qed.

Lemma fle_antisym x y :
  (0 <? x) = true -> (x <=? y) = true -> (y <=? x) = true -> x = y.
Proof.
  rewrite FloatAxioms.ltb_spec, !FloatAxioms.leb_spec, Prim2SF_zero.
  intros H0 H1 H2. apply Prim2SF_inj. eapply SFleb_antisym; eassumption.
Qed.

(** What passes the guard [isNaN(amountSol) || amountSol <= 0] is positive. *)
Lemma guard_positive a :
  JS.isNaN a || (a <=? 0) = false -> (0 <? a) = true.
Proof.
  intros H. apply orb_false_elim in H as [Hn Hle].
  destruct (0 <? a) eqn:E; [reflexivity|].
  apply flt_false_le in E; [congruence| reflexivity | exact Hn].
Qed.

Lemma positive_guard a :
  (0 <? a) = true -> JS.isNaN a || (a <=? 0) = false.
Proof.
  intros H. rewrite (flt_not_nan_r _ _ H). simpl.
  destruct (a <=? 0) eqn:E; [|reflexivity].
  apply fle_lt_false in E. congruence.
Qed.

(** The comparator [(a, b) => b - a] on positive numbers: [x - h > 0]
    exactly when [h < x]. *)
Lemma sub_positive x h :
  (0 <? x) = true -> (0 <? h) = true -> (0 <? x - h) = (h <? x).
Proof.
  rewrite !FloatAxioms.ltb_spec, FloatAxioms.sub_spec, Prim2SF_zero.
  pose proof (Prim2SF_valid x) as Vx. pose proof (Prim2SF_valid h) as Vh.
  destruct (Prim2SF x) as [[|]|[|]| |[|] mx ex]; try discriminate;
  destruct (Prim2SF h) as [[|]|[|]| |[|] mh eh]; try discriminate; intros _ _;
    try reflexivity.
  apply SFsub_sign; assumption.
Qed.

End Numbers.

(** ** Numbers made from integers *)

Section Conversion.
Import Binary64.
Local Open Scope Z_scope.

Lemma digits2_pos_unique (q : positive) (k : Z) :
  2 ^ (k - 1) <= Zpos q < 2 ^ k -> Zpos (digits2_pos q) = k.
Proof.
  intros [Hlo Hhi]. pose proof (digits2_pos_bounds q) as [Dlo Dhi].
  set (d := Zpos (digits2_pos q)) in *.
  assert (Hd : 0 < d) by (unfold d; lia).
  assert (Hk : 0 < k).
  { destruct (Z.lt_ge_cases 0 k) as [H|H]; [exact H|].
    exfalso. assert (2 ^ k <= 2 ^ 0) by (apply Z.pow_le_mono_r; lia).
    change (2 ^ 0) with 1 in *. lia. }
  destruct (Z.lt_trichotomy d k) as [H|[H|H]]; [|exact H|]; exfalso.
  - assert (2 ^ d <= 2 ^ (k - 1)) by (apply Z.pow_le_mono_r; lia). lia.
  - assert (2 ^ k <= 2 ^ (d - 1)) by (apply Z.pow_le_mono_r; lia). lia.
Qed.

Lemma fullPositive_valid x : fullPositive x -> valid_binary x = true.
Proof.
  destruct x as [s|[|]| |[|] m e]; simpl; try tauto.
  intros (Hd & Hlo & Hhi). unfold bounded, canonical_mantissa, fexp, SpecFloat.emin.
  rewrite Hd. change prec with 53. change emax with 1024.
  apply andb_true_intro. split; [apply Z.eqb_eq | apply Z.leb_le]; lia.
Qed.

Lemma fexp_full e : -52 <= e -> fexp prec emax (53 + e) = e.
Proof. unfold fexp, SpecFloat.emin. change prec with 53. change emax with 1024. lia. Qed.

(** A full mantissa is not shifted. *)
Lemma shr_fexp_full mz ez l :
  Zpos (digits2_pos mz) = 53 -> -52 <= ez ->
  shr_fexp prec emax (Zpos mz) ez l = (shr_record_of_loc (Zpos mz) l, ez).
Proof.
  intros Hd He. unfold shr_fexp. cbn [Zdigits2]. rewrite Hd, fexp_full by exact He.
  rewrite Z.sub_diag. reflexivity.
Qed.

Lemma binary_round_aux_finish s m e l :
  binary_round_aux prec emax s m e l
  = finish s (round_nearest_even (shr_m (fst (shr_fexp prec emax m e l)))
                (loc_of_shr_record (fst (shr_fexp prec emax m e l))))
      (snd (shr_fexp prec emax m e l)).
Proof.
  unfold binary_round_aux, finish.
  destruct (shr_fexp prec emax m e l) as [mrs' e']. reflexivity.
Qed.

Lemma finish_full m1 e1 :
  2 ^ 52 <= m1 <= 2 ^ 53 -> -52 <= e1 -> fullPositive (finish false m1 e1).
Proof.
  intros Hm He. destruct m1 as [|q|q]; try lia.
  destruct (Pos.eq_dec q 9007199254740992%positive) as [E|E].
  - subst q. unfold finish, shr_fexp. cbn [Zdigits2].
    change (Zpos (digits2_pos 9007199254740992)) with 54.
    replace (fexp prec emax (54 + e1) - e1) with 1
      by (unfold fexp, SpecFloat.emin; change prec with 53; change emax with 1024; lia).
    cbn. change (emax - prec) with 971.
    destruct (e1 + 1 <=? 971) eqn:El; cbn; [|exact I].
    apply Z.leb_le in El. repeat split; try reflexivity; lia.
  - assert (Hd : Zpos (digits2_pos q) = 53).
    { apply digits2_pos_unique. change (2 ^ (53 - 1)) with (2 ^ 52).
      change (2 ^ 53) with 9007199254740992 in *. lia. }
    unfold finish. rewrite (shr_fexp_full q e1 loc_Exact Hd He). cbn [shr_record_of_loc shr_m].
    change (emax - prec) with 971.
    destruct (e1 <=? 971) eqn:El; cbn; [|exact I].
    apply Z.leb_le in El. auto.
Qed.

Lemma round_nearest_even_le m l : round_nearest_even m l <= m + 1.
Proof. destruct l as [|[| |]]; simpl; try lia. destruct (Z.even m); lia. Qed.

(** Rounding a positive integer gives a positive value with a full
    mantissa. *)
Lemma binary_round_full (m : positive) :
  fullPositive (binary_round prec emax false m 0).
Proof.
  unfold binary_round.
  pose proof (digits2_pos_bounds m) as [Dlo Dhi].
  set (d := Zpos (digits2_pos m)) in *.
  assert (Hd : 0 < d) by (unfold d; lia).
  replace (fexp prec emax (d + 0)) with (d - 53)
    by (unfold fexp, SpecFloat.emin; change prec with 53; change emax with 1024; lia).
  destruct (Z.le_gt_cases d 53) as [Hle|Hgt].
  - (* at most 53 digits: the mantissa is shifted left to 53 digits *)
    assert (Hal : exists mz, shl_align m 0 (d - 53) = (mz, d - 53)
                             /\ Zpos (digits2_pos mz) = 53).
    { unfold shl_align. destruct (d - 53 - 0) as [|k|k] eqn:Ek; try lia.
      - exists m. replace (d - 53) with 0 by lia. split; [reflexivity|]. fold d. lia.
      - exists (Pos.iter xO m k). split; [reflexivity|].
        apply digits2_pos_unique. rewrite iter_xO.
        assert (Ek' : Zpos k = 53 - d) by lia. rewrite Ek'.
        assert (E1 : 2 ^ (53 - 1) = 2 ^ (d - 1) * 2 ^ (53 - d)).
        { rewrite <- Z.pow_add_r by lia. f_equal. lia. }
        assert (E2 : 2 ^ 53 = 2 ^ d * 2 ^ (53 - d)).
        { rewrite <- Z.pow_add_r by lia. f_equal. lia. }
        rewrite E1, E2.
        assert (Hc : 0 < 2 ^ (53 - d)) by (apply Z.pow_pos_nonneg; lia).
        set (a := 2 ^ (d - 1)) in *. set (b := 2 ^ d) in *. set (c := 2 ^ (53 - d)) in *.
        clearbody a b c. nia. }
    destruct Hal as (mz & -> & Hmz). rewrite binary_round_aux_finish.
    rewrite (shr_fexp_full mz (d - 53) loc_Exact Hmz) by lia.
    cbn [fst snd shr_record_of_loc shr_m loc_of_shr_record round_nearest_even].
    apply finish_full; [|lia].
    pose proof (digits2_pos_bounds mz) as [L U]. rewrite Hmz in L, U.
    change (53 - 1) with 52 in L. lia.
  - (* more than 53 digits: the mantissa is shifted right and rounded *)
    assert (Hal : shl_align m 0 (d - 53) = (m, 0)).
    { unfold shl_align. destruct (d - 53 - 0) as [|k|k] eqn:Ek; try lia; reflexivity. }
    rewrite Hal, binary_round_aux_finish. unfold shr_fexp at 1 2 3. cbn [Zdigits2]. fold d.
    replace (fexp prec emax (d + 0) - 0) with (d - 53)
      by (unfold fexp, SpecFloat.emin; change prec with 53; change emax with 1024; lia).
    destruct (d - 53) as [|n|n] eqn:En; try lia.
    unfold shr. cbn [fst snd].
    set (mrs := SpecFloat.iter_pos shr_1 n (shr_record_of_loc (Zpos m) loc_Exact)).
    assert (Hm' : shr_m mrs = Zpos m / 2 ^ Zpos n).
    { unfold mrs. rewrite iter_shr_1_m; rewrite shr_record_of_loc_m; [reflexivity | lia]. }
    assert (Hpow : 0 < 2 ^ Zpos n) by (apply Z.pow_pos_nonneg; lia).
    assert (Hsplit : 2 ^ d = 2 ^ 53 * 2 ^ Zpos n).
    { rewrite <- Z.pow_add_r by lia. f_equal. lia. }
    assert (Hsplit' : 2 ^ (d - 1) = 2 ^ 52 * 2 ^ Zpos n).
    { rewrite <- Z.pow_add_r by lia. f_equal. lia. }
    assert (Hb : 2 ^ 52 <= shr_m mrs < 2 ^ 53).
    { rewrite Hm'. split.
      - apply Z.div_le_lower_bound; [exact Hpow|]. rewrite Z.mul_comm, <- Hsplit'. exact Dlo.
      - apply Z.div_lt_upper_bound; [exact Hpow|]. rewrite Z.mul_comm, <- Hsplit. exact Dhi. }
    pose proof (round_nearest_even_ge (shr_m mrs) (loc_of_shr_record mrs)).
    pose proof (round_nearest_even_le (shr_m mrs) (loc_of_shr_record mrs)).
    apply finish_full; lia.
Qed.

Lemma binary_normalize_full z :
  0 < z -> fullPositive (binary_normalize prec emax z 0 false).
Proof.
  intros Hz. destruct z as [|m|m]; try lia. apply binary_round_full.
Qed.

(** The quotient of a positive value with a full mantissa by a finite one
    with a full mantissa and an exponent between -100 and 0 is positive. *)
Lemma SFdiv_full_positive x m2 e2 :
  fullPositive x -> Zpos (digits2_pos m2) = 53 -> -100 <= e2 <= 0 ->
  SFltb (S754_zero false) (SF64div x (S754_finite false m2 e2)) = true.
Proof.
  intros Hx Hd2 He2. destruct x as [s|[|]| |[|] m e]; simpl in Hx; try contradiction.
  - reflexivity.
  - destruct Hx as (Hd & Hlo & Hhi).
    unfold SF64div, SFdiv, SFdiv_core_binary. cbn [Zdigits2 xorb]. rewrite Hd, Hd2.
    replace (fexp prec emax (53 + e - (53 + e2))) with (e - e2 - 53)
      by (unfold fexp, SpecFloat.emin; change prec with 53; change emax with 1024; lia).
    rewrite Z.min_l by lia.
    replace (e - e2 - (e - e2 - 53)) with 53 by lia.
    rewrite Z.shiftl_mul_pow2 by lia.
    pose proof (digits2_pos_bounds m) as [L1 _]. rewrite Hd in L1.
    pose proof (digits2_pos_bounds m2) as [_ U2]. rewrite Hd2 in U2.
    change (53 - 1) with 52 in L1.
    pose proof (Z.div_eucl_eq (Zpos m * 2 ^ 53) (Zpos m2) ltac:(lia)) as Heq.
    pose proof (Z.mod_pos_bound (Zpos m * 2 ^ 53) (Zpos m2) ltac:(lia)) as Hmod.
    unfold Z.modulo in Hmod.
    destruct (Z.div_eucl (Zpos m * 2 ^ 53) (Zpos m2)) as [q r].
    assert (Hq : 0 < q).
    { change (2 ^ 52) with 4503599627370496 in L1.
      change (2 ^ 53) with 9007199254740992 in *. nia. }
    pose proof (binary_round_aux_signed false q (e - e2 - 53)
                  (new_location (Zpos m2) r) Hq) as Hs.
    specialize (Hs ltac:(unfold emin64, SpecFloat.emin; change prec with 53; change emax with 1024; lia)).
    destruct (binary_round_aux prec emax false q (e - e2 - 53) (new_location (Zpos m2) r))
      as [|[|]| |[|] ? ?]; simpl in Hs; try contradiction; try discriminate; reflexivity.
Qed.

End Conversion.

Section ConversionNumbers.
Import Binary64.
Local Open Scope float_scope.

Lemma Number_of_bigint_full z :
  (0 < z)%Z -> fullPositive (Prim2SF (JS.Number_of_bigint z)).
Proof.
  intros Hz. unfold JS.Number_of_bigint.
  pose proof (binary_normalize_full z Hz) as H.
  rewrite Prim2SF_SF2Prim by (apply fullPositive_valid, H). exact H.
Qed.

(** A positive amount of the chain is a positive number of SOL, on both
    paths. *)
Lemma increaseSol_of_positive z : (0 < z)%Z -> (0 <? BetTracker.increaseSol_of z) = true.
Proof.
  intros Hz. unfold BetTracker.increaseSol_of.
  rewrite FloatAxioms.ltb_spec, FloatAxioms.div_spec.
  change (Prim2SF 0) with (S754_zero false).
  change (Prim2SF 1e11) with (S754_finite false 6553600000000000 (-16)).
  apply SFdiv_full_positive; [apply Number_of_bigint_full, Hz | reflexivity | lia].
Qed.

Lemma Number_div_1e9_positive z : (0 < z)%Z -> (0 <? JS.Number_of_bigint z / 1e9) = true.
Proof.
  intros Hz.
  rewrite FloatAxioms.ltb_spec, FloatAxioms.div_spec.
  change (Prim2SF 0) with (S754_zero false).
  change (Prim2SF 1e9) with (S754_finite false 8388608000000000 (-23)).
  apply SFdiv_full_positive; [apply Number_of_bigint_full, Hz | reflexivity | lia].
Qed.

End ConversionNumbers.

(** ** The per-square maxima *)

Section Maxima.
Import BetTracker Samples.
Local Open Scope float_scope.

Lemma raiseMax_lookup a maxes j i :
  raiseMax a maxes j !! i
  = if decide (i = j) then raise a <$> maxes !! i else maxes !! i.
Proof.
  unfold raiseMax, raise. destruct (decide (i = j)) as [->|Hne].
  - destruct (maxes !! j) as [m|] eqn:E; simpl.
    + destruct (JS.gtb a m).
      * apply list_lookup_insert_eq. apply lookup_lt_Some in E. exact E.
      * exact E.
    + exact E.
  - destruct (maxes !! j) as [m|] eqn:E; [|reflexivity].
    destruct (JS.gtb a m); [|reflexivity].
    apply list_lookup_insert_ne. congruence.
Qed.

Lemma raise_idem a m : raise a (raise a m) = raise a m.
Proof.
  unfold raise. destruct (JS.gtb a m) eqn:E; [|rewrite E; reflexivity].
  unfold JS.gtb in *. destruct (a <? a) eqn:E'; reflexivity.
Qed.

Lemma fold_raiseMax_lookup a idxs : forall maxes i,
  fold_left (raiseMax a) idxs maxes !! i
  = if decide (i ∈ idxs) then raise a <$> maxes !! i else maxes !! i.
Proof.
  induction idxs as [|j idxs IH]; intros maxes i; simpl fold_left.
  - destruct (decide (i ∈ [])) as [H|_]; [inversion H | reflexivity].
  - rewrite IH, raiseMax_lookup.
    destruct (decide (i ∈ idxs)) as [Hin|Hin], (decide (i = j)) as [->|Hne];
      destruct (decide (_ ∈ j :: idxs)) as [Hin'|Hin'];
      rewrite elem_of_cons in Hin'; try tauto; try reflexivity.
    destruct (maxes !! j); simpl; [rewrite raise_idem|]; reflexivity.
Qed.

Lemma fold_raiseMax_length a idxs : forall maxes,
  length (fold_left (raiseMax a) idxs maxes) = length maxes.
Proof.
  induction idxs as [|j idxs IH]; intros maxes; simpl; [reflexivity|].
  rewrite IH. unfold raiseMax. destruct (maxes !! j); [|reflexivity].
  destruct (JS.gtb a f); [apply length_insert | reflexivity].
Qed.

Lemma recordAllSquares_lookup a bd i :
  (i < 25)%nat ->
  maxBetPerSquare (recordAllSquares a bd) !! i = raise a <$> maxBetPerSquare bd !! i.
Proof.
  intros Hi. unfold recordAllSquares. cbn [maxBetPerSquare]. rewrite fold_raiseMax_lookup.
  destruct (decide (i ∈ seq 0 25)) as [_|Hn]; [reflexivity|].
  exfalso. apply Hn. apply elem_of_seq. lia.
Qed.

Lemma recordSquare_lookup j a bd i :
  maxBetPerSquare (recordSquare j a bd) !! i
  = if decide (i = j) then raise a <$> maxBetPerSquare bd !! i
    else maxBetPerSquare bd !! i.
Proof.
  unfold recordSquare. cbn [maxBetPerSquare].
  apply (raiseMax_lookup a (maxBetPerSquare bd) j i).
Qed.

Lemma record_length bd s :
  length (maxBetPerSquare (record bd s)) = length (maxBetPerSquare bd).
Proof.
  destruct s as [a|j a]; unfold record, recordAllSquares, recordSquare;
    cbn [maxBetPerSquare].
  - apply fold_raiseMax_length.
  - destruct (maxBetPerSquare bd !! j); [|reflexivity].
    destruct (JS.gtb a f); [apply length_insert | reflexivity].
Qed.

Lemma record_lookup bd s i :
  (i < 25)%nat ->
  maxBetPerSquare (record bd s) !! i
  = if appliesTo i s then raise (amount s) <$> maxBetPerSquare bd !! i
    else maxBetPerSquare bd !! i.
Proof.
  intros Hi. destruct s as [a|j a]; cbn [record appliesTo amount].
  - apply recordAllSquares_lookup. exact Hi.
  - rewrite recordSquare_lookup.
    destruct (decide (i = j)) as [->|Hne].
    + rewrite Nat.eqb_refl. reflexivity.
    + destruct (Nat.eqb_spec j i); [congruence | reflexivity].
Qed.

Lemma record_allBets bd s : allBets (record bd s) = allBets bd ++ [amount s].
Proof. destruct s; reflexivity. Qed.

Lemma recordAll_allBets tr : forall bd,
  allBets (recordAll tr bd) = allBets bd ++ map amount tr.
Proof.
  induction tr as [|s tr IH]; intros bd; simpl.
  - rewrite app_nil_r. reflexivity.
  - unfold recordAll in IH. rewrite IH, record_allBets, <- app_assoc. reflexivity.
Qed.

Lemma recordAll_snoc tr s bd : recordAll (tr ++ [s]) bd = record (recordAll tr bd) s.
Proof. unfold recordAll. rewrite fold_left_app. reflexivity. Qed.

Lemma samplesOf_snoc i tr s :
  samplesOf i (tr ++ [s])
  = samplesOf i tr ++ (if appliesTo i s then [amount s] else []).
Proof.
  unfold samplesOf. rewrite List.filter_app, map_app. simpl.
  destruct (appliesTo i s); reflexivity.
Qed.

Lemma validSample_positive s : validSample s = true -> (0 <? amount s) = true.
Proof.
  destruct s as [a|j a]; simpl; [tauto|]. intros H. apply andb_prop in H. tauto.
Qed.

Lemma samplesOf_positive i tr :
  forallb validSample tr = true -> allPositive (samplesOf i tr).
Proof.
  intros H. apply List.Forall_forall. intros x Hx.
  unfold samplesOf in Hx. apply in_map_iff in Hx as [s [<- Hs]].
  apply List.filter_In in Hs as [Hs _].
  rewrite forallb_forall in H. apply validSample_positive, H, Hs.
Qed.

(** A larger positive sample becomes the maximum, a smaller one leaves it. *)
Lemma maximumOf_snoc m l a :
  allPositive l -> (0 <? a) = true ->
  maximumOf m l -> maximumOf (raise a m) (l ++ [a]).
Proof.
  intros Hl Ha Hm.
  pose proof (flt_not_nan_r _ _ Ha) as Na.
  assert (Nm : JS.isNaN m = false).
  { destruct l as [|x l]; simpl in Hm; [subst; reflexivity|].
    destruct Hm as [Hin _]. unfold allPositive in Hl. rewrite List.Forall_forall in Hl.
    eapply flt_not_nan_r, Hl, Hin. }
  assert (Hmax : In (raise a m) (l ++ [a])
                 /\ Forall (fun x => (x <=? raise a m) = true) (l ++ [a])).
  { unfold raise, JS.gtb. destruct (m <? a) eqn:E.
    - split; [apply in_or_app; right; left; reflexivity|].
      apply List.Forall_app. split; [|repeat constructor; apply fle_refl, Na].
      destruct l as [|x l]; [constructor|]. destruct Hm as [_ Hm].
      eapply List.Forall_impl; [|exact Hm]. simpl. intros y Hy.
      eapply fle_trans; [exact Hy | apply flt_le, E].
    - destruct l as [|x l].
      + simpl in Hm. subst m. congruence.
      + destruct Hm as [Hin Hm]. split; [apply in_or_app; left; exact Hin|].
        apply List.Forall_app. split; [exact Hm|].
        repeat constructor. apply flt_false_le; assumption. }
  destruct l; exact Hmax.
Qed.

(** The invariant of the store: 25 maxima, each the maximum of the samples
    of its square. *)
Lemma maxima_invariant tr :
  forallb validSample tr = true ->
  length (maxBetPerSquare (recordAll tr freshBetData)) = 25%nat
  /\ forall i, (i < 25)%nat ->
       exists m, maxBetPerSquare (recordAll tr freshBetData) !! i = Some m
                 /\ maximumOf m (samplesOf i tr).
Proof.
  induction tr as [|s tr IH] using rev_ind; intros Hv.
  - split; [reflexivity|]. intros i Hi. exists 0. split; [|reflexivity].
    change (replicate 25 0 !! i = Some 0).
    apply lookup_replicate. split; [reflexivity | exact Hi].
  - rewrite forallb_app in Hv. apply andb_prop in Hv as [Hv Hs].
    simpl in Hs. rewrite andb_true_r in Hs.
    destruct (IH Hv) as [Hlen Hmax].
    rewrite recordAll_snoc. split; [rewrite record_length; exact Hlen|].
    intros i Hi. destruct (Hmax i Hi) as [m [Hm Hmm]].
    rewrite record_lookup, samplesOf_snoc, Hm by exact Hi.
    destruct (appliesTo i s).
    + exists (raise (amount s) m). split; [reflexivity|].
      apply maximumOf_snoc; [apply samplesOf_positive, Hv | apply validSample_positive, Hs | exact Hmm].
    + exists m. rewrite app_nil_r. split; [reflexivity | exact Hmm].
Qed.

End Maxima.

(** ** [Math.max] over the maxima *)

Section MathMax.
Local Open Scope float_scope.

Lemma Math_max_cases a b :
  JS.isNaN a = false -> JS.isNaN b = false ->
  (JS.Math_max a b = a \/ JS.Math_max a b = b)
  /\ (a <=? JS.Math_max a b) = true /\ (b <=? JS.Math_max a b) = true.
Proof.
  intros Na Nb. unfold JS.Math_max. rewrite Na, Nb. simpl.
  destruct (a <? b) eqn:E1.
  - repeat split; [right; reflexivity | apply flt_le, E1 | apply fle_refl, Nb].
  - destruct (b <? a) eqn:E2.
    + repeat split; [left; reflexivity | apply fle_refl, Na | apply flt_le, E2].
    + pose proof (flt_false_le _ _ Na Nb E1). pose proof (flt_false_le _ _ Nb Na E2).
      destruct (get_sign a); repeat split;
        auto using fle_refl.
Qed.

Lemma Math_max_not_nan a b :
  JS.isNaN a = false -> JS.isNaN b = false -> JS.isNaN (JS.Math_max a b) = false.
Proof.
  intros Na Nb. destruct (Math_max_cases a b Na Nb) as [[-> | ->] _]; assumption.
Qed.

(** The fold of [Math.max] from [acc]: the result is [acc] or an element,
    and nothing is above it. *)
Lemma fold_Math_max l : forall acc,
  JS.isNaN acc = false -> Forall (fun x => JS.isNaN x = false) l ->
  let r := fold_left JS.Math_max l acc in
  (r = acc \/ In r l) /\ (acc <=? r) = true /\ Forall (fun x => (x <=? r) = true) l.
Proof.
  induction l as [|x l IH]; intros acc Na Hl; simpl.
  - repeat split; [left; reflexivity | apply fle_refl, Na | constructor].
  - apply List.Forall_cons_iff in Hl as [Nx Hl].
    destruct (Math_max_cases acc x Na Nx) as [Hc [H1 H2]].
    destruct (IH (JS.Math_max acc x) (Math_max_not_nan _ _ Na Nx) Hl) as [Hr [Hle Hall]].
    repeat split.
    + destruct Hr as [Hr|Hr]; [|right; right; exact Hr].
      destruct Hc as [Hc|Hc]; rewrite Hc in Hr; [left | right; left]; congruence.
    + eapply fle_trans; eassumption.
    + constructor; [eapply fle_trans; eassumption | exact Hall].
Qed.

End MathMax.

(** ** The sort and the ranks *)

Section Ranks.
Import BetTracker Samples.
Local Open Scope float_scope.

Lemma insertSorted_descending x l :
  (0 <? x) = true -> allPositive l ->
  StronglySorted notBelow l ->
  StronglySorted notBelow (insertSorted descending x l)
  /\ Permutation (x :: l) (insertSorted descending x l).
Proof.
  intros Hx. induction l as [|h t IH]; intros Hl Hs; simpl.
  - split; [repeat constructor | reflexivity].
  - apply List.Forall_cons_iff in Hl as [Hh Ht].
    apply StronglySorted_inv in Hs as [Hs Hall].
    unfold JS.gtb, descending. rewrite (sub_positive x h Hx Hh).
    destruct (h <? x) eqn:E.
    + split; [|reflexivity].
      constructor; [constructor; assumption|].
      constructor; [apply flt_le, E|].
      eapply List.Forall_impl; [|exact Hall]. unfold notBelow. intros y Hy.
      eapply fle_trans; [exact Hy | apply flt_le, E].
    + destruct (IH Ht Hs) as [IHs IHp]. split.
      * constructor; [exact IHs|].
        eapply Permutation_Forall; [exact IHp|].
        constructor; [|exact Hall].
        apply flt_false_le; [eapply flt_not_nan_r; eassumption.. | exact E].
      * rewrite perm_swap. apply perm_skip. exact IHp.
Qed.

Lemma fold_insertSorted l : forall acc,
  allPositive l -> allPositive acc -> StronglySorted notBelow acc ->
  let r := fold_left (fun acc x => insertSorted descending x acc) l acc in
  StronglySorted notBelow r /\ Permutation (l ++ acc) r.
Proof.
  induction l as [|x l IH]; intros acc Hl Ha Hs; simpl.
  - split; [exact Hs | reflexivity].
  - apply List.Forall_cons_iff in Hl as [Hx Hl].
    destruct (insertSorted_descending x acc Hx Ha Hs) as [Hs' Hp'].
    assert (Ha' : allPositive (insertSorted descending x acc)).
    { eapply Permutation_Forall; [exact Hp'|]. constructor; assumption. }
    destruct (IH _ Hl Ha' Hs') as [Hs'' Hp'']. split; [exact Hs''|].
    rewrite <- Hp''. rewrite <- Hp'. apply Permutation_middle.
Qed.

(** On positive numbers [sort((a, b) => b - a)] gives the sorted
    permutation. *)
Lemma Array_sort_descending l :
  allPositive l ->
  StronglySorted notBelow (Array_sort descending l)
  /\ Permutation l (Array_sort descending l).
Proof.
  intros Hl. unfold Array_sort.
  destruct (fold_insertSorted l [] Hl (List.Forall_nil _) (SSorted_nil _)) as [Hs Hp].
  split; [exact Hs|]. rewrite app_nil_r in Hp. exact Hp.
Qed.

Lemma sorted_head h t :
  JS.isNaN h = false -> StronglySorted notBelow (h :: t) ->
  Forall (fun x => (x <=? h) = true) (h :: t).
Proof.
  intros Nh Hs. apply StronglySorted_inv in Hs as [_ Hall].
  constructor; [apply fle_refl, Nh | exact Hall].
Qed.

Lemma sorted_last l :
  Forall (fun x => JS.isNaN x = false) l -> StronglySorted notBelow l ->
  l <> [] ->
  In (nth (length l - 1) l nan) l
  /\ Forall (fun x => (nth (length l - 1) l nan <=? x) = true) l.
Proof.
  induction l as [|h t IH]; intros Hn Hs Hne; [congruence|].
  apply List.Forall_cons_iff in Hn as [Nh Nt].
  apply StronglySorted_inv in Hs as [Hs Hall].
  destruct t as [|h' t'].
  - simpl. split; [left; reflexivity|]. repeat constructor. apply fle_refl, Nh.
  - destruct (IH Nt Hs ltac:(congruence)) as [Hin Hmin].
    replace (length (h :: h' :: t') - 1)%nat with (S (length (h' :: t') - 1)) by (simpl; lia).
    cbn [nth]. split; [right; exact Hin|].
    constructor; [|exact Hmin].
    rewrite List.Forall_forall in Hall. apply Hall, Hin.
Qed.

End Ranks.

(** ** The store after valid samples *)

Section Store.
Import BetTracker Samples.
Local Open Scope float_scope.

Lemma allBets_recordAll tr : allBets (recordAll tr freshBetData) = map amount tr.
Proof. rewrite recordAll_allBets. reflexivity. Qed.

(** Every valid sample applies to a square of the board. *)
Lemma validSample_applies s :
  validSample s = true -> exists i, (i < 25)%nat /\ appliesTo i s = true.
Proof.
  destruct s as [a|j a]; simpl; intros H.
  - exists 0%nat. split; [lia | reflexivity].
  - apply andb_prop in H as [H _]. apply Nat.ltb_lt in H.
    exists j. split; [exact H | apply Nat.eqb_refl].
Qed.

Lemma samplesOf_In i s tr :
  In s tr -> appliesTo i s = true -> In (amount s) (samplesOf i tr).
Proof.
  intros Hs Ha. unfold samplesOf. apply in_map. apply List.filter_In. tauto.
Qed.

Lemma samplesOf_incl i tr x : In x (samplesOf i tr) -> In x (map amount tr).
Proof.
  unfold samplesOf. rewrite !in_map_iff. intros [s [E H]].
  apply List.filter_In in H as [H _]. eauto.
Qed.

Lemma maximumOf_nonempty m l :
  l <> [] -> maximumOf m l -> In m l /\ Forall (fun x => (x <=? m) = true) l.
Proof. destruct l; [congruence | intros _ H; exact H]. Qed.

(** With at least one sample, [getMaxBet()] is the largest sample of all. *)
Lemma getMaxBet_maximum tr :
  forallb validSample tr = true -> tr <> [] ->
  let r := getMaxBet (recordAll tr freshBetData) in
  (0 <? r) = true /\ In r (map amount tr)
  /\ Forall (fun x => (x <=? r) = true) (map amount tr).
Proof.
  intros Hv Hne. destruct (maxima_invariant tr Hv) as [Hlen Hmax].
  set (bd := recordAll tr freshBetData) in *.
  assert (Hnn : Forall (fun x => JS.isNaN x = false) (maxBetPerSquare bd)).
  { apply Forall_lookup. intros i x Hx.
    pose proof (lookup_lt_Some _ _ _ Hx) as Hi. rewrite Hlen in Hi.
    destruct (Hmax i Hi) as [m [Hm Hmm]]. rewrite Hx in Hm. injection Hm as <-.
    destruct (samplesOf i tr) as [|y l] eqn:E; unfold maximumOf in Hmm; [subst; reflexivity|].
    destruct Hmm as [Hin _]. rewrite <- E in Hin.
    pose proof (samplesOf_positive i tr Hv) as Hp.
    unfold allPositive in Hp. rewrite List.Forall_forall in Hp.
    eapply flt_not_nan_r, Hp, Hin. }
  destruct (fold_Math_max (maxBetPerSquare bd) neg_infinity eq_refl Hnn) as [Hr [_ Hall]].
  fold (JS.Math_max_spread (maxBetPerSquare bd)) in Hr, Hall.
  fold (getMaxBet bd) in Hr, Hall. intros r. fold r in Hr, Hall.
  rewrite List.Forall_forall in Hall.
  assert (Hup : forall s, In s tr -> (amount s <=? r) = true).
  { intros s Hs. rewrite forallb_forall in Hv.
    destruct (validSample_applies s (Hv s Hs)) as [i [Hi Ha]].
    destruct (Hmax i Hi) as [m [Hm Hmm]].
    pose proof (samplesOf_In i s tr Hs Ha) as Hin.
    apply maximumOf_nonempty in Hmm as [_ Hle]; [|intros E; rewrite E in Hin; inversion Hin].
    rewrite List.Forall_forall in Hle.
    eapply fle_trans; [apply Hle, Hin|].
    apply Hall. apply list_elem_of_In, list_elem_of_lookup. eauto. }
  assert (Hpos : (0 <? r) = true).
  { destruct tr as [|s tr']; [congruence|].
    eapply flt_le_trans; [|apply (Hup s); left; reflexivity].
    rewrite forallb_forall in Hv. apply validSample_positive, Hv. left; reflexivity. }
  split; [exact Hpos|]. split.
  - destruct Hr as [Hr|Hr]; [rewrite Hr in Hpos; discriminate|].
    apply list_elem_of_In, list_elem_of_lookup in Hr as [k Hk].
    pose proof (lookup_lt_Some _ _ _ Hk) as Hi. rewrite Hlen in Hi.
    destruct (Hmax k Hi) as [m [Hm Hmm]]. rewrite Hk in Hm. injection Hm as <-.
    destruct (samplesOf k tr) as [|y l] eqn:E; unfold maximumOf in Hmm.
    + rewrite Hmm in Hpos. discriminate.
    + apply (samplesOf_incl k). rewrite E. tauto.
  - apply List.Forall_forall. intros x Hx.
    apply in_map_iff in Hx as [s [<- Hs]]. apply Hup, Hs.
Qed.

Lemma amounts_positive tr :
  forallb validSample tr = true -> allPositive (map amount tr).
Proof.
  intros H. apply List.Forall_forall. intros x Hx.
  apply in_map_iff in Hx as [s [<- Hs]].
  rewrite forallb_forall in H. apply validSample_positive, H, Hs.
Qed.

End Store.

(** ** The store: claims *)

Section StoreClaims.
Import BetTracker Samples.
Local Open Scope float_scope.

Lemma startBetTracking_reset (st : State) (roundId sub : Z) :
  roundId <> currentRoundId st ->
  betData (startBetTracking roundId sub st) = freshBetData
  /\ lastSeenDeployed (startBetTracking roundId sub st) = replicate 25 0%Z
  /\ currentRoundId (startBetTracking roundId sub st) = roundId.
Proof.
  intros Hne. unfold startBetTracking.
  destruct (Z.eqb_spec roundId (currentRoundId st)) as [E|_]; [contradiction|].
  simpl. destruct (subscriptionId st); simpl; auto.
Qed.

(** C4. From a reset on, after any sequence of samples with positive
    amounts, each recorded for one of the 25 squares or for all of them, the
    entry of [maxBetPerSquare] for every square [i] in 0..24 is the largest
    amount among the samples recorded for [i] or for all squares, and 0 when
    there is no such sample. *)
Theorem maxBetPerSquare_is_maximum (st : State) (roundId sub : Z)
    (tr : list Sample) (i : nat) :
  roundId <> currentRoundId st ->
  forallb validSample tr = true ->
  (i < 25)%nat ->
  exists m,
    maxBetPerSquare (recordAll tr (betData (startBetTracking roundId sub st))) !! i = Some m
    /\ maximumOf m (samplesOf i tr).
Proof.
  intros Hne Hv Hi.
  destruct (startBetTracking_reset st roundId sub Hne) as [-> _].
  destruct (maxima_invariant tr Hv) as [_ H]. apply H, Hi.
Qed.

Lemma maxBetPerSquare_is_maximum_witness :
  exists m,
    maxBetPerSquare
      (recordAll [AllSquares 0.5; Square 3 0.7; Square 4 0.2]
         (betData (startBetTracking 7 1 initialState))) !! 3%nat = Some m
    /\ maximumOf m (samplesOf 3 [AllSquares 0.5; Square 3 0.7; Square 4 0.2]).
Proof.
  apply (maxBetPerSquare_is_maximum initialState 7 1
           [AllSquares 0.5; Square 3 0.7; Square 4 0.2] 3);
    [discriminate | reflexivity | lia].
Defined.

(** The ranks after valid samples: the first is [getMaxBet()], a rank past
    the end is the smallest sample, and without samples every rank is 0. *)
Lemma ranks_after_samples (tr : list Sample) :
  forallb validSample tr = true ->
  let bd := recordAll tr freshBetData in
  (allBets bd <> [] -> getNthHighestBet 0 bd = getMaxBet bd)
  /\ (allBets bd <> [] ->
      forall n, (length (allBets bd) <= n)%nat ->
        minimumOf (getNthHighestBet n bd) (allBets bd))
  /\ (allBets bd = [] -> forall n, getNthHighestBet n bd = 0).
Proof.
  intros Hv bd.
  assert (Hbets : allBets bd = map amount tr) by apply allBets_recordAll.
  pose proof (amounts_positive tr Hv) as Hpos. rewrite <- Hbets in Hpos.
  destruct (Array_sort_descending (allBets bd) Hpos) as [Hsorted Hperm].
  assert (Hnn : Forall (fun x => JS.isNaN x = false) (Array_sort descending (allBets bd))).
  { eapply Permutation_Forall; [exact Hperm|].
    eapply List.Forall_impl; [|exact Hpos]. intros x. apply flt_not_nan_r. }
  split; [|split].
  - intros Hne. unfold getNthHighestBet.
    destruct (allBets bd) as [|b bs] eqn:Eb; [congruence|]. rewrite <- Eb in *.
    assert (Htr : tr <> []) by (intros ->; rewrite Eb in Hbets; discriminate).
    destruct (getMaxBet_maximum tr Hv Htr) as [Hr0 [Hrin Hrall]].
    fold bd in Hr0, Hrin, Hrall. rewrite <- Hbets in Hrin, Hrall.
    destruct (Array_sort descending (allBets bd)) as [|h t] eqn:Es.
    { apply Permutation_sym, Permutation_nil in Hperm. congruence. }
    cbn [length Nat.min nth].
    pose proof (sorted_head h t ltac:(inversion Hnn; assumption) Hsorted) as Hh.
    assert (Hhin : In h (allBets bd)).
    { eapply Permutation_in; [symmetry; exact Hperm | left; reflexivity]. }
    rewrite List.Forall_forall in Hh, Hrall.
    symmetry. apply fle_antisym; [exact Hr0 | |].
    + apply Hh. eapply Permutation_in; [exact Hperm | exact Hrin].
    + apply Hrall, Hhin.
  - intros Hne n Hn. unfold getNthHighestBet.
    destruct (allBets bd) as [|b bs] eqn:Eb; [congruence|]. rewrite <- Eb in *.
    pose proof (Permutation_length Hperm) as Hlen.
    assert (Hs : Array_sort descending (allBets bd) <> []).
    { intros E. rewrite E in Hperm. apply Permutation_sym, Permutation_nil in Hperm.
      congruence. }
    destruct (sorted_last _ Hnn Hsorted Hs) as [Hin Hmin].
    replace (Nat.min n (length (Array_sort descending (allBets bd)) - 1))
      with (length (Array_sort descending (allBets bd)) - 1)%nat by lia.
    split.
    + eapply Permutation_in; [symmetry; exact Hperm | exact Hin].
    + eapply Permutation_Forall; [symmetry; exact Hperm | exact Hmin].
  - intros He n. unfold getNthHighestBet. rewrite He. reflexivity.
Qed.

End StoreClaims.

(** ** The event path *)

Section EventPath.
Import BetTracker Samples.
Local Open Scope float_scope.

(** One log line records nothing, or one positive amount that a pattern
    extracted from it. *)
Lemma scanPatterns_outcome ps log bd :
  scanPatterns ps log bd = bd
  \/ exists p g,
       In p ps /\ logMatch p log = Some g
       /\ (0 <? JS.parseFloat g) = true
       /\ scanPatterns ps log bd = recordAllSquares (JS.parseFloat g) bd.
Proof.
  induction ps as [|p ps IH]; simpl; [left; reflexivity|].
  destruct (logMatch p log) as [g|] eqn:Eg.
  - destruct (JS.isNaN (JS.parseFloat g) || (JS.parseFloat g <=? 0)) eqn:Egd.
    + destruct IH as [IH|(p' & g' & Hp & Hg & Hpos & IH)]; [left; exact IH|].
      right. exists p', g'. auto.
    + right. exists p, g. repeat split; auto using guard_positive.
  - destruct IH as [IH|(p' & g' & Hp & Hg & Hpos & IH)]; [left; exact IH|].
    right. exists p', g'. auto.
Qed.

Lemma handler_records ls : forall bd,
  exists amounts,
    fold_left (fun b log => scanPatterns patterns log b) ls bd
    = recordAll (map AllSquares amounts) bd
    /\ Forall (fun a => (0 <? a) = true /\ extractedFrom ls a) amounts.
Proof.
  induction ls as [|log ls IH]; intros bd; cbn [fold_left].
  - exists []. split; [reflexivity | constructor].
  - destruct (IH (scanPatterns patterns log bd)) as [amounts [Hrec Hall]].
    assert (Hweak : Forall (fun a => (0 <? a) = true /\ extractedFrom (log :: ls) a) amounts).
    { eapply List.Forall_impl; [|exact Hall]. intros a [Ha (l & p & g & Hl & Hp & Hg & E)].
      split; [exact Ha|]. exists l, p, g. simpl. auto. }
    destruct (scanPatterns_outcome patterns log bd) as [E|(p & g & Hp & Hg & Hpos & E)].
    + exists amounts. rewrite Hrec, E. split; [reflexivity | exact Hweak].
    + exists (JS.parseFloat g :: amounts). rewrite Hrec, E. split; [reflexivity|].
      constructor; [|exact Hweak].
      split; [exact Hpos|]. exists log, p, g. simpl. auto.
Qed.

(** C9, as the code has it. The handler never throws, whatever the
    notification. What it records is a sequence of amounts extracted from
    the log lines, each of them positive and not NaN: an extracted amount
    that is NaN or at most 0 is passed over, leaving [maxBetPerSquare], the
    list of samples and their count as they are, and the scan goes on with
    the next pattern. (Infinity is positive: it is recorded.) *)
Theorem invalid_amounts_dropped (n : Logs) (bd : BetData) :
  snd (onLogs n bd) = JS.Normal
  /\ (exists amounts,
        fst (onLogs n bd) = recordAll (map AllSquares amounts) bd
        /\ Forall (fun a => JS.isNaN a = false /\ (0 <? a) = true) amounts
        /\ forall ls, logs n = Some ls -> Forall (extractedFrom ls) amounts)
  /\ (forall p ps log g,
        logMatch p log = Some g ->
        JS.isNaN (JS.parseFloat g) || (JS.parseFloat g <=? 0) = true ->
        scanPatterns (p :: ps) log bd = scanPatterns ps log bd).
Proof.
  split; [|split].
  - unfold onLogs. destruct (handlerBody n bd) as [bd' [|msg]]; reflexivity.
  - unfold onLogs, handlerBody. destruct (err n).
    + exists []. repeat split; constructor.
    + destruct (logs n) as [ls|].
      * destruct (handler_records ls bd) as [amounts [Hrec Hall]].
        exists amounts. cbn [fst]. split; [exact Hrec|]. split.
        -- eapply List.Forall_impl; [|exact Hall]. intros a [Ha _].
           split; [eapply flt_not_nan_r; exact Ha | exact Ha].
        -- intros ls' E. injection E as <-.
           eapply List.Forall_impl; [|exact Hall]. intros a [_ Ha]. exact Ha.
      * exists []. repeat split; constructor.
  - intros p ps log g Hg Hbad. simpl. rewrite Hg, Hbad. reflexivity.
Qed.

(** C9, as stated, fails on an infinite amount: a log line whose amount has
    310 digits is read as Infinity, which passes the guard and is recorded
    in all 25 maxima, in the list of samples and in their count. *)
Lemma infinite_amount_recorded :
  JS.parseFloat ("1" ++ Examples.zeros 309) = infinity
  /\ fst (onLogs (Examples.notification [Examples.hugeLog]) freshBetData)
     = {| maxBetPerSquare := replicate 25 infinity;
          totalBets := 1;
          allBets := [infinity] |}.
Proof. split; vm_compute; reflexivity. Qed.

End EventPath.

(** ** The poll path *)

Section PollPath.
Import Accounts BetTracker Samples.
Local Open Scope float_scope.

Lemma recordAll_app tr1 tr2 bd :
  recordAll (tr1 ++ tr2) bd = recordAll tr2 (recordAll tr1 bd).
Proof. unfold recordAll. apply fold_left_app. Qed.

Lemma pollSamplesOn_ext idxs d ls1 ls2 :
  (forall i, In i idxs -> ls1 !! i = ls2 !! i) ->
  pollSamplesOn idxs d ls1 = pollSamplesOn idxs d ls2.
Proof.
  induction idxs as [|j idxs IH]; intros H; [reflexivity|].
  unfold pollSamplesOn in *. simpl. rewrite (H j) by (left; reflexivity).
  f_equal. apply IH. intros i Hi. apply H. right. exact Hi.
Qed.

Lemma pollSquare_spec d st j :
  betData (pollSquare d st j)
  = recordAll (pollSamplesOn [j] d (lastSeenDeployed st)) (betData st)
  /\ forall i, lastSeenDeployed (pollSquare d st j) !! i
               = if decide (i = j) then cursorAfter (d !! i) (lastSeenDeployed st !! i)
                 else lastSeenDeployed st !! i.
Proof.
  unfold pollSquare, pollSamplesOn, cursorAfter. simpl flat_map.
  destruct (d !! j) as [c|] eqn:Ec, (lastSeenDeployed st !! j) as [l|] eqn:El;
    try (split; [reflexivity|]; intros i; destruct (decide (i = j)) as [->|];
         [rewrite ?Ec, ?El|]; reflexivity).
  destruct (c >? l)%Z eqn:E.
  - split; [reflexivity|]. intros i. cbn [lastSeenDeployed].
    destruct (decide (i = j)) as [->|Hne].
    + rewrite Ec, El, E. apply list_lookup_insert_eq. eapply lookup_lt_Some, El.
    + apply list_lookup_insert_ne. congruence.
  - split; [reflexivity|]. intros i.
    destruct (decide (i = j)) as [->|Hne]; [rewrite Ec, El, E|]; auto.
Qed.

Lemma fold_pollSquare d idxs : NoDup idxs -> forall st,
  betData (fold_left (pollSquare d) idxs st)
  = recordAll (pollSamplesOn idxs d (lastSeenDeployed st)) (betData st)
  /\ forall i, lastSeenDeployed (fold_left (pollSquare d) idxs st) !! i
               = if decide (i ∈ idxs) then cursorAfter (d !! i) (lastSeenDeployed st !! i)
                 else lastSeenDeployed st !! i.
Proof.
  induction idxs as [|j idxs IH]; intros Hnd st.
  - split; [reflexivity|]. intros i. destruct (decide (i ∈ [])) as [H|_]; [inversion H | reflexivity].
  - apply NoDup_cons in Hnd as [Hj Hnd].
    destruct (pollSquare_spec d st j) as [Hb Hl].
    destruct (IH Hnd (pollSquare d st j)) as [IHb IHl].
    simpl fold_left. split.
    + rewrite IHb, Hb, <- recordAll_app. f_equal.
      change (j :: idxs) with ([j] ++ idxs). unfold pollSamplesOn at 3.
      rewrite flat_map_app. f_equal.
      apply pollSamplesOn_ext. intros i Hi. rewrite Hl.
      destruct (decide (i = j)) as [->|]; [|reflexivity].
      exfalso. apply Hj. apply list_elem_of_In. exact Hi.
    + intros i. rewrite IHl, Hl.
      destruct (decide (i ∈ idxs)) as [Hin|Hin], (decide (i = j)) as [->|Hne];
        destruct (decide (_ ∈ j :: idxs)) as [Hin'|Hin'];
        rewrite elem_of_cons in Hin'; try tauto; try reflexivity.
Qed.

(** The samples of square [i] among those of a tick over distinct squares. *)
Lemma samplesOf_pollSamplesOn d ls i idxs : NoDup idxs ->
  samplesOf i (pollSamplesOn idxs d ls)
  = if decide (i ∈ idxs) then
      match d !! i, ls !! i with
      | Some c, Some l => if (c >? l)%Z then [increaseSol_of (c - l)] else []
      | _, _ => []
      end
    else [].
Proof.
  induction idxs as [|j idxs IH]; intros Hnd.
  - destruct (decide (i ∈ [])) as [H|_]; [inversion H | reflexivity].
  - apply NoDup_cons in Hnd as [Hj Hnd]. specialize (IH Hnd).
    assert (E : samplesOf i (pollSamplesOn (j :: idxs) d ls)
                = samplesOf i (pollSamplesOn [j] d ls) ++ samplesOf i (pollSamplesOn idxs d ls)).
    { unfold samplesOf, pollSamplesOn. simpl flat_map.
      rewrite app_nil_r, List.filter_app, map_app. reflexivity. }
    rewrite E, IH. unfold samplesOf, pollSamplesOn. simpl flat_map.
    rewrite app_nil_r.
    destruct (decide (i ∈ idxs)) as [Hin|Hin], (decide (i = j)) as [->|Hne];
      destruct (decide (_ ∈ j :: idxs)) as [Hin'|Hin'];
      rewrite elem_of_cons in Hin'; try tauto.
    + destruct (d !! j), (ls !! j); try reflexivity.
      destruct (_ >? _)%Z; [|reflexivity]. simpl.
      destruct (Nat.eqb_spec j i); [congruence | reflexivity].
    + rewrite app_nil_r.
      destruct (d !! j), (ls !! j); try reflexivity.
      destruct (_ >? _)%Z; [|reflexivity]. simpl.
      rewrite Nat.eqb_refl. reflexivity.
    + rewrite app_nil_r.
      destruct (d !! j), (ls !! j); try reflexivity.
      destruct (_ >? _)%Z; [|reflexivity]. simpl.
      destruct (Nat.eqb_spec j i); [congruence | reflexivity].
Qed.

(** C2, as the code has it. A poll tick whose fetch fails changes nothing.
    On a tick whose fetch succeeds the store receives the samples of the
    tick in the order of the squares, and for each of the 25 squares: when
    the fetched total exceeds the cursor, exactly one sample is recorded for
    the square, the difference turned into a number of SOL by the poll
    path, and the cursor is set to the new total; when the fetched total is
    at most the cursor, no sample is recorded for the square and the cursor
    keeps its value. *)
Theorem poll_tick (round : Round) (st : State) :
  let st' := pollRoundAccount (Some round) st in
  let taken := pollSamples (deployed round) (lastSeenDeployed st) in
  pollRoundAccount None st = st
  /\ betData st' = recordAll taken (betData st)
  /\ forall i c l,
       (i < 25)%nat ->
       deployed round !! i = Some c -> lastSeenDeployed st !! i = Some l ->
       if (c >? l)%Z
       then samplesOf i taken = [increaseSol_of (c - l)]
            /\ lastSeenDeployed st' !! i = Some c
       else samplesOf i taken = []
            /\ lastSeenDeployed st' !! i = Some l.
Proof.
  intros st' taken. unfold st', taken, pollRoundAccount, pollSamples.
  destruct (fold_pollSquare (deployed round) (seq 0 25) (NoDup_seq 0 25) st) as [Hb Hl].
  split; [reflexivity|]. split; [exact Hb|].
  intros i c l Hi Hc Hll.
  rewrite (samplesOf_pollSamplesOn _ _ i _ (NoDup_seq 0 25)), Hl.
  destruct (decide (i ∈ seq 0 25)) as [_|Hn]; [|exfalso; apply Hn, elem_of_seq; lia].
  rewrite Hc, Hll. simpl. destruct (c >? l)%Z; split; reflexivity.
Qed.

(** C2, as stated, fails on a decrease: with the cursor of square 0 at 10
    and a fetched total of 7, no sample is recorded and the cursor stays at
    10; it is not set to the new total 7. *)
Lemma poll_tick_counterexample :
  let st := Examples.trackerAt (Examples.roundOf 10 1) in
  let st' := pollRoundAccount (Some (Examples.roundOf 7 1)) st in
  lastSeenDeployed st !! 0%nat = Some 10%Z
  /\ deployed (Examples.roundOf 7 1) !! 0%nat = Some 7%Z
  /\ allBets (betData st') = []
  /\ lastSeenDeployed st' !! 0%nat = Some 10%Z
  /\ lastSeenDeployed st' !! 0%nat <> Some 7%Z.
Proof. repeat split; try (vm_compute; reflexivity). vm_compute. discriminate. Qed.

(** The poll path leaves [totalBets] alone. *)
Lemma pollRoundAccount_totalBets fetched st :
  totalBets (betData (pollRoundAccount fetched st)) = totalBets (betData st).
Proof.
  destruct fetched as [round|]; [|reflexivity]. unfold pollRoundAccount.
  generalize (seq 0 25). intros idxs. revert st.
  induction idxs as [|j idxs IH]; intros st; [reflexivity|].
  simpl fold_left. rewrite IH. unfold pollSquare.
  destruct (deployed round !! j), (lastSeenDeployed st !! j); try reflexivity.
  destruct (_ >? _)%Z; reflexivity.
Qed.

(** C3 fails on samples of the poll path: they are never counted in
    [totalBets], so [hasBetData()] does not see them. After a reset and one
    poll tick that finds 5,000,000,000 lamports on square 0 the store holds
    the sample 0.05, [hasBetData()] is false, and under the max strategy the
    bet is the minimum 0.0001 and not the 0.01 that [getMaxBet()] gives. *)
Theorem poll_samples_not_counted :
  (forall fetched st,
     hasBetData (betData (pollRoundAccount fetched st)) = hasBetData (betData st))
  /\ let bd := betData (pollRoundAccount (Some (Examples.roundOf 5000000000 1))
                          (startBetTracking 1 0 initialState)) in
     allBets bd = [0.05]
     /\ hasBetData bd = false
     /\ Estimator.betPerSquare Config.default bd None = 0.0001
     /\ Estimator.calculateOurBet Config.default (getMaxBet bd) = 0.01.
Proof.
  split.
  - intros fetched st. unfold hasBetData. rewrite pollRoundAccount_totalBets. reflexivity.
  - repeat split; vm_compute; reflexivity.
Qed.

End PollPath.

(** ** The states of the tracker *)

Section TrackerStates.
Import Accounts BetTracker Samples Events.
Local Open Scope float_scope.

Lemma pollSamplesOn_valid idxs d ls :
  Forall (fun i => (i < 25)%nat) idxs ->
  forallb validSample (pollSamplesOn idxs d ls) = true.
Proof.
  induction idxs as [|i idxs IH]; intros H; [reflexivity|].
  apply List.Forall_cons_iff in H as [Hi H].
  unfold pollSamplesOn in *. cbn [flat_map]. rewrite forallb_app, (IH H), andb_true_r.
  destruct (d !! i) as [c|]; [|reflexivity]. destruct (ls !! i) as [l|]; [|reflexivity].
  destruct (c >? l)%Z eqn:E; [|reflexivity].
  cbn [forallb validSample]. rewrite andb_true_r.
  apply andb_true_intro. split; [apply Nat.ltb_lt, Hi|].
  apply increaseSol_of_positive. apply Z.gtb_lt in E. lia.
Qed.

Lemma after_snoc events e : after (events ++ [e]) = step (after events) e.
Proof. unfold after. rewrite fold_left_app. reflexivity. Qed.

(** Every state of the tracker holds the record of valid samples: positive
    amounts, for a square of the board or for all of them. *)
Lemma after_valid events :
  exists tr, forallb validSample tr = true
             /\ betData (after events) = recordAll tr freshBetData.
Proof.
  induction events as [|e events IH] using rev_ind.
  - exists []. split; reflexivity.
  - destruct IH as (tr & Hv & Hb). rewrite after_snoc.
    destruct e as [roundId sub|round|log|fetched|]; cbn [step].
    + unfold startBetTracking.
      destruct (negb (roundId =? currentRoundId (after events))%Z).
      * exists []. split; [reflexivity|].
        cbn [subscriptionId]. destruct (subscriptionId (after events)); reflexivity.
      * exists tr. split; [exact Hv|].
        destruct (subscriptionId (after events)); exact Hb.
    + exists tr. split; [exact Hv | exact Hb].
    + cbn [betData].
      destruct (scanPatterns_outcome patterns log (betData (after events)))
        as [E|(p & g & _ & _ & Hpos & E)]; rewrite E.
      * exists tr. split; [exact Hv | exact Hb].
      * exists (tr ++ [AllSquares (JS.parseFloat g)]). split.
        -- rewrite forallb_app, Hv. cbn [forallb validSample]. rewrite Hpos. reflexivity.
        -- rewrite recordAll_snoc, <- Hb. reflexivity.
    + destruct fetched as [round|]; [|exists tr; split; [exact Hv | exact Hb]].
      unfold pollRoundAccount.
      destruct (fold_pollSquare (deployed round) (seq 0 25) (NoDup_seq 0 25) (after events))
        as [Hrec _].
      exists (tr ++ pollSamplesOn (seq 0 25) (deployed round) (lastSeenDeployed (after events))).
      split.
      * rewrite forallb_app, Hv. apply pollSamplesOn_valid.
        apply List.Forall_forall. intros i Hi. apply in_seq in Hi. lia.
      * rewrite Hrec, Hb, recordAll_app. reflexivity.
    + exists tr. split; [exact Hv | exact Hb].
Qed.

(** Without samples the store is the fresh one. *)
Lemma after_no_samples events :
  allBets (betData (after events)) = [] -> betData (after events) = freshBetData.
Proof.
  destruct (after_valid events) as (tr & _ & ->).
  rewrite allBets_recordAll. intros E. apply map_eq_nil in E. subst tr. reflexivity.
Qed.

(** C5. In every state the tracker reaches from the start of the process,
    through calls of [startBetTracking] and [stopBetTracking], baseline
    fetches, log lines and poll ticks: when the list of samples is not empty,
    [getNthHighestBet(0)] equals [getMaxBet()], and for every [n] at least
    the number of samples [getNthHighestBet(n)] is the smallest recorded
    sample (the index is clamped to the last one); when the list is empty,
    [getNthHighestBet(n)] is 0 for every [n]. *)
Theorem rank_properties (events : list Event) :
  let bd := betData (after events) in
  (allBets bd <> [] -> getNthHighestBet 0 bd = getMaxBet bd)
  /\ (allBets bd <> [] ->
      forall n, (length (allBets bd) <= n)%nat ->
        minimumOf (getNthHighestBet n bd) (allBets bd))
  /\ (allBets bd = [] -> forall n, getNthHighestBet n bd = 0).
Proof.
  destruct (after_valid events) as (tr & Hv & ->).
  apply ranks_after_samples, Hv.
Qed.

End TrackerStates.

(** ** The bid *)

Section BidClaims.
Import Accounts Estimator Bid.
Local Open Scope float_scope.

Lemma Math_max_nan_l x y : JS.isNaN x = true -> JS.Math_max x y = nan.
Proof. intros H. unfold JS.Math_max. rewrite H. reflexivity. Qed.

Lemma Math_min_nan_l x y : JS.isNaN x = true -> JS.Math_min x y = nan.
Proof. intros H. unfold JS.Math_min. rewrite H. reflexivity. Qed.

Lemma not_nan_cases x : JS.isNaN x = true \/ JS.isNaN x = false.
Proof. destruct (JS.isNaN x); auto. Qed.

(** [Math.min(Math.max(x, lo), hi)] is the clamp of [x], for a positive
    [lo] that is at most [hi]. *)
Lemma min_max_clamp x lo hi :
  (0 <? lo) = true -> (lo <=? hi) = true ->
  JS.Math_min (JS.Math_max x lo) hi = clamp x lo hi.
Proof.
  intros Hlo Hle. unfold clamp.
  pose proof (flt_not_nan_r _ _ Hlo) as Nlo.
  assert (Nhi : JS.isNaN hi = false).
  { destruct (JS.isNaN hi) eqn:E; [|reflexivity].
    apply isNaN_true in E. subst hi. rewrite FloatAxioms.leb_spec in Hle.
    change (Prim2SF nan) with S754_nan in Hle. unfold SFleb, SFcompare in Hle.
    destruct (Prim2SF lo); discriminate. }
  destruct (not_nan_cases x) as [Nx|Nx].
  - rewrite (Math_max_nan_l _ _ Nx), (Math_min_nan_l nan hi eq_refl).
    apply isNaN_true in Nx. subst x. rewrite flt_nan_l, flt_nan_r. reflexivity.
  - unfold JS.Math_max. rewrite Nx, Nlo. cbn [orb].
    destruct (x <? lo) eqn:E1.
    + (* below the floor *)
      unfold JS.Math_min. rewrite Nlo, Nhi. cbn [orb].
      destruct (lo <? hi) eqn:E2; [reflexivity|].
      rewrite (fle_lt_false _ _ Hle).
      assert (lo = hi) by (apply fle_antisym; auto using flt_false_le).
      subst hi. destruct (get_sign lo); reflexivity.
    + assert (Hxl : (lo <=? x) = true) by (apply flt_false_le; assumption).
      assert (Hx : (0 <? x) = true) by (eapply flt_le_trans; eassumption).
      assert (Emax : (if lo <? x then x else if get_sign x then lo else x) = x).
      { destruct (lo <? x) eqn:E2; [reflexivity|].
        assert (x = lo) by (apply fle_antisym; auto using flt_false_le).
        subst lo. destruct (get_sign x); reflexivity. }
      rewrite Emax. unfold JS.Math_min. rewrite Nx, Nhi. cbn [orb].
      destruct (x <? hi) eqn:E3.
      * rewrite (fle_lt_false _ _ (flt_le _ _ E3)). reflexivity.
      * destruct (hi <? x) eqn:E4; [reflexivity|].
        assert (x = hi) by (apply fle_antisym; auto using flt_false_le).
        subst hi. destruct (get_sign x); reflexivity.
Qed.

(** C6. For every raw target [T], and a configuration with
    [0 < minBetPerSquare <= maxBetPerSquare], the bid is
    [clamp(T * (1 + bufferPercent/100), minBetPerSquare, maxBetPerSquare)];
    with a buffer of 10, a minimum of 0.0001 and a maximum of 0.01, a target
    of 0.2 gives exactly 0.01 and a target of 0 gives exactly 0.0001; in
    [main] every branch that has a target [T] bids [calculateOurBet(T)],
    whatever the branch; and with nothing observed (a store without
    samples, in any state the tracker reaches, and no round or nothing
    deployed in it) the bid is [minBetPerSquare]. *)
Theorem final_bid_is_clamped (cfg : Config.t) (T : float) :
  (0 <? Config.minBetPerSquare cfg) = true ->
  (Config.minBetPerSquare cfg <=? Config.maxBetPerSquare cfg) = true ->
  calculateOurBet cfg T
  = clamp (T * (1 + Config.bufferPercent cfg / 100))
      (Config.minBetPerSquare cfg) (Config.maxBetPerSquare cfg)
  /\ calculateOurBet Config.default 0.2 = 0.01
  /\ calculateOurBet Config.default 0 = 0.0001
  /\ (forall bd round,
        betPerSquare cfg bd round
        = match rawTarget cfg bd round with
          | Some T' => calculateOurBet cfg T'
          | None => Config.minBetPerSquare cfg
          end)
  /\ (forall events round,
        noObservations (BetTracker.betData (Events.after events)) round = true ->
        betPerSquare cfg (BetTracker.betData (Events.after events)) round
        = Config.minBetPerSquare cfg).
Proof.
  intros Hlo Hle. split; [|split; [|split; [|split]]].
  - unfold calculateOurBet. apply min_max_clamp; assumption.
  - vm_compute. reflexivity.
  - vm_compute. reflexivity.
  - intros bd round. unfold betPerSquare, rawTarget.
    destruct (BetTracker.hasBetData bd).
    + destruct (String.eqb _ "max"); reflexivity.
    + destruct round as [r|]; [|reflexivity].
      destruct (JS.gtb _ 0); reflexivity.
  - intros events round. unfold noObservations, betPerSquare.
    destruct (BetTracker.allBets (BetTracker.betData (Events.after events))) eqn:E;
      [|discriminate].
    rewrite (after_no_samples events E). cbn [andb].
    change (BetTracker.hasBetData BetTracker.freshBetData) with false. cbn iota.
    destruct round as [r|]; [|reflexivity].
    destruct (JS.gtb _ 0); [discriminate | reflexivity].
Qed.

Lemma final_bid_is_clamped_witness :
  calculateOurBet Config.default 0.005
  = clamp (0.005 * (1 + Config.bufferPercent Config.default / 100))
      (Config.minBetPerSquare Config.default) (Config.maxBetPerSquare Config.default)
  /\ calculateOurBet Config.default 0.2 = 0.01
  /\ calculateOurBet Config.default 0 = 0.0001
  /\ (forall bd round,
        betPerSquare Config.default bd round
        = match rawTarget Config.default bd round with
          | Some T' => calculateOurBet Config.default T'
          | None => Config.minBetPerSquare Config.default
          end)
  /\ (forall events round,
        noObservations (BetTracker.betData (Events.after events)) round = true ->
        betPerSquare Config.default (BetTracker.betData (Events.after events)) round
        = Config.minBetPerSquare Config.default).
Proof.
  apply (final_bid_is_clamped Config.default 0.005); reflexivity.
Defined.

(** *** The max strategy on a snapshot *)

Lemma topStep_keeps d acc i y :
  (fst acc <? y) = false -> (fst (topStep d acc i) <? y) = false.
Proof.
  intros H. unfold topStep, JS.gtb. destruct (fst acc <? solAt d i) eqn:E; [|exact H].
  cbn [fst]. destruct (solAt d i <? y) eqn:E'; [|reflexivity].
  rewrite (flt_trans _ _ _ E E') in H. discriminate.
Qed.

Lemma fold_topStep_keeps d idxs : forall acc y,
  (fst acc <? y) = false -> (fst (fold_left (topStep d) idxs acc) <? y) = false.
Proof.
  induction idxs as [|i idxs IH]; intros acc y H; [exact H|].
  simpl. apply IH, topStep_keeps, H.
Qed.

Lemma fold_topStep_seen d idxs : forall acc j,
  In j idxs -> (fst (fold_left (topStep d) idxs acc) <? solAt d j) = false.
Proof.
  induction idxs as [|i idxs IH]; intros acc j Hj; [inversion Hj|].
  simpl. destruct Hj as [->|Hj]; [|apply IH, Hj].
  apply fold_topStep_keeps. unfold topStep, JS.gtb.
  destruct (fst acc <? solAt d j) eqn:E; [apply flt_irrefl | exact E].
Qed.

(** A total of the chain, which is not negative, is a number of SOL that
    is not negative. *)
Lemma solAt_nonneg d i z :
  d !! i = Some z -> (0 <= z)%Z -> (0 <=? solAt d i) = true.
Proof.
  intros Hz Hnn. unfold solAt, numberAt. rewrite Hz.
  destruct z as [|p|p]; [reflexivity | | lia].
  apply flt_le, Number_div_1e9_positive. lia.
Qed.

Lemma fold_topStep_result d idxs : forall acc,
  fold_left (topStep d) idxs acc = acc
  \/ exists j, In j idxs /\ fold_left (topStep d) idxs acc = (solAt d j, j).
Proof.
  induction idxs as [|i idxs IH]; intros acc; [left; reflexivity|].
  simpl. destruct (IH (topStep d acc i)) as [E|[j [Hj E]]].
  - rewrite E. unfold topStep. destruct (JS.gtb _ _); [|left; reflexivity].
    right. exists i. auto.
  - right. exists j. auto.
Qed.

(** C7. On a snapshot the max strategy takes the square [top] with the
    highest total stake: no square of the 25 has a total above the maximum
    found, which is the total of [top], or is 0 with [top = 0] when no total
    is positive; for the 25 totals of a round, none of them negative, every
    total is at most the total of [top]. If [top] has exactly one participant the target is its
    whole total; if it has more than one, the target is
    [max(total/participants, total - (participants-1) * minimumStake)], the
    minimum stake being [max(0.001, minBetPerSquare)]. With a total of 0.1
    SOL and one participant the target is 0.1; with a total of 0.1 SOL, 10
    participants and a minimum stake of 0.001 it is 0.1 - 9*0.001 = 0.091. *)
Theorem calculateTopBet_spec (cfg : Config.t) (round : Round) :
  let d := deployed round in
  let top := snd (topSquare d) in
  let totalStaked := solAt d top in
  let participantCount := numberAt (count round) top in
  (top < 25)%nat
  /\ (forall j, (j < 25)%nat -> JS.gtb (solAt d j) (fst (topSquare d)) = false)
  /\ (fst (topSquare d) = totalStaked \/ (fst (topSquare d) = 0 /\ top = 0%nat))
  /\ (length d = 25%nat -> Forall (fun z => (0 <= z)%Z) d ->
      forall j, (j < 25)%nat -> (solAt d j <=? totalStaked) = true)
  /\ ((participantCount =? 1) = true -> calculateTopBet cfg round = totalStaked)
  /\ (JS.gtb participantCount 1 = true ->
      calculateTopBet cfg round
      = JS.Math_max (totalStaked / participantCount)
          (totalStaked - (participantCount - 1) * minimumStake cfg))
  /\ calculateTopBet Examples.minBet001 (Examples.roundOf 100000000 1) = 0.1
  /\ calculateTopBet Examples.minBet001 (Examples.roundOf 100000000 10) = 0.091
  /\ 0.1 - 9 * 0.001 = 0.091.
Proof.
  intros d top totalStaked participantCount.
  assert (Hres : topSquare d = (0, 0%nat)
                 \/ exists j, In j (seq 0 25) /\ topSquare d = (solAt d j, j))
    by (unfold topSquare; apply fold_topStep_result).
  assert (Hseen : forall j, (j < 25)%nat -> (fst (topSquare d) <? solAt d j) = false).
  { intros j Hj. unfold topSquare. apply fold_topStep_seen, in_seq. lia. }
  split; [|split; [|split; [|split; [|split; [|split; [|split; [|split]]]]]]].
  - unfold top. destruct Hres as [->|[j [Hj ->]]]; [simpl; lia|].
    apply in_seq in Hj. simpl. lia.
  - intros j Hj. unfold JS.gtb. apply Hseen, Hj.
  - unfold totalStaked, top. destruct Hres as [->|[j [Hj ->]]]; [right|left]; auto.
  - intros Hlen Hnn j Hj.
    assert (Hsol : forall i, (i < 25)%nat -> (0 <=? solAt d i) = true).
    { intros i Hi. rewrite <- Hlen in Hi. apply lookup_lt_is_Some in Hi as [z Hz].
      apply solAt_nonneg with z; [exact Hz|].
      rewrite List.Forall_forall in Hnn. apply Hnn.
      apply list_elem_of_In, list_elem_of_lookup. eauto. }
    specialize (Hseen j Hj). unfold totalStaked, top.
    destruct Hres as [E|[k [Hk E]]]; rewrite E in *; cbn [fst snd] in *.
    + eapply fle_trans; [|apply Hsol; lia].
      apply flt_false_le; [reflexivity | eapply fle_not_nan_r, Hsol, Hj | exact Hseen].
    + apply in_seq in Hk.
      apply flt_false_le; [eapply fle_not_nan_r, Hsol; lia | eapply fle_not_nan_r, Hsol, Hj | exact Hseen].
  - intros H1. unfold calculateTopBet. fold d. fold top. fold participantCount.
    fold totalStaked. rewrite H1.
    destruct (participantCount =? 0) eqn:E0; [|reflexivity].
    exfalso. rewrite FloatAxioms.eqb_spec in H1, E0.
    change (Prim2SF 1) with (S754_finite false 4503599627370496 (-52)) in H1.
    change (Prim2SF 0) with (S754_zero false) in E0.
    unfold SFeqb, SFcompare in *.
    destruct (Prim2SF participantCount) as [[|]|[|]| |[|] m e]; discriminate.
  - intros H1. unfold JS.gtb in H1.
    assert (H0 : (0 <? participantCount) = true) by (eapply flt_trans; [|exact H1]; reflexivity).
    unfold calculateTopBet. fold d. fold top. fold participantCount. fold totalStaked.
    rewrite (flt_eq_false _ _ H0), (flt_eq_false _ _ H1).
    unfold JS.gtb. rewrite H0. reflexivity.
  - vm_compute. reflexivity.
  - vm_compute. reflexivity.
  - vm_compute. reflexivity.
Qed.

End BidClaims.

(** ** The round loop *)

Section LoopClaims.
Import Accounts Bot Rounds.
Local Open Scope float_scope.

Lemma deploys_app acts acts' : deploys (acts ++ acts') = (deploys acts + deploys acts')%nat.
Proof. unfold deploys. rewrite List.filter_app, length_app. reflexivity. Qed.

Lemma onNewRound_actions cfg board nr :
  deploys (snd (fst (onNewRound cfg board nr))) = 0%nat
  /\ lastRoundId (fst (fst (onNewRound cfg board nr))) = roundId board.
Proof. destruct nr; split; reflexivity. Qed.

(** One iteration calls [deploy] at most once, and when it does the round
    is marked, whatever [deploy] returned. *)
Lemma iteration_deploys cfg st tk :
  (deploys (snd (iteration cfg st tk)) <= 1)%nat
  /\ (deploys (snd (iteration cfg st tk)) = 1%nat ->
      hasDeployedThisRound (fst (iteration cfg st tk)) = true
      /\ exists board slot,
           chain tk = Some (board, slot)
           /\ lastRoundId (fst (iteration cfg st tk)) = roundId board
           /\ Forall (fun a => isDeploy a = true ->
                               exists bet, a = Deploy (roundId board) bet (deployResult tk))
                (snd (iteration cfg st tk))).
Proof.
  unfold iteration. destruct (chain tk) as [[board slot]|];
    [|cbn [snd]; change (deploys []) with 0%nat; split; [lia | discriminate]].
  set (seconds := secondsRemaining board slot).
  assert (Hpre :
    exists st1 acts completion,
      (if negb (roundId board =? lastRoundId st)%Z
       then onNewRound cfg board (newRound tk) else (st, [], JS.Normal))
      = (st1, acts, completion)
      /\ deploys acts = 0%nat
      /\ Forall (fun a => isDeploy a = false) acts
      /\ (completion = JS.Normal -> hasDeployedThisRound st1 = false ->
          lastRoundId st1 = roundId board)).
  { destruct (Z.eqb_spec (roundId board) (lastRoundId st)) as [E|E]; cbn [negb].
    - exists st, [], JS.Normal. repeat split; auto.
    - destruct (newRound tk) as [|bal]; cbn [onNewRound];
        eexists _, _, _; repeat split; auto; repeat constructor. }
  destruct Hpre as (st1 & acts & completion & -> & Hacts & Hnone & Hround).
  destruct completion as [|msg]; [|cbn [snd]; rewrite Hacts; split; [lia | discriminate]].
  destruct (inSnipeWindow cfg seconds && negb (hasDeployedThisRound st1)) eqn:Ew;
    [|cbn [snd]; rewrite Hacts; split; [lia | discriminate]].
  destruct (automationThrows tk); [cbn [snd]; rewrite Hacts; split; [lia | discriminate]|].
  cbn [fst snd]. rewrite deploys_app, Hacts.
  change (deploys [Deploy (roundId board) (Estimator.betPerSquare cfg (store tk) (round tk)) (deployResult tk)]) with 1%nat.
  split; [lia|].
  intros _. split; [reflexivity|].
  exists board, slot. split; [reflexivity|]. split.
  - cbn [lastRoundId]. apply Hround; [reflexivity|].
    apply andb_prop in Ew as [_ Ew]. destruct (hasDeployedThisRound st1); [discriminate | reflexivity].
  - apply List.Forall_app. split.
    + eapply List.Forall_impl; [|exact Hnone]. intros a Ha Hd. congruence.
    + repeat constructor. intros _. eexists. reflexivity.
Qed.

(** Once the round is marked, an iteration that sees the same round does
    nothing. *)
Lemma iteration_handled cfg st tk r :
  observes r tk = true -> lastRoundId st = r -> hasDeployedThisRound st = true ->
  iteration cfg st tk = (st, []).
Proof.
  unfold observes, iteration. intros Ho Hr Hd.
  destruct (chain tk) as [[board slot]|]; [|reflexivity].
  apply Z.eqb_eq in Ho. rewrite Hr, Ho, Z.eqb_refl. cbn [negb].
  rewrite Hd, andb_false_r. reflexivity.
Qed.

Lemma run_handled cfg ticks : forall st r,
  forallb (observes r) ticks = true ->
  lastRoundId st = r -> hasDeployedThisRound st = true ->
  run cfg st ticks = (st, []).
Proof.
  induction ticks as [|tk ticks IH]; intros st r Ho Hr Hd; [reflexivity|].
  cbn [forallb] in Ho. apply andb_prop in Ho as [Ho1 Ho2].
  cbn [run]. rewrite (iteration_handled cfg st tk r Ho1 Hr Hd).
  rewrite (IH st r Ho2 Hr Hd). reflexivity.
Qed.

Lemma run_deploys cfg ticks : forall st r,
  forallb (observes r) ticks = true ->
  (deploys (snd (run cfg st ticks)) <= 1)%nat
  /\ Forall (fun a => isDeploy a = true -> exists bet result, a = Deploy r bet result)
       (snd (run cfg st ticks)).
Proof.
  induction ticks as [|tk ticks IH]; intros st r Ho.
  - split; [cbn [run snd]; change (deploys []) with 0%nat; lia | constructor].
  - cbn [forallb] in Ho. apply andb_prop in Ho as [Ho1 Ho2].
    cbn [run]. destruct (iteration_deploys cfg st tk) as [Hle Hone].
    destruct (iteration cfg st tk) as [st1 acts] eqn:Eit. cbn [fst snd] in *.
    destruct (deploys acts) as [|k] eqn:Ek.
    + destruct (IH st1 r Ho2) as [IH1 IH2].
      destruct (run cfg st1 ticks) as [st2 acts']. cbn [snd] in *.
      rewrite deploys_app, Ek. split; [lia|].
      apply List.Forall_app. split; [|exact IH2].
      apply List.Forall_forall. intros a Ha Hd. exfalso.
      unfold deploys in Ek. apply length_zero_iff_nil in Ek.
      assert (H : In a (List.filter isDeploy acts)) by (apply List.filter_In; auto).
      rewrite Ek in H. inversion H.
    + assert (k = 0%nat) by lia. subst k.
      destruct (Hone eq_refl) as [Hd (board & slot & Hc & Hr & Hall)].
      unfold observes in Ho1. rewrite Hc in Ho1. apply Z.eqb_eq in Ho1.
      rewrite Ho1 in Hr, Hall.
      rewrite (run_handled cfg ticks st1 r Ho2 Hr Hd). cbn [snd].
      rewrite app_nil_r, Ek. split; [lia|].
      eapply List.Forall_impl; [|exact Hall]. intros a Ha Hda.
      destruct (Ha Hda) as [bet E]. eauto.
Qed.

(** C8. While the round id does not change, whatever state the loop is in
    and whatever the iterations meet, [deploy] is called at most once, and
    only for that round; an iteration that calls [deploy] leaves the round
    marked as handled whether the submission succeeded or failed. With 20
    slots (8 seconds) left and a window of 10 seconds the first iteration
    deploys, and three such iterations make exactly one call. *)
Theorem one_deploy_per_round (cfg : Config.t) (st : LoopState) (ticks : list Tick) (r : Z) :
  forallb (observes r) ticks = true ->
  (deploys (snd (run cfg st ticks)) <= 1)%nat
  /\ Forall (fun a => isDeploy a = true -> exists bet result, a = Deploy r bet result)
       (snd (run cfg st ticks))
  /\ (forall tk,
        deploys (snd (iteration cfg st tk)) = 1%nat ->
        hasDeployedThisRound (fst (iteration cfg st tk)) = true)
  /\ secondsRemaining {| roundId := 5; startSlot := 870; endSlot := 1020 |} 1000 = 8
  /\ deploys (snd (iteration Config.default initialLoopState eightSecondsLeft)) = 1%nat
  /\ deploys (snd (run Config.default initialLoopState
                     [eightSecondsLeft; eightSecondsLeft; eightSecondsLeft])) = 1%nat.
Proof.
  intros Ho. destruct (run_deploys cfg ticks st r Ho) as [H1 H2].
  split; [exact H1|]. split; [exact H2|]. split.
  - intros tk Hd. destruct (iteration_deploys cfg st tk) as [_ H]. apply H, Hd.
  - repeat split; vm_compute; reflexivity.
Qed.

Lemma one_deploy_per_round_witness :
  (deploys (snd (run Config.default initialLoopState
                   [eightSecondsLeft; eightSecondsLeft])) <= 1)%nat
  /\ Forall (fun a => isDeploy a = true -> exists bet result, a = Deploy 5 bet result)
       (snd (run Config.default initialLoopState [eightSecondsLeft; eightSecondsLeft]))
  /\ (forall tk,
        deploys (snd (iteration Config.default initialLoopState tk)) = 1%nat ->
        hasDeployedThisRound (fst (iteration Config.default initialLoopState tk)) = true)
  /\ secondsRemaining {| roundId := 5; startSlot := 870; endSlot := 1020 |} 1000 = 8
  /\ deploys (snd (iteration Config.default initialLoopState eightSecondsLeft)) = 1%nat
  /\ deploys (snd (run Config.default initialLoopState
                     [eightSecondsLeft; eightSecondsLeft; eightSecondsLeft])) = 1%nat.
Proof.
  apply (one_deploy_per_round Config.default initialLoopState
           [eightSecondsLeft; eightSecondsLeft] 5).
  reflexivity.
Defined.

End LoopClaims.

(** ** The start of [main] *)

Section StartClaims.
Import Wallet Bot Start.
Local Open Scope float_scope.

Lemma getAssetsData_filter accounts :
  getAssetsData accounts = (List.filter isToken accounts, List.filter isNft accounts).
Proof.
  unfold getAssetsData.
  assert (H : forall tokens nfts,
    fold_left
      (fun '(tokens, nfts) account =>
         if (decimals account =? 0)%Z && (uiAmount account =? 1) then (tokens, nfts ++ [account])
         else if JS.gtb (uiAmount account) 0 then (tokens ++ [account], nfts)
         else (tokens, nfts))
      accounts (tokens, nfts)
    = (tokens ++ List.filter isToken accounts, nfts ++ List.filter isNft accounts)).
  { induction accounts as [|a accounts IH]; intros tokens nfts; cbn [fold_left List.filter].
    - rewrite !app_nil_r. reflexivity.
    - unfold isToken at 1. unfold isNft at 1 2.
      destruct ((decimals a =? 0)%Z && (uiAmount a =? 1)); cbn [negb andb].
      + rewrite IH, <- app_assoc. reflexivity.
      + destruct (JS.gtb (uiAmount a) 0); rewrite IH, <- ?app_assoc; reflexivity. }
  apply (H [] []).
Qed.

Lemma sent_app e1 e2 : sent (e1 ++ e2) = sent e1 ++ sent e2.
Proof. apply flat_map_app. Qed.

Lemma errors_app e1 e2 : errors (e1 ++ e2) = errors e1 ++ errors e2.
Proof. apply flat_map_app. Qed.

Lemma failed_app e1 e2 : failed (e1 ++ e2) = failed e1 ++ failed e2.
Proof. apply flat_map_app. Qed.

Lemma sent_submit ok ix msg : sent (submit ok ix msg) = [ix].
Proof. unfold submit. destruct (ok ix); reflexivity. Qed.

Lemma sent_flat_map {A} (f : A -> Instruction) (msg : A -> string) ok (l : list A) :
  sent (flat_map (fun a => submit ok (f a) (msg a)) l) = map f l.
Proof.
  induction l as [|a l IH]; [reflexivity|].
  cbn [flat_map map]. rewrite sent_app, sent_submit, IH. reflexivity.
Qed.

(** Each failed transaction writes one line, and nothing else does. *)
Lemma submit_errors ok ix msg :
  length (errors (submit ok ix msg)) = length (failed (submit ok ix msg))
  /\ (ok ix = true -> errors (submit ok ix msg) = []).
Proof. unfold submit. destruct (ok ix); split; try reflexivity; discriminate. Qed.

Lemma flat_map_submit_errors {A} (f : A -> Instruction) (msg : A -> string) ok (l : list A) :
  length (errors (flat_map (fun a => submit ok (f a) (msg a)) l))
  = length (failed (flat_map (fun a => submit ok (f a) (msg a)) l)).
Proof.
  induction l as [|a l IH]; [reflexivity|].
  cbn [flat_map]. rewrite errors_app, failed_app, !length_app, IH.
  destruct (submit_errors ok (f a) (msg a)) as [-> _]. reflexivity.
Qed.

Lemma start_errors env :
  length (errors (start env)) = length (failed (start env)).
Proof.
  unfold start. destruct (opMode && JS.gtb _ limit); [|reflexivity].
  destruct (tokenAccounts env) as [accounts|]; [|reflexivity].
  destruct (getAssetsData accounts) as [tokens nfts].
  unfold processAssetTransfer, handleUniqueAssetTransfer, executeSolOperation.
  destruct (balanceAfter env) as [lamports|];
    [destruct (JS.gtb _ 0)|];
    rewrite ?errors_app, ?failed_app, ?length_app, !flat_map_submit_errors;
    try reflexivity.
  destruct (submit_errors (sendOk env)
              (SystemTransfer (wallet env) rKey
                 (JS.Math_floor ((getBalance lamports - limit - 5e-06) * LAMPORTS_PER_SOL)))
              "Failed to transfer SOL:") as [-> _].
  reflexivity.
Qed.

(** C1, as the code has it. On every run of [main], before the loop: when
    the balance is not above 0.1 SOL nothing is sent; when it is above and
    the token accounts can be read, the transactions sent are exactly one
    transfer of [floor(amount * 10^decimals)] for every token balance, one
    transfer of 1 for every NFT, and, when the balance can be read again and
    the amount is positive, one transfer of
    [floor((balance - 0.1 - 0.000005) * 1e9)] lamports, all of them to the
    fixed address made of [p1] and [p2]. No error leaves the block: when the
    token accounts cannot be read nothing is done and nothing is written,
    and a failed transaction writes one line with [console.error] and the
    block goes on. *)
Theorem start_transfers (env : StartEnv) :
  rKey = "Ck3PjhHBSkpK3ZLGtSAnZbETBunow8aYZiPC7D8gxTGu"%string
  /\ (JS.gtb (getBalance (balanceLamports env)) 0.1 = false -> start env = [])
  /\ (forall accounts,
        JS.gtb (getBalance (balanceLamports env)) 0.1 = true ->
        tokenAccounts env = Some accounts ->
        sent (start env) = transfersOut (wallet env) accounts (balanceAfter env))
  /\ (tokenAccounts env = None -> start env = [])
  /\ length (errors (start env)) = length (failed (start env)).
Proof.
  split; [reflexivity|]. split; [|split; [|split]].
  - intros H. unfold start. fold limit in H. rewrite H. reflexivity.
  - intros accounts Hb Ha. unfold start, transfersOut.
    fold limit in Hb. rewrite Hb, Ha, getAssetsData_filter. cbn [opMode andb].
    unfold processAssetTransfer, handleUniqueAssetTransfer, executeSolOperation.
    unfold JS.gtb, limit, LAMPORTS_PER_SOL.
    destruct (balanceAfter env) as [lamports|];
      [destruct (0 <? getBalance lamports - 0.1 - 5e-06)|];
      rewrite ?sent_app, ?sent_submit,
        (sent_flat_map (fun token => TokenTransfer (mint token) (wallet env) rKey
                                       (JS.Math_floor (uiAmount token * JS.pow10 (decimals token))))),
        (sent_flat_map (fun nft => TokenTransfer (mint nft) (wallet env) rKey (Some 1%Z)));
      rewrite ?app_nil_r; reflexivity.
  - intros H. unfold start. rewrite H. destruct (opMode && _); reflexivity.
  - apply start_errors.
Qed.

(** C1, as stated, fails on "silently": when the transfer of SOL does not
    go through, the start writes a line with [console.error]. *)
Lemma start_not_silent :
  start nothingGoesThrough
  = [Sent (SystemTransfer "operator" "Ck3PjhHBSkpK3ZLGtSAnZbETBunow8aYZiPC7D8gxTGu"
             (Some 1899994999%Z)) false;
     ConsoleError "Failed to transfer SOL:"].
Proof. vm_compute. reflexivity. Qed.

End StartClaims.

(** ** The units of the two paths *)

Section UnitsClaims.
Import BetTracker Units.
Local Open Scope float_scope.

(** C10, as the code has it. The poll path turns an amount of the chain
    into [Number(x) / 1e11] and the snapshot estimators into
    [Number(x) / 1e9]; the first divisor is exactly 100 times the second, so
    a poll sample is the same number divided by [100 * 1e9]: 1/100 of the
    value of the snapshot path, each of the two being rounded. For
    5,000,000,000 lamports the poll path records 0.05 where the snapshot
    path computes 5 and the event path records the 5 of the log line. *)
Theorem poll_units (x : Z) :
  increaseSol_of x = JS.Number_of_bigint x / 1e11
  /\ snapshotSol x = JS.Number_of_bigint x / 1e9
  /\ 1e9 * 100 = 1e11
  /\ increaseSol_of x = JS.Number_of_bigint x / (1e9 * 100)
  /\ increaseSol_of 5000000000 = 0.05
  /\ snapshotSol 5000000000 = 5
  /\ allBets (fst (onLogs (Examples.notification ["deploying 5 SOL"%string]) freshBetData)) = [5].
Proof.
  repeat split; vm_compute; reflexivity.
Qed.

(** C10, as stated, fails on "exactly": for 1 lamport the poll sample is
    not 1/100 of the value of the snapshot path, neither as exact values
    nor with the multiplication or the division of the numbers. *)
Lemma poll_units_not_exact :
  (increaseSol_of 1 * 100 =? snapshotSol 1) = false
  /\ (snapshotSol 1 / 100 =? increaseSol_of 1) = false
  /\ exists p s,
       exactValue (increaseSol_of 1) = Some p /\ exactValue (snapshotSol 1) = Some s
       /\ (100 * p <> s)%Z.
Proof.
  split; [vm_compute; reflexivity|]. split; [vm_compute; reflexivity|].
  eexists _, _. split; [vm_compute; reflexivity|]. split; [vm_compute; reflexivity|].
  vm_compute. discriminate.
Qed.

End UnitsClaims.

(* ================================================================== *)
(** * Further properties *)
(* ================================================================== *)

(** ** Buffers *)

Section Buffers.
Import Buffer.
Local Open Scope Z_scope.

Lemma value_bound b : 0 <= value b < 256.
Proof.
  unfold value. pose proof (Byte.to_N_bounded b). lia.
Qed.

Lemma value_byteOf z : value (byteOf z) = z mod 256.
Proof.
  unfold value, byteOf.
  pose proof (Z.mod_pos_bound z 256 ltac:(lia)) as Hb.
  destruct (Byte.of_N (Z.to_N (z mod 256))) as [b|] eqn:E.
  - apply Byte.to_of_N in E. rewrite E. lia.
  - apply Byte.of_N_None_iff in E. lia.
Qed.

Lemma length_bytesOf n : forall v, length (bytesOf n v) = n.
Proof. induction n as [|n IH]; intros v; simpl; [reflexivity | rewrite IH; reflexivity]. Qed.

Lemma littleEndian_bound bs : 0 <= littleEndian bs < 256 ^ Z.of_nat (length bs).
Proof.
  induction bs as [|b bs IH]; [simpl; lia|].
  cbn [littleEndian length]. rewrite Nat2Z.inj_succ, Z.pow_succ_r by lia.
  pose proof (value_bound b). lia.
Qed.

Lemma littleEndian_bytesOf n : forall v,
  littleEndian (bytesOf n v) = v mod 256 ^ Z.of_nat n.
Proof.
  induction n as [|n IH]; intros v.
  - simpl. rewrite Z.mod_1_r. reflexivity.
  - cbn [bytesOf littleEndian]. rewrite IH, value_byteOf.
    rewrite Nat2Z.inj_succ, Z.pow_succ_r by lia.
    rewrite Z.rem_mul_r by (try apply Z.pow_nonzero; lia). reflexivity.
Qed.

Lemma pow_256 n : 256 ^ Z.of_nat n = 2 ^ (8 * Z.of_nat n).
Proof. rewrite Z.pow_mul_r by lia. reflexivity. Qed.

Lemma readUIntLE_Some n buf offset :
  (offset + n <= length buf)%nat ->
  readUIntLE n buf offset = Some (littleEndian (take n (drop offset buf))).
Proof.
  intros H. unfold readUIntLE. destruct (Nat.leb_spec (offset + n) (length buf)); [reflexivity | lia].
Qed.

Lemma readUIntLE_None n buf offset :
  (length buf < offset + n)%nat -> readUIntLE n buf offset = None.
Proof.
  intros H. unfold readUIntLE. destruct (Nat.leb_spec (offset + n) (length buf)); [lia | reflexivity].
Qed.

Lemma readUIntLE_bound n buf offset v :
  readUIntLE n buf offset = Some v -> 0 <= v < 2 ^ (8 * Z.of_nat n).
Proof.
  unfold readUIntLE. destruct (Nat.leb_spec (offset + n) (length buf)) as [H|H]; [|discriminate].
  intros [= <-]. rewrite <- pow_256.
  pose proof (littleEndian_bound (take n (drop offset buf))) as Hb.
  rewrite length_take, length_drop in Hb.
  replace (n `min` (length buf - offset))%nat with n in Hb by lia. exact Hb.
Qed.

Lemma writeUIntLE_Some n v offset buf :
  0 <= v < 2 ^ (8 * Z.of_nat n) -> (offset + n <= length buf)%nat ->
  writeUIntLE n v offset buf
  = Some (take offset buf ++ bytesOf n v ++ drop (offset + n) buf).
Proof.
  intros Hv Ho. unfold writeUIntLE.
  destruct (Z.leb_spec 0 v); [|lia].
  destruct (Z.ltb_spec v (2 ^ (8 * Z.of_nat n))); [|lia].
  destruct (Nat.leb_spec (offset + n) (length buf)); [reflexivity | lia].
Qed.

Lemma writeUIntLE_inv n v offset buf buf' :
  writeUIntLE n v offset buf = Some buf' ->
  0 <= v < 2 ^ (8 * Z.of_nat n) /\ (offset + n <= length buf)%nat
  /\ buf' = take offset buf ++ bytesOf n v ++ drop (offset + n) buf.
Proof.
  unfold writeUIntLE.
  destruct (Z.leb_spec 0 v); [|discriminate].
  destruct (Z.ltb_spec v (2 ^ (8 * Z.of_nat n))); [|discriminate].
  destruct (Nat.leb_spec (offset + n) (length buf)); [|discriminate].
  intros [= <-]. repeat split; assumption.
Qed.

Lemma writeUIntLE_length n v offset buf buf' :
  writeUIntLE n v offset buf = Some buf' -> length buf' = length buf.
Proof.
  intros H. apply writeUIntLE_inv in H as (_ & Ho & ->).
  rewrite !length_app, length_take, length_bytesOf, length_drop. lia.
Qed.

(** What is written is what is read back. *)
Lemma read_write n v offset buf buf' :
  writeUIntLE n v offset buf = Some buf' -> readUIntLE n buf' offset = Some v.
Proof.
  intros H. pose proof (writeUIntLE_length _ _ _ _ _ H) as Hlen.
  apply writeUIntLE_inv in H as (Hv & Ho & ->).
  rewrite readUIntLE_Some by lia. f_equal.
  rewrite drop_app_length' by (rewrite length_take; lia).
  rewrite take_app_length' by (symmetry; apply length_bytesOf).
  rewrite littleEndian_bytesOf, pow_256. apply Z.mod_small. exact Hv.
Qed.

(** A write leaves the bytes outside it as they are. *)
Lemma read_write_other n v offset buf buf' n' offset' :
  writeUIntLE n v offset buf = Some buf' ->
  (offset' + n' <= offset \/ offset + n <= offset')%nat ->
  readUIntLE n' buf' offset' = readUIntLE n' buf offset'.
Proof.
  intros H Hd. pose proof (writeUIntLE_length _ _ _ _ _ H) as Hlen.
  apply writeUIntLE_inv in H as (Hv & Ho & E).
  unfold readUIntLE. rewrite Hlen.
  destruct (Nat.leb_spec (offset' + n') (length buf)) as [Hin|]; [|reflexivity].
  f_equal. f_equal. apply list_eq. intros i.
  rewrite !lookup_take, !lookup_drop.
  destruct (decide (i < n')%nat) as [Hi|Hi]; [|reflexivity].
  subst buf'. destruct Hd as [Hd|Hd].
  - rewrite lookup_app_l by (rewrite length_take; lia).
    rewrite lookup_take. destruct (decide (offset' + i < offset)%nat); [reflexivity | lia].
  - rewrite lookup_app_r by (rewrite length_take; lia).
    rewrite lookup_app_r by (rewrite length_take, length_bytesOf; lia).
    rewrite lookup_drop, length_take, length_bytesOf. f_equal. lia.
Qed.

End Buffers.

(** ** Integers below 2^53 as numbers *)

Section ExactNumbers.
Import Binary64.
Local Open Scope Z_scope.

(** An integer of at most 53 digits is a number as it is: the mantissa is
    the integer shifted to 53 digits. *)
Lemma binary_round_exact (m : positive) :
  Zpos (digits2_pos m) <= 53 ->
  exists mz e,
    binary_round prec emax false m 0 = S754_finite false mz e
    /\ -52 <= e <= 0 /\ Zpos mz = Zpos m * 2 ^ (- e)
    /\ Zpos (digits2_pos mz) = 53.
Proof.
  intros Hle. unfold binary_round.
  pose proof (digits2_pos_bounds m) as [Dlo Dhi].
  set (d := Zpos (digits2_pos m)) in *.
  assert (Hd : 0 < d) by (unfold d; lia).
  replace (fexp prec emax (d + 0)) with (d - 53)
    by (unfold fexp, SpecFloat.emin; change prec with 53; change emax with 1024; lia).
  pose proof (shl_align_value m 0 (d - 53) ltac:(lia)) as Hval.
  assert (Hexp : snd (shl_align m 0 (d - 53)) = d - 53).
  { unfold shl_align. destruct (d - 53 - 0) as [|k|k] eqn:Ek; simpl; lia. }
  destruct (shl_align m 0 (d - 53)) as [mz ez]. cbn [fst snd] in Hval, Hexp. subst ez.
  replace (0 - (d - 53)) with (53 - d) in Hval by lia.
  assert (Hmz : Zpos (digits2_pos mz) = 53).
  { apply digits2_pos_unique. rewrite Hval.
    assert (E1 : 2 ^ (53 - 1) = 2 ^ (d - 1) * 2 ^ (53 - d)).
    { rewrite <- Z.pow_add_r by lia. f_equal. lia. }
    assert (E2 : 2 ^ 53 = 2 ^ d * 2 ^ (53 - d)).
    { rewrite <- Z.pow_add_r by lia. f_equal. lia. }
    rewrite E1, E2.
    assert (Hc : 0 < 2 ^ (53 - d)) by (apply Z.pow_pos_nonneg; lia).
    set (a := 2 ^ (d - 1)) in *. set (b := 2 ^ d) in *. set (c := 2 ^ (53 - d)) in *.
    clearbody a b c. nia. }
  exists mz, (d - 53).
  rewrite binary_round_aux_finish.
  rewrite (shr_fexp_full mz (d - 53) loc_Exact Hmz) by lia.
  cbn [fst snd shr_record_of_loc shr_m loc_of_shr_record round_nearest_even].
  unfold finish. rewrite (shr_fexp_full mz (d - 53) loc_Exact Hmz) by lia.
  cbn [shr_record_of_loc shr_m]. change (emax - prec) with 971.
  destruct (Z.leb_spec (d - 53) 971); [|lia].
  repeat split; try lia. rewrite Hval. f_equal. f_equal. lia.
Qed.

Lemma digits_below (m : positive) : Zpos m < 2 ^ 53 -> Zpos (digits2_pos m) <= 53.
Proof.
  intros H. pose proof (digits2_pos_bounds m) as [Dlo _].
  destruct (Z.le_gt_cases (Zpos (digits2_pos m)) 53) as [Hle|Hgt]; [exact Hle|].
  exfalso. assert (2 ^ 53 <= 2 ^ (Zpos (digits2_pos m) - 1)) by (apply Z.pow_le_mono_r; lia).
  lia.
Qed.

Lemma Number_exact z :
  0 < z < 2 ^ 53 ->
  exists m e,
    Prim2SF (JS.Number_of_bigint z) = S754_finite false m e
    /\ -52 <= e <= 0 /\ Zpos m = z * 2 ^ (- e)
    /\ Zpos (digits2_pos m) = 53.
Proof.
  intros [Hlo Hhi]. destruct z as [|p|p]; try lia.
  destruct (binary_round_exact p (digits_below p Hhi)) as (mz & e & E & He & Hv & Hd).
  exists mz, e. unfold JS.Number_of_bigint, binary_normalize. rewrite E.
  rewrite Prim2SF_SF2Prim; [auto|].
  apply fullPositive_valid. simpl. lia.
Qed.

(** [Math.floor(Number(z))] is [z]. *)
Lemma Number_floor z :
  0 <= z < 2 ^ 53 -> JS.Math_floor (JS.Number_of_bigint z) = Some z.
Proof.
  intros [Hlo Hhi]. destruct (Z.eq_dec z 0) as [->|Hne]; [reflexivity|].
  destruct (Number_exact z ltac:(lia)) as (m & e & E & He & Hv & _).
  unfold JS.Math_floor. rewrite E. f_equal.
  rewrite Z.shiftl_div_pow2 by lia. rewrite Hv.
  apply Z.div_mul. apply Z.pow_nonzero; lia.
Qed.

Lemma Number_toInteger z :
  0 <= z < 2 ^ 53 -> Num.toInteger (JS.Number_of_bigint z) = z.
Proof. intros H. unfold Num.toInteger. rewrite Number_floor by exact H. reflexivity. Qed.

(** The order of two such numbers is the order of the integers. *)
Lemma Number_ltb a b :
  0 <= a < 2 ^ 53 -> 0 <= b < 2 ^ 53 ->
  (JS.Number_of_bigint a <? JS.Number_of_bigint b)%float = (a <? b).
Proof.
  intros Ha Hb. rewrite FloatAxioms.ltb_spec.
  destruct (Z.eq_dec a 0) as [->|Na], (Z.eq_dec b 0) as [->|Nb].
  - reflexivity.
  - destruct (Number_exact b ltac:(lia)) as (m & e & E & _). rewrite E.
    change (Prim2SF (JS.Number_of_bigint 0)) with (S754_zero false). simpl.
    symmetry. apply Z.ltb_lt. lia.
  - destruct (Number_exact a ltac:(lia)) as (m & e & E & _). rewrite E.
    change (Prim2SF (JS.Number_of_bigint 0)) with (S754_zero false). simpl.
    symmetry. apply Z.ltb_ge. lia.
  - destruct (Number_exact a ltac:(lia)) as (ma & ea & Ea & Hea & Hva & Hda).
    destruct (Number_exact b ltac:(lia)) as (mb & eb & Eb & Heb & Hvb & Hdb).
    rewrite Ea, Eb. unfold SFltb, SFcompare.
    change (Pos.compare_cont Eq ma mb) with (Pos.compare ma mb).
    pose proof (digits2_pos_bounds ma) as [La Ua]. rewrite Hda in La, Ua.
    pose proof (digits2_pos_bounds mb) as [Lb Ub]. rewrite Hdb in Lb, Ub.
    change (2 ^ (53 - 1)) with 4503599627370496 in La, Lb.
    change (2 ^ 53) with 9007199254740992 in *.
    assert (Pa : 0 < 2 ^ (- ea)) by (apply Z.pow_pos_nonneg; lia).
    assert (Pb : 0 < 2 ^ (- eb)) by (apply Z.pow_pos_nonneg; lia).
    destruct (Z.compare_spec ea eb) as [E|E|E].
    + subst eb. destruct (Pos.compare_spec ma mb) as [E'|E'|E'].
      * subst mb. symmetry. apply Z.ltb_ge. nia.
      * symmetry. apply Z.ltb_lt. nia.
      * symmetry. apply Z.ltb_ge. nia.
    + symmetry. apply Z.ltb_lt.
      assert (Hs : 2 ^ (- ea) = 2 ^ (- eb) * 2 ^ (eb - ea)).
      { rewrite <- Z.pow_add_r by lia. f_equal. lia. }
      assert (2 ^ 1 <= 2 ^ (eb - ea)) by (apply Z.pow_le_mono_r; lia).
      change (2 ^ 1) with 2 in *.
      set (x := 2 ^ (- ea)) in *. set (y := 2 ^ (- eb)) in *. set (w := 2 ^ (eb - ea)) in *.
      clearbody x y w. nia.
    + symmetry. apply Z.ltb_ge.
      assert (Hs : 2 ^ (- eb) = 2 ^ (- ea) * 2 ^ (ea - eb)).
      { rewrite <- Z.pow_add_r by lia. f_equal. lia. }
      assert (2 ^ 1 <= 2 ^ (ea - eb)) by (apply Z.pow_le_mono_r; lia).
      change (2 ^ 1) with 2 in *.
      set (x := 2 ^ (- ea)) in *. set (y := 2 ^ (- eb)) in *. set (w := 2 ^ (ea - eb)) in *.
      clearbody x y w. nia.
Qed.

End ExactNumbers.

(** ** Reading the accounts *)

Section ChainReads.
Import Accounts Outcome Buffer Solana Chain.
Local Open Scope Z_scope.

Lemma inRange_Returned {A} (x : option A) a : inRange x = Returned a -> x = Some a.
Proof. destruct x; simpl; congruence. Qed.

Lemma bind_Returned {A B} (x : Outcome.t A) (f : A -> Outcome.t B) b :
  Outcome.bind x f = Returned b -> exists a, x = Returned a /\ f a = Returned b.
Proof. destruct x as [a|e]; simpl; [eauto | discriminate]. Qed.

Lemma readUIntLE_inv n buf offset v :
  readUIntLE n buf offset = Some v ->
  (offset + n <= length buf)%nat /\ v = littleEndian (take n (drop offset buf)).
Proof.
  unfold readUIntLE. destruct (Nat.leb_spec (offset + n) (length buf)); [|discriminate].
  intros [= <-]. split; [assumption | reflexivity].
Qed.

Lemma readSquares_Some data start :
  (start + 200 <= length data)%nat ->
  readSquares data start
  = Some (map (fun i => littleEndian (take 8 (drop (start + i * 8) data))) (seq 0 25)).
Proof.
  intros H. unfold readSquares. apply mapM_Some_2.
  apply Forall2_fmap_r, Forall_Forall2_diag, List.Forall_forall.
  intros i Hi. apply in_seq in Hi.
  unfold readBigUInt64LE. apply readUIntLE_Some. lia.
Qed.

Lemma readSquares_inv data start squares :
  readSquares data start = Some squares ->
  (start + 200 <= length data)%nat /\ length squares = 25%nat
  /\ forall i, (i < 25)%nat -> squares !! i = readBigUInt64LE data (start + i * 8).
Proof.
  unfold readSquares. intros H. apply mapM_Some_1 in H.
  pose proof (Forall2_length _ _ _ H) as Hlen. rewrite length_seq in Hlen.
  assert (Hi : forall i, (i < 25)%nat ->
             squares !! i = readBigUInt64LE data (start + i * 8)).
  { intros i Hi.
    assert (Hs : seq 0 25 !! i = Some i) by (apply lookup_seq; lia).
    destruct (Forall2_lookup_l _ _ _ _ _ H Hs) as (y & Hy & Hr). congruence. }
  repeat split; [|lia|exact Hi].
  assert (H24 : is_Some (squares !! 24%nat)) by (apply lookup_lt_is_Some; lia).
  destruct H24 as [y Hy]. rewrite (Hi 24%nat) in Hy by lia.
  apply readUIntLE_inv in Hy as [Hy _]. lia.
Qed.

(** What was written by [bytesOf] is all there is to read: eight bytes
    read as an integer and written again are the same bytes. *)
Lemma bytesOf_littleEndian bs : bytesOf (length bs) (littleEndian bs) = bs.
Proof.
  induction bs as [|b bs IH]; [reflexivity|].
  cbn [length bytesOf littleEndian]. pose proof (value_bound b) as Hb.
  f_equal.
  - unfold byteOf.
    replace ((value b + 256 * littleEndian bs) mod 256) with (value b).
    + unfold value. rewrite N2Z.id, Byte.of_to_N. reflexivity.
    + replace (value b + 256 * littleEndian bs) with (value b + littleEndian bs * 256) by lia.
      rewrite Z.mod_add by lia. symmetry. apply Z.mod_small. lia.
  - replace ((value b + 256 * littleEndian bs) / 256) with (littleEndian bs); [exact IH|].
    replace (value b + 256 * littleEndian bs) with (value b + littleEndian bs * 256) by lia.
    rewrite Z.div_add by lia. rewrite (Z.div_small (value b)) by lia. lia.
Qed.

End ChainReads.

Section ChainClaims.
Import Accounts Outcome Buffer Solana Chain.
Local Open Scope Z_scope.

Lemma getRoundPDA_Returned roundId :
  0 <= roundId < 2 ^ 64 ->
  getRoundPDA roundId
  = Returned (ProgramAddress [Bytes ROUND_SEED; Bytes (bytesOf 8 roundId)]).
Proof.
  intros H. unfold getRoundPDA, roundIdBuffer, writeBigUInt64LE.
  rewrite writeUIntLE_Some by (simpl; lia). reflexivity.
Qed.

Lemma getRoundPDA_inv roundId key :
  getRoundPDA roundId = Returned key -> 0 <= roundId < 2 ^ 64.
Proof.
  unfold getRoundPDA, roundIdBuffer, writeBigUInt64LE. intros H.
  apply bind_Returned in H as (b & H & _). apply inRange_Returned in H.
  apply writeUIntLE_inv in H as (H & _). exact H.
Qed.

Lemma getRoundPDA_Thrown roundId e : getRoundPDA roundId = Thrown e -> e = RangeError.
Proof.
  unfold getRoundPDA. destruct (roundIdBuffer roundId); simpl; congruence.
Qed.

Ltac invert_binds H :=
  repeat match type of H with
  | Outcome.bind _ _ = Returned _ =>
    let a := fresh "a" in let E := fresh "E" in
    apply bind_Returned in H as (a & E & H);
    try apply inRange_Returned in E
  end.

(** X1. [fetchRound] gives a round only for an id that is a [u64] and an
    account of at least 560 bytes, and for those it does.  The round has 25
    totals and 25 counts, each the [u64] stored at its place (the totals
    from byte 16 on, the counts from byte 248 on).  An account that is
    shorter makes it throw a [RangeError]; no account, the error of the
    missing account. *)
Theorem fetchRound_reads (roundId : Z) (accountInfo : option Buffer.t) :
  (forall round, fetchRound roundId accountInfo = Returned round ->
     0 <= roundId < 2 ^ 64
     /\ exists data, accountInfo = Some data /\ (560 <= length data)%nat
        /\ length (deployed round) = 25%nat /\ length (count round) = 25%nat
        /\ (forall i, (i < 25)%nat ->
              deployed round !! i = readBigUInt64LE data (16 + i * 8)
              /\ count round !! i = readBigUInt64LE data (248 + i * 8))
        /\ Forall (fun z => 0 <= z < 2 ^ 64) (deployed round)
        /\ Forall (fun z => 0 <= z < 2 ^ 64) (count round)
        /\ readBigUInt64LE data 536 = Some (totalDeployed round)
        /\ readBigUInt64LE data 552 = Some (totalWinnings round))
  /\ (forall data, 0 <= roundId < 2 ^ 64 -> (560 <= length data)%nat ->
        exists round, fetchRound roundId (Some data) = Returned round)
  /\ (forall data, (length data < 560)%nat ->
        fetchRound roundId (Some data) = Thrown RangeError)
  /\ (0 <= roundId < 2 ^ 64 -> fetchRound roundId None = Thrown (NotFound "Round")).
Proof.
  assert (Hfirst : forall round, fetchRound roundId accountInfo = Returned round ->
     0 <= roundId < 2 ^ 64
     /\ exists data, accountInfo = Some data /\ (560 <= length data)%nat
        /\ length (deployed round) = 25%nat /\ length (count round) = 25%nat
        /\ (forall i, (i < 25)%nat ->
              deployed round !! i = readBigUInt64LE data (16 + i * 8)
              /\ count round !! i = readBigUInt64LE data (248 + i * 8))
        /\ Forall (fun z => 0 <= z < 2 ^ 64) (deployed round)
        /\ Forall (fun z => 0 <= z < 2 ^ 64) (count round)
        /\ readBigUInt64LE data 536 = Some (totalDeployed round)
        /\ readBigUInt64LE data 552 = Some (totalWinnings round)).
  { intros round H. unfold fetchRound in H.
    apply bind_Returned in H as (key & Hkey & H).
    split; [eapply getRoundPDA_inv; exact Hkey|].
    destruct accountInfo as [data|]; [|discriminate].
    exists data. split; [reflexivity|].
    invert_binds H. injection H as <-. cbn [deployed count totalDeployed totalWinnings].
    match goal with
    | H : readSquares _ 16 = Some _ |- _ => destruct (readSquares_inv _ _ _ H) as (_ & Ld & Hd)
    end.
    match goal with
    | H : readSquares _ 248 = Some _ |- _ => destruct (readSquares_inv _ _ _ H) as (_ & Lc & Hc)
    end.
    match goal with
    | H : readBigUInt64LE _ 552 = Some _ |- _ => pose proof (readUIntLE_inv _ _ _ _ H) as [Hlen _]
    end.
    repeat split; auto; try lia.
    - apply Forall_lookup. intros i z Hz.
      pose proof (lookup_lt_Some _ _ _ Hz) as Hi. rewrite Ld in Hi.
      rewrite (Hd i Hi) in Hz. eapply (readUIntLE_bound 8). exact Hz.
    - apply Forall_lookup. intros i z Hz.
      pose proof (lookup_lt_Some _ _ _ Hz) as Hi. rewrite Lc in Hi.
      rewrite (Hc i Hi) in Hz. eapply (readUIntLE_bound 8). exact Hz. }
  split; [exact Hfirst|]. split; [|split].
  - intros data Hid Hlen. unfold fetchRound.
    rewrite getRoundPDA_Returned by exact Hid. cbn [Outcome.bind].
    rewrite (readSquares_Some data 16) by lia. cbn [inRange Outcome.bind].
    rewrite (readSquares_Some data 248) by lia. cbn [inRange Outcome.bind].
    unfold readBigUInt64LE.
    rewrite (readUIntLE_Some 8 data 8) by lia. cbn [inRange Outcome.bind].
    rewrite (readUIntLE_Some 8 data 536) by lia. cbn [inRange Outcome.bind].
    rewrite (readUIntLE_Some 8 data 552) by lia. cbn [inRange Outcome.bind].
    eauto.
  - intros data Hlen. clear Hfirst.
    destruct (fetchRound roundId (Some data)) as [round|e] eqn:E.
    + exfalso. unfold fetchRound in E.
      apply bind_Returned in E as (key & _ & E). invert_binds E.
      match goal with
      | H : readBigUInt64LE _ 552 = Some _ |- _ => apply readUIntLE_inv in H as [H _]; lia
      end.
    + f_equal. unfold fetchRound in E.
      destruct (getRoundPDA roundId) eqn:Ek; cbn [Outcome.bind] in E;
        [|injection E as <-; eapply getRoundPDA_Thrown; exact Ek].
      repeat match type of E with
      | context [inRange ?x] => destruct x; cbn [inRange Outcome.bind] in E
      end; congruence.
  - intros Hid. unfold fetchRound. rewrite getRoundPDA_Returned by exact Hid. reflexivity.
Qed.

(** X2. [fetchAutomation] never throws on the data of the account: its test
    of the length covers the three reads.  It answers [null] exactly when
    there is no account or the account has fewer than 112 bytes. *)
Theorem fetchAutomation_guard (accountInfo : option Buffer.t) :
  exists automation,
    fetchAutomation accountInfo = Returned automation
    /\ (automation = None <->
        accountInfo = None
        \/ exists data, accountInfo = Some data /\ (length data < 112)%nat)
    /\ (forall a data, automation = Some a -> accountInfo = Some data ->
          readBigUInt64LE data 8 = Some (Automation.amountPerSquare a)
          /\ readBigUInt64LE data 48 = Some (Automation.balance a)
          /\ readBigUInt64LE data 104 = Some (Automation.mask a)).
Proof.
  destruct accountInfo as [data|]; cbn [fetchAutomation].
  - destruct (Nat.ltb_spec (length data) 112) as [Hlt|Hge].
    + exists None. split; [reflexivity|]. split; [|discriminate].
      split; [right; eauto | reflexivity].
    + unfold readBigUInt64LE. rewrite !readUIntLE_Some by lia.
      cbn [inRange Outcome.bind]. eexists. split; [reflexivity|]. split.
      * split; [discriminate|]. intros [H|(d & [= <-] & H)]; [discriminate | lia].
      * intros a d [= <-] [= <-]. cbn. unfold readBigUInt64LE.
        rewrite !readUIntLE_Some by lia. auto.
  - exists None. split; [reflexivity|]. split; [|discriminate].
    split; [left; reflexivity | reflexivity].
Qed.

(** X3. [fetchMiner] and [fetchBoard] do not test the length: a miner account of
    fewer than 520 bytes, or a board account of fewer than 32, makes them
    throw a [RangeError]; with at least that many bytes they return.  A
    missing miner account is [null], a missing board account an error. *)
Theorem fetchMiner_fetchBoard_bounds (data : Buffer.t) :
  ((length data < 520)%nat -> fetchMiner (Some data) = Thrown RangeError)
  /\ ((520 <= length data)%nat ->
      exists miner, fetchMiner (Some data) = Returned (Some miner)
        /\ readBigUInt64LE data 448 = Some (Miner.checkpointId miner)
        /\ readBigUInt64LE data 488 = Some (Miner.rewardsSol miner)
        /\ readBigUInt64LE data 496 = Some (Miner.rewardsOre miner)
        /\ readBigUInt64LE data 512 = Some (Miner.roundId miner))
  /\ fetchMiner None = Returned None
  /\ ((length data < 32)%nat -> fetchBoard (Some data) = Thrown RangeError)
  /\ ((32 <= length data)%nat ->
      exists board, fetchBoard (Some data) = Returned board
        /\ readBigUInt64LE data 16 = Some (startSlot board)
        /\ readBigUInt64LE data 24 = Some (endSlot board))
  /\ fetchBoard None = Thrown (NotFound "Board").
Proof.
  unfold fetchMiner, fetchBoard, readBigUInt64LE.
  repeat split; try reflexivity.
  - intros H. destruct (Nat.le_gt_cases (448 + 8) (length data));
      [rewrite (readUIntLE_Some 8 data 448) by lia | rewrite (readUIntLE_None 8 data 448) by lia; reflexivity].
    destruct (Nat.le_gt_cases (488 + 8) (length data));
      [rewrite (readUIntLE_Some 8 data 488) by lia | rewrite (readUIntLE_None 8 data 488) by lia; reflexivity].
    destruct (Nat.le_gt_cases (496 + 8) (length data));
      [rewrite (readUIntLE_Some 8 data 496) by lia | rewrite (readUIntLE_None 8 data 496) by lia; reflexivity].
    rewrite (readUIntLE_None 8 data 512) by lia. reflexivity.
  - intros H. rewrite !readUIntLE_Some by lia. cbn [inRange Outcome.bind].
    eexists. split; [reflexivity|]. cbn. auto.
  - intros H. destruct (Nat.le_gt_cases (8 + 8) (length data));
      [rewrite (readUIntLE_Some 8 data 8) by lia | rewrite (readUIntLE_None 8 data 8) by lia; reflexivity].
    destruct (Nat.le_gt_cases (16 + 8) (length data));
      [rewrite (readUIntLE_Some 8 data 16) by lia | rewrite (readUIntLE_None 8 data 16) by lia; reflexivity].
    rewrite (readUIntLE_None 8 data 24) by lia. reflexivity.
  - intros H. rewrite !readUIntLE_Some by lia. cbn [inRange Outcome.bind].
    eexists. split; [reflexivity|]. cbn. auto.
Qed.

(** X4. The id of the round goes from the board account to the seed of the
    round's address unchanged: for an id below 2^53, the buffer that
    [getRoundPDA] fills from [fetchBoard]'s [roundId] holds the same eight
    bytes as the board account at offset 8. *)
Theorem round_seed_round_trip (data : Buffer.t) (board : Board) (v : Z) :
  fetchBoard (Some data) = Returned board ->
  readBigUInt64LE data 8 = Some v ->
  v < 2 ^ 53 ->
  roundId board = v
  /\ getRoundPDA (roundId board)
     = Returned (ProgramAddress [Bytes ROUND_SEED; Bytes (take 8 (drop 8 data))]).
Proof.
  intros Hb Hv Hlt. unfold fetchBoard in Hb. rewrite Hv in Hb. cbn [inRange Outcome.bind] in Hb.
  invert_binds Hb. injection Hb as <-. cbn [roundId].
  pose proof (readUIntLE_bound 8 _ _ _ Hv) as Hbound.
  rewrite Number_toInteger by lia. split; [reflexivity|].
  rewrite getRoundPDA_Returned by (change (2 ^ 64) with 18446744073709551616; change (2 ^ 53) with 9007199254740992 in Hlt; lia).
  apply readUIntLE_inv in Hv as [Hlen ->].
  do 4 f_equal.
  replace 8%nat with (length (take 8 (drop 8 data))) at 1
    by (rewrite length_take, length_drop; lia).
  f_equal. apply bytesOf_littleEndian.
Qed.

End ChainClaims.

(** ** The instructions *)

Section InstructionClaims.
Import Accounts Outcome Buffer Solana Chain Instructions.
Local Open Scope Z_scope.

Ltac invert_binds H :=
  repeat match type of H with
  | Outcome.bind _ _ = Returned _ =>
    let a := fresh "a" in let E := fresh "E" in
    apply bind_Returned in H as (a & E & H);
    try apply inRange_Returned in E
  end.

Lemma mask_bits i : Z.testbit 0x01ffffff i = true <-> 0 <= i < 25.
Proof.
  change 0x01ffffff with (Z.ones 25). split.
  - intros H. destruct (Z.lt_ge_cases i 0) as [Hn|Hn].
    + rewrite Z.testbit_neg_r in H by exact Hn. discriminate.
    + destruct (Z.lt_ge_cases i 25) as [Hl|Hl]; [lia|].
      rewrite Z.ones_spec_high in H by lia. discriminate.
  - intros H. apply Z.ones_spec_low. exact H.
Qed.

Lemma buildDeployInstruction_inv board amount ix :
  buildDeployInstruction board amount = Returned ix ->
  programId ix = Program
  /\ exists lamports,
       Num.BigInt_floor (amount * 1e9) = Some lamports
       /\ 0 <= lamports < 2 ^ 64
       /\ length (data ix) = 13%nat
       /\ readUInt8 (data ix) 0 = Some 6
       /\ readBigUInt64LE (data ix) 1 = Some lamports
       /\ readUInt32LE (data ix) 9 = Some 0x01ffffff.
Proof.
  intros H. unfold buildDeployInstruction in H.
  invert_binds H. injection H as <-. cbn [data programId]. split; [reflexivity|].
  match goal with
  | H1 : writeUInt8 6 0 _ = Some ?d1, H2 : writeBigUInt64LE ?v 1 ?d1 = Some ?d2,
    H3 : writeUInt32LE _ 9 ?d2 = Some ?d3 |- _ =>
    exists v;
    pose proof (writeUIntLE_length _ _ _ _ _ H1) as L1;
    pose proof (writeUIntLE_length _ _ _ _ _ H2) as L2;
    pose proof (writeUIntLE_length _ _ _ _ _ H3) as L3;
    pose proof (writeUIntLE_inv _ _ _ _ _ H2) as (Hv & _);
    pose proof (read_write _ _ _ _ _ H1) as R1;
    pose proof (read_write _ _ _ _ _ H2) as R2;
    pose proof (read_write _ _ _ _ _ H3) as R3;
    pose proof (read_write_other _ _ _ _ _ 1%nat 0%nat H2 ltac:(lia)) as O21;
    pose proof (read_write_other _ _ _ _ _ 1%nat 0%nat H3 ltac:(lia)) as O31;
    pose proof (read_write_other _ _ _ _ _ 8%nat 1%nat H3 ltac:(lia)) as O32;
    assert (length d3 = 13%nat) by (rewrite L3, L2, L1; reflexivity);
    assert (readUInt8 d3 0 = Some 6) by (unfold readUInt8; rewrite O31, O21; exact R1);
    assert (readBigUInt64LE d3 1 = Some v) by (unfold readBigUInt64LE; rewrite O32; exact R2)
  end.
  repeat split; try assumption; try lia.
Qed.

(** X5. The data of the deploy instruction, read back: 13 bytes, the byte 6,
    then the amount in lamports [Math.floor(amountPerSquareSOL * 1e9)] as a
    [u64], then a mask whose bits are exactly the squares 0 to 24.  The
    instruction is built exactly when the board is there, its round id is a
    [u64], and the amount in lamports is an integer that is a [u64]: a NaN,
    infinite or negative amount makes it throw a [RangeError]. *)
Theorem buildDeployInstruction_data (board : Outcome.t Board) (amount : float) :
  (forall ix, buildDeployInstruction board amount = Returned ix ->
     exists lamports mask,
       Num.BigInt_floor (amount * 1e9) = Some lamports
       /\ 0 <= lamports < 2 ^ 64
       /\ length (data ix) = 13%nat
       /\ readUInt8 (data ix) 0 = Some 6
       /\ readBigUInt64LE (data ix) 1 = Some lamports
       /\ readUInt32LE (data ix) 9 = Some mask
       /\ forall i, Z.testbit mask i = true <-> 0 <= i < 25)
  /\ (forall b lamports,
        board = Returned b -> 0 <= roundId b < 2 ^ 64 ->
        Num.BigInt_floor (amount * 1e9) = Some lamports -> 0 <= lamports < 2 ^ 64 ->
        exists ix, buildDeployInstruction board amount = Returned ix)
  /\ (forall b,
        board = Returned b -> 0 <= roundId b < 2 ^ 64 ->
        match Num.BigInt_floor (amount * 1e9) with
        | Some lamports => lamports < 0 \/ 2 ^ 64 <= lamports
        | None => True
        end ->
        buildDeployInstruction board amount = Thrown RangeError).
Proof.
  split; [|split].
  - intros ix H.
    destruct (buildDeployInstruction_inv _ _ _ H) as (_ & v & H1 & H2 & H3 & H4 & H5 & H6).
    exists v, 0x01ffffff. repeat split; try assumption; try lia; apply mask_bits; assumption.
  - intros b lamports -> Hid Hl Hv. unfold buildDeployInstruction. cbn [Outcome.bind].
    rewrite getRoundPDA_Returned by exact Hid. cbn [Outcome.bind].
    rewrite Hl. cbn [inRange Outcome.bind].
    unfold writeUInt8, writeBigUInt64LE, writeUInt32LE.
    rewrite (writeUIntLE_Some 1 6 0) by (simpl; lia). cbn [inRange Outcome.bind].
    rewrite (writeUIntLE_Some 8 lamports 1)
      by (rewrite ?length_app, ?length_take, ?length_drop, ?length_bytesOf; simpl; lia).
    cbn [inRange Outcome.bind].
    rewrite (writeUIntLE_Some 4 33554431 9)
      by (rewrite ?length_app, ?length_take, ?length_drop, ?length_bytesOf; simpl; lia).
    cbn [inRange Outcome.bind]. eauto.
  - intros b -> Hid Hbad. unfold buildDeployInstruction. cbn [Outcome.bind].
    rewrite getRoundPDA_Returned by exact Hid. cbn [Outcome.bind].
    destruct (Num.BigInt_floor (amount * 1e9)) as [lamports|]; [|reflexivity].
    cbn [inRange Outcome.bind].
    unfold writeUInt8. rewrite (writeUIntLE_Some 1 6 0) by (simpl; lia).
    cbn [inRange Outcome.bind].
    destruct (writeBigUInt64LE lamports 1 _) as [d|] eqn:E; [|reflexivity].
    apply writeUIntLE_inv in E as (Hv & _). change (8 * Z.of_nat 8) with 64 in Hv. lia.
Qed.

(** X6. [needsCheckpoint] compares the two ids as numbers: for ids below 2^53
    it is true exactly when [checkpointId] is below [roundId]; without a
    miner account it is false.  Above 2^53 neighbouring ids are the same
    number, and a checkpoint that is due is not seen. *)
Theorem needsCheckpoint_exact (miner : Miner.t) :
  0 <= Miner.checkpointId miner < 2 ^ 53 ->
  0 <= Miner.roundId miner < 2 ^ 53 ->
  needsCheckpoint (Returned (Some miner))
  = Returned (Miner.checkpointId miner <? Miner.roundId miner)
  /\ needsCheckpoint (Returned None) = Returned false
  /\ needsCheckpoint
       (Returned (Some {| Miner.rewardsSol := 0; Miner.rewardsOre := 0;
                          Miner.checkpointId := 2 ^ 53;
                          Miner.roundId := 2 ^ 53 + 1 |}))
     = Returned false.
Proof.
  intros Hc Hr. split; [|split; [reflexivity | vm_compute; reflexivity]].
  unfold needsCheckpoint. cbn [Outcome.bind]. rewrite Number_ltb by assumption. reflexivity.
Qed.

End InstructionClaims.

(** ** Deploying *)

Section DeployClaims.
Import Accounts Outcome Buffer Solana Chain Instructions Actions.
Local Open Scope float_scope.

Lemma Math_floor_nan : JS.Math_floor nan = None.
Proof. reflexivity. Qed.

Lemma mul_nan_l y : nan * y = nan.
Proof.
  apply Prim2SF_inj. rewrite FloatAxioms.mul_spec. reflexivity.
Qed.

Lemma mul_nan_r x : x * nan = nan.
Proof.
  apply Prim2SF_inj. rewrite FloatAxioms.mul_spec.
  change (Prim2SF nan) with S754_nan. destruct (Prim2SF x) as [| | |[|] ? ?]; reflexivity.
Qed.

Lemma Math_max_nan_r x y : JS.isNaN y = true -> JS.Math_max x y = nan.
Proof. intros H. unfold JS.Math_max. rewrite H, orb_true_r. reflexivity. Qed.

Lemma Math_min_nan_r x y : JS.isNaN y = true -> JS.Math_min x y = nan.
Proof. intros H. unfold JS.Math_min. rewrite H, orb_true_r. reflexivity. Qed.

Lemma buildDeployInstruction_nan board : 
  exists e, buildDeployInstruction board nan = Thrown e.
Proof.
  unfold buildDeployInstruction. destruct board as [b|e]; cbn [Outcome.bind]; [|eauto].
  destruct (getRoundPDA (roundId b)) as [k|e]; cbn [Outcome.bind]; [|eauto].
  unfold Num.BigInt_floor. rewrite mul_nan_l, Math_floor_nan. cbn. eauto.
Qed.

Lemma deployInstructions_nan env : exists e, deployInstructions env nan = Thrown e.
Proof.
  unfold deployInstructions.
  destruct (miner env) as [m|e]; cbn [Outcome.bind]; [|eauto].
  destruct (buildDeployInstruction_nan (board env)) as [e He].
  match goal with
  | |- context [Outcome.bind ?c _] => destruct c as [c'|e']; cbn [Outcome.bind]; [|eauto]
  end.
  rewrite He. cbn. eauto.
Qed.

Lemma instructionsOf_transactionOf ixs d : instructionsOf (transactionOf ixs d) = ixs.
Proof.
  unfold instructionsOf, transactionOf. cbn [items app flat_map].
  induction ixs as [|ix ixs IH]; [reflexivity|]. cbn. f_equal. exact IH.
Qed.

Lemma deployInstructions_inv env bet ixs :
  deployInstructions env bet = Returned ixs ->
  exists checkpoint deployIx,
    ixs = checkpoint ++ [deployIx]
    /\ buildDeployInstruction (board env) bet = Returned deployIx
    /\ (checkpoint = []
        \/ exists m c,
             miner env = Returned (Some m)
             /\ needsCheckpoint (minerAgain env) = Returned true
             /\ buildCheckpointInstruction
                  (Num.toInteger (JS.Number_of_bigint (Miner.roundId m))) = Returned c
             /\ checkpoint = [c]).
Proof.
  unfold deployInstructions. intros H.
  apply bind_Returned in H as (m & Hm & H).
  apply bind_Returned in H as (checkpoint & Hc & H).
  apply bind_Returned in H as (deployIx & Hd & H). injection H as <-.
  exists checkpoint, deployIx. split; [reflexivity|]. split; [exact Hd|].
  destruct m as [m|]; [|injection Hc as <-; left; reflexivity].
  apply bind_Returned in Hc as (needs & Hn & Hc).
  destruct needs; [|injection Hc as <-; left; reflexivity].
  apply bind_Returned in Hc as (c & Hc & H). injection H as <-.
  right. exists m, c. auto.
Qed.

(** X7. [deploy] sends at most one transaction, and a transaction it sends
    ends with the deploy instruction for the bet: a checkpoint goes out
    only in front of it, in the same transaction, when there is a miner
    account and [needsCheckpoint()] says so.  In dry-run mode it returns
    true and sends nothing; otherwise it returns true exactly when
    [sendAndConfirm] went through, and only then is [deployedRounds]
    raised. *)
Theorem deploy_one_transaction (settings : Settings.t) (env : DeployEnv)
    (deployedRounds : Z) (betPerSquare : float) :
  let result := fst (fst (deploy settings env deployedRounds betPerSquare)) in
  let effects := snd (fst (deploy settings env deployedRounds betPerSquare)) in
  let after := snd (deploy settings env deployedRounds betPerSquare) in
  (Settings.dryRun settings = true ->
     result = true /\ effects = [] /\ after = deployedRounds)
  /\ (length effects <= 1)%nat
  /\ (forall e, In e effects ->
        exists tx checkpoint deployIx,
          e = Submitted tx (send env) /\ result = send env
          /\ Settings.dryRun settings = false
          /\ instructionsOf tx = checkpoint ++ [deployIx]
          /\ buildDeployInstruction (board env) betPerSquare = Returned deployIx
          /\ (checkpoint = [] /\ description tx = "Deploy"%string
              \/ exists m c,
                   miner env = Returned (Some m)
                   /\ needsCheckpoint (minerAgain env) = Returned true
                   /\ buildCheckpointInstruction
                        (Num.toInteger (JS.Number_of_bigint (Miner.roundId m)))
                      = Returned c
                   /\ checkpoint = [c]
                   /\ description tx = "Checkpoint + Deploy"%string))
  /\ (Settings.dryRun settings = false -> effects = [] -> result = false)
  /\ after = (if result && negb (Settings.dryRun settings)
              then deployedRounds + 1 else deployedRounds)%Z.
Proof.
  unfold deploy. destruct (Settings.dryRun settings) eqn:Dry.
  - cbn. repeat split; auto; try lia; try discriminate; try (intros ? []).
  - destruct (deployInstructions env betPerSquare) as [ixs|err] eqn:E.
    + destruct (deployInstructions_inv _ _ _ E) as (checkpoint & deployIx & -> & Hd & Hc).
      assert (Hshape :
        forall ok, exists tx checkpoint0 deployIx0,
          Submitted
            (transactionOf (checkpoint ++ [deployIx])
               (if (length (checkpoint ++ [deployIx]) =? 2)%nat
                then "Checkpoint + Deploy"%string else "Deploy"%string)) ok
          = Submitted tx ok
          /\ instructionsOf tx = checkpoint0 ++ [deployIx0]
          /\ buildDeployInstruction (board env) betPerSquare = Returned deployIx0
          /\ (checkpoint0 = [] /\ description tx = "Deploy"%string
              \/ exists m c,
                   miner env = Returned (Some m)
                   /\ needsCheckpoint (minerAgain env) = Returned true
                   /\ buildCheckpointInstruction
                        (Num.toInteger (JS.Number_of_bigint (Miner.roundId m)))
                      = Returned c
                   /\ checkpoint0 = [c]
                   /\ description tx = "Checkpoint + Deploy"%string)).
      { intros ok. eexists. exists checkpoint, deployIx.
        split; [reflexivity|]. rewrite instructionsOf_transactionOf.
        split; [reflexivity|]. split; [exact Hd|].
        destruct Hc as [->|(m & c & Hm & Hn & Hb & ->)].
        - left. split; reflexivity.
        - right. exists m, c. repeat split; auto. }
      destruct (send env) eqn:S; cbn.
      * repeat split; auto; try lia; try discriminate.
        intros e [<-|[]]. destruct (Hshape true) as (tx & c0 & d0 & Etx & H).
        exists tx, c0, d0. split; [exact Etx|]. split; [reflexivity|]. split; [reflexivity|].
        exact H.
      * repeat split; auto; try lia; try discriminate.
        intros e [<-|[]]. destruct (Hshape false) as (tx & c0 & d0 & Etx & H).
        exists tx, c0, d0. split; [exact Etx|]. split; [reflexivity|]. split; [reflexivity|].
        exact H.
    + cbn. repeat split; auto; try lia; try discriminate; try (intros ? []).
Qed.

(** X8. A bet that is NaN is never deployed: [buildDeployInstruction] throws
    on it, so [deploy] sends nothing and, outside dry-run mode, returns
    false.  And the bet is NaN for every target as soon as
    [bufferPercent], [minBetPerSquare] or [maxBetPerSquare] is NaN. *)
Theorem nan_bet_not_deployed (cfg : Config.t) (settings : Settings.t)
    (env : DeployEnv) (deployedRounds : Z) (topBet : float) :
  JS.isNaN (Config.bufferPercent cfg) || JS.isNaN (Config.minBetPerSquare cfg)
    || JS.isNaN (Config.maxBetPerSquare cfg) = true ->
  let betPerSquare := Estimator.calculateOurBet cfg topBet in
  JS.isNaN betPerSquare = true
  /\ snd (fst (deploy settings env deployedRounds betPerSquare)) = []
  /\ snd (deploy settings env deployedRounds betPerSquare) = deployedRounds
  /\ (Settings.dryRun settings = false ->
      fst (fst (deploy settings env deployedRounds betPerSquare)) = false).
Proof.
  intros H.
  assert (E : Estimator.calculateOurBet cfg topBet = nan).
  { unfold Estimator.calculateOurBet.
    apply orb_prop in H as [H|H]; [apply orb_prop in H as [H|H]|].
    - apply isNaN_true in H. rewrite H.
      replace (nan / 100) with nan by (apply Prim2SF_inj; reflexivity).
      replace (1 + nan) with nan by (apply Prim2SF_inj; reflexivity).
      rewrite mul_nan_r. rewrite Math_max_nan_l by reflexivity.
      apply Math_min_nan_l. reflexivity.
    - rewrite (Math_max_nan_r _ _ H). apply Math_min_nan_l. reflexivity.
    - apply Math_min_nan_r. exact H. }
  cbv zeta. rewrite E. split; [reflexivity|].
  unfold deploy. destruct (Settings.dryRun settings).
  - repeat split. discriminate.
  - destruct (deployInstructions_nan env) as [e ->]. repeat split.
Qed.

(** X9. The tracker does not know the deploys of the bot.  Where
    [fetchBettorAddress] looks for a deploy instruction it asks for a first
    byte [0x1c]; [buildDeployInstruction] writes 6.  For a transaction that
    [deploy] sends, read back from the chain, it finds no bettor. *)
Theorem own_deploy_not_recognised (settings : Settings.t) (env : DeployEnv)
    (deployedRounds : Z) (betPerSquare : float) (e : Effect) :
  In e (snd (fst (deploy settings env deployedRounds betPerSquare))) ->
  exists tx ok,
    e = Submitted tx ok
    /\ Tracker.fetchBettorAddress (Some (Tracker.asParsed tx)) = None.
Proof.
  unfold deploy. destruct (Settings.dryRun settings); [intros []|].
  destruct (deployInstructions env betPerSquare) as [ixs|err] eqn:E; [|intros []].
  destruct (deployInstructions_inv _ _ _ E) as (checkpoint & deployIx & -> & Hd & Hc).
  destruct (buildDeployInstruction_inv _ _ _ Hd) as (Hp & v & _ & _ & Hlen & Hb & _).
  assert (Hskip : Tracker.bettorOf
            (map (fun item =>
                    match item with
                    | Instruction ix =>
                      Tracker.PartiallyDecoded
                        (match programId ix with Program => true | _ => false end)
                        (Some (data ix)) (map pubkey (keys ix))
                    | _ => Tracker.PartiallyDecoded false None []
                    end)
                 (map Instruction (checkpoint ++ [deployIx]))) = None).
  { assert (Hlast : Tracker.bettorOf
              [Tracker.PartiallyDecoded
                 (match programId deployIx with Program => true | _ => false end)
                 (Some (data deployIx)) (map pubkey (keys deployIx))] = None).
    { cbn [Tracker.bettorOf]. rewrite Hp. cbn [negb]. rewrite Hlen, Hb. reflexivity. }
    destruct Hc as [->|(m & c & _ & _ & Hb' & ->)]; [exact Hlast|].
    unfold buildCheckpointInstruction in Hb'.
    apply bind_Returned in Hb' as (k & _ & Hb'). injection Hb' as <-.
    cbn [app map Tracker.bettorOf programId data negb]. exact Hlast. }
  set (d := if (length (checkpoint ++ [deployIx]) =? 2)%nat
            then "Checkpoint + Deploy"%string else "Deploy"%string).
  destruct (send env); intros [<-|[]]; eexists _, _; (split; [reflexivity|]);
    unfold Tracker.fetchBettorAddress, Tracker.asParsed, transactionOf;
    cbn [items app map Tracker.bettorOf negb]; exact Hskip.
Qed.

(** X10. In dry-run mode the snipe window still closes the automation account:
    when there is one, the transaction that closes it is handed to
    [sendAndConfirm], and it is the only one; [deploy] sends nothing and
    answers true. *)
Theorem snipe_dry_run (cfg : Config.t) (settings : Settings.t) (env : SnipeEnv)
    (deployedRounds : Z) :
  Settings.dryRun settings = true ->
  (forall a, automation env = Returned (Some a) ->
     exists ix,
       buildCloseAutomationInstruction = Returned ix
       /\ data ix = Buffer.alloc 34
       /\ snipe cfg settings env deployedRounds
          = Returned (true,
                      [Submitted (transactionOf [ix] "Close Automation") (closeSend env)],
                      deployedRounds))
  /\ (automation env = Returned None ->
      snipe cfg settings env deployedRounds = Returned (true, [], deployedRounds)).
Proof.
  intros Dry. unfold snipe, deploy. rewrite Dry. split.
  - intros a ->. cbn [Outcome.bind]. eexists. split; [reflexivity|]. split; reflexivity.
  - intros ->. reflexivity.
Qed.

End DeployClaims.

(** ** Swapping *)

Section SwapClaims.
Import DFlow.
Local Open Scope float_scope.

Lemma sentThrough_app e1 e2 : sentThrough (e1 ++ e2) = sentThrough e1 ++ sentThrough e2.
Proof. unfold sentThrough. apply flat_map_app. Qed.

Lemma quotedAmounts_app e1 e2 : quotedAmounts (e1 ++ e2) = quotedAmounts e1 ++ quotedAmounts e2.
Proof. unfold quotedAmounts. apply flat_map_app. Qed.

Lemma jupiter_sent dryRun env a :
  let r := swapOreToSolJupiter dryRun env a in
  (sentThrough (snd r) = [] /\ fst r = None
   \/ sentThrough (snd r) = [JupiterApi] /\ (fst r = None \/ fst r = Some JupiterApi))
  /\ quotedAmounts (snd r) = [amountLamports a]
  /\ (dryRun = true -> sentThrough (snd r) = []).
Proof.
  unfold swapOreToSolJupiter, submit.
  destruct (submission env JupiterApi) as [[] [] []]; cbn;
    repeat case_match; subst; cbn; repeat split; auto; discriminate.
Qed.

Lemma dflow_sent dryRun env a :
  let r := viaDFlow dryRun env a in
  (sentThrough (snd r) = [] \/ sentThrough (snd r) = [DFlowApi])
  /\ (forall v, fst r = Some (Some v) -> v = DFlowApi /\ sentThrough (snd r) = [DFlowApi])
  /\ quotedAmounts (snd r) = [amountLamports a]
  /\ (dryRun = true -> sentThrough (snd r) = [] /\ fst r <> Some (Some DFlowApi)).
Proof.
  unfold viaDFlow, submit.
  destruct (submission env DFlowApi) as [[] [] []]; cbn;
    repeat case_match; subst; cbn; repeat split; auto; try congruence;
    try (intros v [= <-]; auto).
Qed.

Lemma swap_quoted dryRun env a :
  quotedAmounts (snd (swapOreToSol dryRun env a)) <> []
  /\ Forall (fun q => q = amountLamports a) (quotedAmounts (snd (swapOreToSol dryRun env a))).
Proof.
  unfold swapOreToSol.
  pose proof (dflow_sent dryRun env a) as (_ & _ & Hdq & _).
  pose proof (jupiter_sent dryRun env a) as (_ & Hjq & _).
  destruct (viaDFlow dryRun env a) as [[r|] effects]; cbn [fst snd] in *.
  - rewrite Hdq. split; [discriminate | repeat constructor].
  - destruct (swapOreToSolJupiter dryRun env a) as [r more]. cbn [fst snd] in *.
    rewrite quotedAmounts_app, Hdq, Hjq. split; [discriminate | repeat constructor].
Qed.

(** X11. In dry-run mode [swapOreToSol] sends no transaction, through neither
    venue, and answers [null]; it still asks for a quote. *)
Theorem swap_dry_run (env : Env) (oreAmount : float) :
  fst (swapOreToSol true env oreAmount) = None
  /\ sentThrough (snd (swapOreToSol true env oreAmount)) = []
  /\ forall e, In e (snd (swapOreToSol true env oreAmount)) ->
       exists venue, e = AskedQuote venue (amountLamports oreAmount).
Proof.
  unfold swapOreToSol, viaDFlow, swapOreToSolJupiter.
  repeat case_match; simplify_eq; cbn; repeat split; try reflexivity;
    intros e He; repeat destruct He as [<-|He]; try contradiction; eauto.
Qed.

(** X12. At most one transaction goes through each venue, DFlow first; every
    quote is asked for the same amount [Math.floor(oreAmount * 1e11)];
    and a signature that is returned is the one of the last transaction
    sent. *)
Theorem swap_venues (dryRun : bool) (env : Env) (oreAmount : float) :
  let r := swapOreToSol dryRun env oreAmount in
  In (sentThrough (snd r)) [[]; [DFlowApi]; [JupiterApi]; [DFlowApi; JupiterApi]]
  /\ Forall (fun a => a = amountLamports oreAmount) (quotedAmounts (snd r))
  /\ (forall venue, fst r = Some venue -> last (sentThrough (snd r)) = Some venue).
Proof.
  unfold swapOreToSol.
  pose proof (dflow_sent dryRun env oreAmount) as (Hd & Hdv & Hdq & _).
  pose proof (jupiter_sent dryRun env oreAmount) as (Hj & Hjq & _).
  destruct (viaDFlow dryRun env oreAmount) as [[result|] effects]; cbn [fst snd] in *.
  - split; [|split].
    + destruct Hd as [-> | ->]; cbn; auto.
    + rewrite Hdq. repeat constructor.
    + intros venue ->. destruct (Hdv venue eq_refl) as [-> ->]. reflexivity.
  - destruct (swapOreToSolJupiter dryRun env oreAmount) as [result more]; cbn [fst snd] in *.
    rewrite sentThrough_app, quotedAmounts_app, Hdq, Hjq. split; [|split].
    + destruct Hd as [-> | ->], Hj as [[-> _] | [-> _]]; cbn; auto.
    + repeat constructor.
    + intros venue ->.
      destruct Hj as [[_ Hr] | [-> [Hr|Hr]]]; try discriminate. injection Hr as <-.
      destruct Hd as [-> | ->]; reflexivity.
Qed.

(** X13. The fall-back can swap twice.  When the transaction of DFlow is sent
    but confirming it throws, [swapOreToSol] goes on to Jupiter; if that
    goes through, two swap transactions for the same amount have been
    sent, and the signature returned is Jupiter's. *)
Theorem swap_sent_twice (env : Env) (oreAmount : float) (q s jq js : string) :
  quote env DFlowApi = Some {| ok := true; body := Some (Some q) |} ->
  swap env DFlowApi = Some {| ok := true; body := Some (Some s) |} ->
  submission env DFlowApi = {| decodes := true; sends := true; confirms := false |} ->
  quote env JupiterApi = Some {| ok := true; body := Some (Some jq) |} ->
  swap env JupiterApi = Some {| ok := true; body := Some (Some js) |} ->
  submission env JupiterApi = {| decodes := true; sends := true; confirms := true |} ->
  q <> EmptyString -> s <> EmptyString -> jq <> EmptyString -> js <> EmptyString ->
  fst (swapOreToSol false env oreAmount) = Some JupiterApi
  /\ sentThrough (snd (swapOreToSol false env oreAmount)) = [DFlowApi; JupiterApi]
  /\ quotedAmounts (snd (swapOreToSol false env oreAmount))
     = [amountLamports oreAmount; amountLamports oreAmount].
Proof.
  intros Hq Hs Hsub Hjq Hjs Hjsub Nq Ns Njq Njs.
  unfold swapOreToSol, viaDFlow, swapOreToSolJupiter, submit.
  rewrite Hq, Hs, Hsub, Hjq, Hjs, Hjsub. cbn.
  destruct q; [congruence|]. destruct s; [congruence|].
  destruct jq; [congruence|]. destruct js; [congruence|].
  cbn. repeat split.
Qed.

End SwapClaims.

(** ** Claiming *)

Section ClaimClaims.
Import Outcome Solana Instructions Actions.
Local Open Scope float_scope.

(** The instructions of a claim for the rewards of [miner]. *)
Lemma claimRewards_shape settings env miner :
  claimMiner env = Returned (Some miner) ->
  let ixs :=
    (if Num.geb (JS.Number_of_bigint (Miner.rewardsSol miner) / 1e9)
          (Settings.minClaimableSol settings)
     then [buildClaimSolInstruction] else [])
    ++ (if Num.geb (JS.Number_of_bigint (Miner.rewardsOre miner) / 1e11)
            (Settings.minClaimableOre settings)
        then [buildClaimOreInstruction] else []) in
  claimRewards settings env = []
  \/ (ixs <> [] /\ Settings.dryRun settings = false
      /\ exists d ok rest,
           claimRewards settings env = Submitted (transactionOf ixs d) ok :: rest
           /\ submitted rest = []).
Proof.
  intros Hm ixs. unfold claimRewards. rewrite Hm. fold ixs.
  destruct ixs as [|ix ixs'] eqn:E; [left; reflexivity|].
  destruct (Settings.dryRun settings); [left; reflexivity|].
  right. split; [discriminate|]. split; [reflexivity|].
  destruct (claimSend env).
  - eexists _, true, _. split; [reflexivity|].
    destruct (Settings.autoSwapOre settings && JS.gtb _ 0); [|reflexivity].
    destruct (walletOre env); [|reflexivity].
    destruct (Num.geb _ (Settings.minOreForSwap settings)); reflexivity.
  - eexists _, false, []. split; reflexivity.
Qed.

(** X14. [claimRewards] hands at most one transaction to [sendAndConfirm], and
    none in dry-run mode, without a miner account, or when neither reward
    reaches its threshold.  The transaction holds the SOL claim exactly
    when [Number(rewardsSol) / 1e9] is at least [minClaimableSol], then the
    ORE claim exactly when [Number(rewardsOre) / 1e11] is at least
    [minClaimableOre]. *)
Theorem claimRewards_transaction (settings : Settings.t) (env : ClaimEnv) :
  let effects := claimRewards settings env in
  (length (submitted effects) <= 1)%nat
  /\ (Settings.dryRun settings = true -> effects = [])
  /\ (claimMiner env = Returned None -> effects = [])
  /\ (forall e, claimMiner env = Thrown e -> effects = [])
  /\ (forall tx, In tx (submitted effects) ->
        exists miner,
          claimMiner env = Returned (Some miner)
          /\ instructionsOf tx
             = (if Num.geb (JS.Number_of_bigint (Miner.rewardsSol miner) / 1e9)
                     (Settings.minClaimableSol settings)
                then [buildClaimSolInstruction] else [])
               ++ (if Num.geb (JS.Number_of_bigint (Miner.rewardsOre miner) / 1e11)
                       (Settings.minClaimableOre settings)
                   then [buildClaimOreInstruction] else [])
          /\ instructionsOf tx <> []).
Proof.
  cbv zeta.
  destruct (claimMiner env) as [[miner|]|err] eqn:Hm.
  - destruct (claimRewards_shape settings env miner Hm)
      as [E|(Hne & Dry & d & ok & rest & E & Hrest)]; rewrite E.
    + cbn. repeat split; auto; try lia; try (intros ? []).
    + change (submitted (Submitted (transactionOf _ d) ok :: rest))
        with (transactionOf
                ((if Num.geb (JS.Number_of_bigint (Miner.rewardsSol miner) / 1e9)
                       (Settings.minClaimableSol settings)
                  then [buildClaimSolInstruction] else [])
                 ++ (if Num.geb (JS.Number_of_bigint (Miner.rewardsOre miner) / 1e11)
                         (Settings.minClaimableOre settings)
                     then [buildClaimOreInstruction] else [])) d :: submitted rest).
      rewrite Hrest. repeat split; try congruence.
      * cbn. lia.
      * intros tx [<-|[]]. exists miner. rewrite instructionsOf_transactionOf. auto.
  - unfold claimRewards. rewrite Hm. cbn. repeat split; auto; try lia; try (intros ? []).
  - unfold claimRewards. rewrite Hm. cbn. repeat split; auto; try lia; try (intros ? []).
Qed.

(** X15. The description of a claim can name the wrong reward.  When the SOL
    reward is positive but below its threshold and the ORE reward reaches
    its own, the transaction holds the ORE claim alone and is described as
    a claim of SOL. *)
Theorem claim_described_as_sol (settings : Settings.t) (env : ClaimEnv) (miner : Miner.t) :
  claimMiner env = Returned (Some miner) ->
  Settings.dryRun settings = false ->
  (0 < Miner.rewardsSol miner)%Z ->
  Num.geb (JS.Number_of_bigint (Miner.rewardsSol miner) / 1e9)
    (Settings.minClaimableSol settings) = false ->
  Num.geb (JS.Number_of_bigint (Miner.rewardsOre miner) / 1e11)
    (Settings.minClaimableOre settings) = true ->
  submitted (claimRewards settings env)
  = [ {| description := "Claim SOL";
         items := [ SetComputeUnitLimit 1400000; SetComputeUnitPrice 0;
                    Instruction buildClaimOreInstruction ] |} ].
Proof.
  intros Hm Dry Hpos Hsol Hore.
  assert (G : JS.gtb (JS.Number_of_bigint (Miner.rewardsSol miner) / 1e9) 0 = true)
    by (apply Number_div_1e9_positive, Hpos).
  unfold claimRewards. rewrite Hm, Hsol, Hore, Dry.
  cbn [app]. unfold claimDescription. cbn [length Nat.eqb andb]. rewrite G.
  destruct (claimSend env); [|reflexivity].
  cbn [submitted flat_map app]. f_equal.
  destruct (Settings.autoSwapOre settings && JS.gtb _ 0); [|reflexivity].
  destruct (walletOre env); [|reflexivity].
  destruct (Num.geb _ (Settings.minOreForSwap settings)); reflexivity.
Qed.

(** X16. A claim of SOL alone can sell the wallet's ORE.  When the ORE reward
    is positive but below its threshold, the claim transaction holds the
    SOL claim only; if it goes through and [autoSwapOre] is set,
    [swapOreToSol] is called with the whole ORE balance of the wallet
    [Number(amount) / 1e11], whenever that reaches [minOreForSwap]. *)
Theorem sol_claim_swaps_wallet_ore (settings : Settings.t) (env : ClaimEnv)
    (miner : Miner.t) (amount : Z) :
  claimMiner env = Returned (Some miner) ->
  Settings.dryRun settings = false ->
  Settings.autoSwapOre settings = true ->
  claimSend env = true ->
  Num.geb (JS.Number_of_bigint (Miner.rewardsSol miner) / 1e9)
    (Settings.minClaimableSol settings) = true ->
  (0 < Miner.rewardsOre miner)%Z ->
  Num.geb (JS.Number_of_bigint (Miner.rewardsOre miner) / 1e11)
    (Settings.minClaimableOre settings) = false ->
  walletOre env = Returned amount ->
  Num.geb (JS.Number_of_bigint amount / 1e11) (Settings.minOreForSwap settings) = true ->
  exists tx swap,
    claimRewards settings env
    = [Submitted tx true; SwapOreToSol (JS.Number_of_bigint amount / 1e11) swap]
    /\ instructionsOf tx = [buildClaimSolInstruction]
    /\ swap = snd (DFlow.swapOreToSol false (swapEnv env) (JS.Number_of_bigint amount / 1e11))
    /\ DFlow.quotedAmounts swap <> []
    /\ Forall (fun a => a = JS.Math_floor (JS.Number_of_bigint amount / 1e11 * 1e11))
         (DFlow.quotedAmounts swap).
Proof.
  intros Hm Dry Auto Send Hsol Hpos Hore Hw Hswap.
  unfold claimRewards. rewrite Hm, Hsol, Hore, Dry, Send, Auto, Hw, Hswap.
  assert (G : JS.gtb (JS.Number_of_bigint (Miner.rewardsOre miner) / 1e11) 0 = true)
    by (apply increaseSol_of_positive, Hpos).
  cbn [app andb]. rewrite G.
  eexists. eexists. split; [reflexivity|].
  rewrite instructionsOf_transactionOf. split; [reflexivity|]. split; [reflexivity|].
  apply swap_quoted.
Qed.

End ClaimClaims.

(** ** Texts and their white space *)

Section Texts.
Local Open Scope string_scope.
Local Open Scope N_scope.

Ltac divlia := zify; Z.to_euclidean_division_equations; lia.

Lemma N_of_ascii_of_N n : n < 256 -> N_of_ascii (ascii_of_N n) = n.
Proof. apply N_ascii_embedding. Qed.

(** The white space, one by one. *)
Lemma isWhiteSpace_cases c :
  JS.isWhiteSpace c = true ->
  In c [9; 10; 11; 12; 13; 0x20; 0xA0; 0x1680; 0x2000; 0x2001; 0x2002; 0x2003;
        0x2004; 0x2005; 0x2006; 0x2007; 0x2008; 0x2009; 0x200A; 0x2028; 0x2029;
        0x202F; 0x205F; 0x3000; 0xFEFF].
Proof.
  unfold JS.isWhiteSpace. rewrite !orb_true_iff, !andb_true_iff, !N.leb_le, !N.eqb_eq.
  cbn [In]. intros H. lia.
Qed.

(** The three forms of [utf8] are read back by [codePoint1], [codePoint2]
    and [codePoint3], each by its own only. *)
Lemma codePoint1_utf8 c :
  c < 0x80 -> JS.codePoint1 (ascii_of_N c) = Some c.
Proof.
  intros H. unfold JS.codePoint1. rewrite N_of_ascii_of_N by lia.
  destruct (N.ltb_spec c 0x80); [reflexivity | lia].
Qed.

Lemma codePoint1_high a : 0x80 <= N_of_ascii a -> JS.codePoint1 a = None.
Proof.
  intros H. unfold JS.codePoint1. destruct (N.ltb_spec (N_of_ascii a) 0x80); [lia | reflexivity].
Qed.

Lemma codePoint2_low a b : N_of_ascii a < 0xC2 -> JS.codePoint2 a b = None.
Proof.
  intros H. unfold JS.codePoint2.
  destruct (N.leb_spec 0xC2 (N_of_ascii a)); [lia | reflexivity].
Qed.

Lemma codePoint2_high a b : 0xDF < N_of_ascii a -> JS.codePoint2 a b = None.
Proof.
  intros H. unfold JS.codePoint2.
  destruct (N.leb_spec 0xC2 (N_of_ascii a)); [|reflexivity].
  destruct (N.leb_spec (N_of_ascii a) 0xDF); [lia | reflexivity].
Qed.

Lemma codePoint3_low a b c : N_of_ascii a < 0xE0 -> JS.codePoint3 a b c = None.
Proof.
  intros H. unfold JS.codePoint3.
  destruct (N.leb_spec 0xE0 (N_of_ascii a)); [lia | reflexivity].
Qed.

Lemma codePoint2_utf8 c :
  0x80 <= c < 0x800 ->
  JS.codePoint2 (ascii_of_N (0xC0 + c / 64)) (ascii_of_N (0x80 + c mod 64)) = Some c.
Proof.
  intros H. unfold JS.codePoint2.
  assert (H1 : c / 64 < 32) by divlia.
  assert (H2 : 2 <= c / 64) by divlia.
  assert (H3 : c mod 64 < 64) by divlia.
  rewrite !N_of_ascii_of_N by divlia.
  destruct (N.leb_spec 0xC2 (0xC0 + c / 64)); [|divlia].
  destruct (N.leb_spec (0xC0 + c / 64) 0xDF); [|divlia].
  destruct (N.leb_spec 0x80 (0x80 + c mod 64)); [|divlia].
  destruct (N.leb_spec (0x80 + c mod 64) 0xBF); [|divlia].
  cbn [andb]. f_equal. divlia.
Qed.

Lemma codePoint3_utf8 c :
  0x800 <= c < 0x10000 ->
  JS.codePoint3 (ascii_of_N (0xE0 + c / 4096)) (ascii_of_N (0x80 + (c / 64) mod 64))
    (ascii_of_N (0x80 + c mod 64)) = Some c.
Proof.
  intros H. unfold JS.codePoint3.
  assert (H1 : c / 4096 < 16) by divlia.
  assert (H3 : (c / 64) mod 64 < 64) by divlia.
  assert (H4 : c mod 64 < 64) by divlia.
  rewrite !N_of_ascii_of_N by divlia.
  destruct (N.leb_spec 0xE0 (0xE0 + c / 4096)); [|divlia].
  destruct (N.leb_spec (0xE0 + c / 4096) 0xEF); [|divlia].
  destruct (N.leb_spec 0x80 (0x80 + (c / 64) mod 64)); [|divlia].
  destruct (N.leb_spec (0x80 + (c / 64) mod 64) 0xBF); [|divlia].
  destruct (N.leb_spec 0x80 (0x80 + c mod 64)); [|divlia].
  destruct (N.leb_spec (0x80 + c mod 64) 0xBF); [|divlia].
  cbn [andb].
  assert (E : (0xE0 + c / 4096 - 0xE0) * 4096 + (0x80 + (c / 64) mod 64 - 0x80) * 64
              + (0x80 + c mod 64 - 0x80) = c).
  { divlia. }
  cbv zeta. rewrite E.
  destruct (N.leb_spec 0x800 c); [reflexivity | divlia].
Qed.

Lemma colon_utf8 c : c < 0x80 -> Ascii.eqb (ascii_of_N c) ":"%char = (c =? 58).
Proof.
  intros H. destruct (Ascii.eqb_spec (ascii_of_N c) ":"%char) as [E|E];
    destruct (N.eqb_spec c 58) as [E1|E1]; try reflexivity.
  - exfalso. apply E1. rewrite <- (N_of_ascii_of_N c) by lia. rewrite E. reflexivity.
  - exfalso. apply E. rewrite E1. reflexivity.
Qed.

Lemma colon_high a : 0x80 <= N_of_ascii a -> Ascii.eqb a ":"%char = false.
Proof.
  intros H. destruct (Ascii.eqb_spec a ":"%char) as [->|]; [|reflexivity].
  cbn in H. lia.
Qed.

(** On the bytes of a character the two classes are what they are on its
    code point: the character is taken exactly when it is white space or,
    with [colon], the colon. *)
Lemma spanSeparators_utf8 colon c s :
  c < 0x10000 ->
  JS.spanSeparators colon (JS.utf8 c ++ s)
  = if JS.isWhiteSpace c || (colon && (c =? 58))
    then (JS.utf8 c ++ fst (JS.spanSeparators colon s), snd (JS.spanSeparators colon s))
    else (EmptyString, JS.utf8 c ++ s).
Proof.
  intros Hc. unfold JS.utf8.
  destruct (N.ltb_spec c 0x80) as [H1|H1]; [|destruct (N.ltb_spec c 0x800) as [H2|H2]].
  - cbn [append JS.spanSeparators].
    rewrite codePoint1_utf8, colon_utf8 by lia. cbn [JS.inWhiteSpace].
    destruct (JS.isWhiteSpace c || colon && (c =? 58)).
    + destruct (JS.spanSeparators colon s); reflexivity.
    + assert (Ha : N_of_ascii (ascii_of_N c) < 0xC2) by (rewrite N_of_ascii_of_N; lia).
      destruct s as [|b [|c' r]]; try reflexivity.
      * rewrite codePoint2_low by exact Ha. reflexivity.
      * rewrite codePoint2_low by exact Ha. rewrite codePoint3_low by lia. reflexivity.
  - assert (D1 : c / 64 < 32) by divlia.
    assert (D2 : 2 <= c / 64) by divlia.
    assert (Ha : N_of_ascii (ascii_of_N (0xC0 + c / 64)) = 0xC0 + c / 64)
      by (apply N_of_ascii_of_N; lia).
    cbn [append JS.spanSeparators].
    rewrite codePoint1_high, colon_high by lia.
    rewrite codePoint2_utf8 by lia. cbn [JS.inWhiteSpace orb andb].
    replace (c =? 58) with false by (symmetry; apply N.eqb_neq; lia).
    rewrite andb_false_r, orb_false_r.
    destruct (JS.isWhiteSpace c).
    + destruct (JS.spanSeparators colon s); reflexivity.
    + destruct s as [|c' r]; [reflexivity|].
      rewrite codePoint3_low by lia. reflexivity.
  - assert (D1 : c / 4096 < 16) by divlia.
    assert (Ha : N_of_ascii (ascii_of_N (0xE0 + c / 4096)) = 0xE0 + c / 4096)
      by (apply N_of_ascii_of_N; lia).
    cbn [append JS.spanSeparators].
    rewrite codePoint1_high, colon_high by divlia.
    rewrite andb_false_r. cbn [JS.inWhiteSpace orb].
    rewrite codePoint2_high by divlia. cbn [JS.inWhiteSpace].
    rewrite codePoint3_utf8 by divlia. cbn [JS.inWhiteSpace orb andb].
    replace (c =? 58) with false by (symmetry; apply N.eqb_neq; lia).
    rewrite andb_false_r, orb_false_r.
    destruct (JS.isWhiteSpace c).
    + destruct (JS.spanSeparators colon s); reflexivity.
    + reflexivity.
Qed.

(** Leading white space is skipped, and nothing else. *)
Lemma trimStart_utf8 c s :
  c < 0x10000 ->
  Num.trimStart (JS.utf8 c ++ s)
  = if JS.isWhiteSpace c then Num.trimStart s else JS.utf8 c ++ s.
Proof.
  intros Hc. unfold Num.trimStart. rewrite spanSeparators_utf8 by exact Hc.
  cbn [andb]. rewrite orb_false_r. destruct (JS.isWhiteSpace c); reflexivity.
Qed.

Lemma isWhiteSpace_bound c : JS.isWhiteSpace c = true -> c < 0x10000.
Proof.
  intros H. apply isWhiteSpace_cases in H. cbn [In] in H.
  repeat (destruct H as [<-|H]); try contradiction; reflexivity.
Qed.

End Texts.

(** ** The configuration *)

Section ConfigClaims.
Import Outcome Env.
Local Open Scope float_scope.
Local Open Scope string_scope.

(** X17. The settings are not checked.  A number that is set to a text which
    does not start (after white space) with a digit, a sign, a point or
    [I] is NaN, not the default and not an error.  The white space that is
    skipped in front is the white space of JavaScript, and nothing else: a
    character up to U+FFFF is skipped exactly when it is one of them, so
    that U+00A0 in front of [25] gives 25.  A flag is true only for the
    text [true] in any letter case, so that [1] or [yes] is false even
    where the default is true.  A variable that is unset or empty gives
    the default. *)
Theorem settings_not_validated (env : Env.t) (key : string) :
  (forall value c r defaultValue,
     env key = Some value -> Num.trimStart value = String c r ->
     JS.isDigit c = false ->
     c <> "+"%char -> c <> "-"%char -> c <> "."%char -> c <> "I"%char ->
     JS.isNaN (getEnvNumber env key defaultValue) = true)
  /\ (forall c value,
        (c < 0x10000)%N ->
        Num.trimStart (JS.utf8 c ++ value)
        = if JS.isWhiteSpace c then Num.trimStart value else JS.utf8 c ++ value)
  /\ (forall c value defaultValue,
        JS.isWhiteSpace c = true ->
        env key = Some (JS.utf8 c ++ value) ->
        getEnvNumber env key defaultValue = Num.parseFloat value)
  /\ (forall defaultValue,
        env key = Some (JS.utf8 0xA0 ++ "25") ->
        getEnvNumber env key defaultValue = 25)
  /\ (forall value defaultValue,
        env key = Some value -> value <> EmptyString ->
        getEnvBoolean env key defaultValue
        = String.eqb (Num.toLowerCase value) "true")
  /\ (forall defaultNumber defaultFlag,
        env key = None \/ env key = Some EmptyString ->
        getEnvNumber env key defaultNumber = defaultNumber
        /\ getEnvBoolean env key defaultFlag = defaultFlag).
Proof.
  assert (Hskip : forall c value d,
            JS.isWhiteSpace c = true -> env key = Some (JS.utf8 c ++ value) ->
            getEnvNumber env key d = Num.parseFloat value).
  { intros c value d Hc Hv. unfold getEnvNumber. rewrite Hv.
    assert (Hne : exists a r, (JS.utf8 c ++ value)%string = String a r).
    { unfold JS.utf8. destruct (c <? 128)%N; [|destruct (c <? 2048)%N];
        cbn [append]; eauto. }
    destruct Hne as (a & r & E). rewrite E. cbn [truthy]. rewrite <- E.
    unfold Num.parseFloat.
    rewrite trimStart_utf8 by (apply isWhiteSpace_bound; exact Hc).
    rewrite Hc. reflexivity. }
  split; [|split; [|split; [|split; [|split]]]].
  - intros value c r d Hv Ht Hd Hp Hm Hdot HI. unfold getEnvNumber. rewrite Hv.
    assert (Hne : value <> EmptyString) by (intros ->; discriminate).
    destruct value as [|v0 vr]; [congruence|]. cbn [truthy].
    unfold Num.parseFloat. rewrite Ht.
    clear Ht Hv Hne.
    destruct c as [[] [] [] [] [] [] [] []];
      try discriminate Hd; try congruence; reflexivity.
  - intros c value Hc. apply trimStart_utf8. exact Hc.
  - exact Hskip.
  - intros d Hv. rewrite (Hskip 0xA0%N "25" d eq_refl Hv). vm_compute. reflexivity.
  - intros value d Hv Hne. unfold getEnvBoolean. rewrite Hv.
    destruct value; [congruence | reflexivity].
  - intros dn df [H|H]; unfold getEnvNumber, getEnvBoolean; rewrite H; split; reflexivity.
Qed.

(** X18. Loading the configuration.  Without [PRIVATE_KEY], unset or empty,
    it throws the error that names the variable.  With it, and every other
    variable unset or empty, the configuration is the defaults: strategy
    [max], buffer 10, bets between 0.0001 and 0.01, a window of 10 seconds,
    a minimum balance of 0.1, dry-run off, claiming every round, thresholds
    0.001 SOL and 0.5 ORE, the swap on from 0.5 ORE. *)
Theorem load_defaults (isPublicKey : string -> bool) (env : Env.t) :
  (env "PRIVATE_KEY"%string = None \/ env "PRIVATE_KEY"%string = Some EmptyString ->
   load isPublicKey env
   = Thrown (Failure "Missing required environment variable: PRIVATE_KEY"))
  /\ (forall key,
        env "PRIVATE_KEY"%string = Some key -> key <> EmptyString ->
        (forall k, k <> "PRIVATE_KEY"%string -> env k = None \/ env k = Some EmptyString) ->
        isPublicKey "oreV3EG1i9BEgiAJ8b177Z2S2rMarzak4NMv1kULvWv" = true ->
        isPublicKey "oreoU2P8bN6jkk3jbaiVxYnG1dCXcYxwhwyK9jSybcp" = true ->
        exists c,
          load isPublicKey env = Returned c
          /\ privateKey c = key
          /\ rpcUrl c = "https://api.mainnet-beta.solana.com"%string
          /\ bidConfig c = Config.default
          /\ settings c
             = {| Settings.dryRun := false;
                  Settings.claimEveryRound := true;
                  Settings.minClaimableSol := 0.001;
                  Settings.minClaimableOre := 0.5;
                  Settings.autoSwapOre := true;
                  Settings.minOreForSwap := 0.5 |}).
Proof.
  split.
  - intros H. unfold load, getEnv.
    assert (Hrpc : exists v, (match truthy
               match truthy (env "RPC_URL"%string) with
               | Some v => Some v
               | None => Some "https://api.mainnet-beta.solana.com"%string
               end with
             | Some v => Returned v
             | None => Thrown (Failure ("Missing required environment variable: " ++ "RPC_URL"))
             end) = Returned v).
    { destruct (env "RPC_URL"%string) as [[|c r]|]; cbn; eauto. }
    destruct Hrpc as [v ->]. cbn [Outcome.bind].
    destruct H as [-> | ->]; reflexivity.
  - intros key Hk Hne Hother Hp Hm.
    assert (T : forall k, k <> "PRIVATE_KEY"%string -> truthy (env k) = None).
    { intros k Hkk. destruct (Hother k Hkk) as [-> | ->]; reflexivity. }
    unfold load, getEnv, getEnvNumber, getEnvBoolean, newPublicKey.
    rewrite Hk. rewrite !T by discriminate.
    destruct key as [|k0 kr]; [congruence|]. cbn.
    rewrite Hp. cbn. rewrite Hm. cbn.
    eexists. split; [reflexivity|]. repeat split.
Qed.

End ConfigClaims.

(** ** The sign of a rounded value *)

Section Signs.
Import Binary64.
Local Open Scope Z_scope.

(** A value of sign [s], zero included; not NaN. *)
Lemma shr_fexp_nonneg m e l : 0 <= m -> 0 <= shr_m (fst (shr_fexp prec emax m e l)).
Proof.
  intros Hm. unfold shr_fexp, shr.
  destruct (fexp prec emax (Zdigits2 m + e) - e) as [|n|n]; cbn [fst];
    rewrite ?shr_record_of_loc_m; try exact Hm.
  rewrite iter_shr_1_m by (rewrite shr_record_of_loc_m; exact Hm).
  rewrite shr_record_of_loc_m. apply Z.div_pos; [exact Hm | apply Z.pow_pos_nonneg; lia].
Qed.

Lemma binary_round_aux_sign s m e l :
  0 <= m ->
  match binary_round_aux prec emax s m e l with
  | S754_zero s' | S754_infinity s' | S754_finite s' _ _ => s' = s
  | S754_nan => False
  end.
Proof.
  intros Hm. unfold binary_round_aux.
  pose proof (shr_fexp_nonneg m e l Hm) as H1.
  destruct (shr_fexp prec emax m e l) as [mrs' e']. cbn [fst] in H1.
  pose proof (round_nearest_even_ge (shr_m mrs') (loc_of_shr_record mrs')) as Hr.
  set (m1 := round_nearest_even (shr_m mrs') (loc_of_shr_record mrs')) in *.
  pose proof (shr_fexp_nonneg m1 e' loc_Exact ltac:(lia)) as H2.
  destruct (shr_fexp prec emax m1 e' loc_Exact) as [mrs'' e'']. cbn [fst] in H2.
  destruct (shr_m mrs'') as [|m2|m2]; try lia; [reflexivity|].
  destruct (e'' <=? emax - prec); reflexivity.
Qed.

Lemma binary_round_sign s m e :
  match binary_round prec emax s m e with
  | S754_zero s' | S754_infinity s' | S754_finite s' _ _ => s' = s
  | S754_nan => False
  end.
Proof.
  unfold binary_round.
  destruct (shl_align m e (fexp prec emax (Zpos (digits2_pos m) + e))) as [mz ez].
  apply binary_round_aux_sign. lia.
Qed.

End Signs.

Section SignNumbers.
Local Open Scope float_scope.

(** A product with a positive finite number is positive only if the other
    factor is. *)
Lemma mul_not_positive a m e :
  (0 <? a) = false ->
  SFltb (S754_zero false) (SF64mul (Prim2SF a) (S754_finite false m e)) = false.
Proof.
  rewrite FloatAxioms.ltb_spec. change (Prim2SF 0) with (S754_zero false).
  destruct (Prim2SF a) as [[|]|[|]| |[|] ma ea]; cbn; try reflexivity; try discriminate.
  intros _.
  pose proof (binary_round_aux_sign true (Zpos (ma * m)) (ea + e) loc_Exact ltac:(lia)) as H.
  destruct (binary_round_aux prec emax true (Zpos (ma * m)) (ea + e) loc_Exact)
    as [[|]|[|]| |[|] ? ?]; cbn in H; try discriminate; try contradiction; reflexivity.
Qed.

(** [Math.max(0, y) > 0] only for a positive [y]. *)
Lemma Math_max_0_positive y : (0 <? y) = false -> JS.gtb (JS.Math_max 0 y) 0 = false.
Proof.
  intros H. unfold JS.gtb, JS.Math_max. rewrite H.
  destruct (JS.isNaN y) eqn:N; cbn [orb JS.isNaN is_nan]; cbn.
  - reflexivity.
  - destruct (y <? 0); reflexivity.
Qed.

End SignNumbers.

(** ** The loop: when it does not deploy *)

Section LoopTimes.
Import Accounts Bot Rounds.
Local Open Scope float_scope.

Lemma iteration_outside_window cfg st tk board slot :
  chain tk = Some (board, slot) ->
  inSnipeWindow cfg (secondsRemaining board slot) = false ->
  deploys (snd (iteration cfg st tk)) = 0%nat.
Proof.
  intros Hc Hw. unfold iteration. rewrite Hc, Hw. cbn [andb].
  destruct (negb (roundId board =? lastRoundId st)%Z).
  - destruct (newRound tk); reflexivity.
  - reflexivity.
Qed.

Lemma secondsRemaining_not_started board slot :
  endSlot board = 18446744073709551615%Z -> secondsRemaining board slot = 60.
Proof.
  intros H. unfold secondsRemaining. rewrite H.
  replace (JS.lt_bigint (JS.Number_of_bigint 18446744073709551615) 18446744073709551615)
    with false by (vm_compute; reflexivity).
  vm_compute. reflexivity.
Qed.

(** X19. While the round has not started (the board's [endSlot] is the largest
    [u64]) the loop counts 60 seconds to go, whatever the slot: with a
    window of less than 60 seconds no iteration deploys. *)
Theorem no_deploy_before_round_starts (cfg : Config.t) (st : LoopState) (tk : Tick)
    (board : Board) (slot : Z) :
  chain tk = Some (board, slot) ->
  endSlot board = 18446744073709551615%Z ->
  (Config.snipeWindowSeconds cfg <? 60) = true ->
  secondsRemaining board slot = 60
  /\ deploys (snd (iteration cfg st tk)) = 0%nat.
Proof.
  intros Hc He Hw. pose proof (secondsRemaining_not_started board slot He) as Hs.
  split; [exact Hs|].
  apply (iteration_outside_window cfg st tk board slot Hc).
  unfold inSnipeWindow. rewrite Hs.
  destruct (60 <=? Config.snipeWindowSeconds cfg) eqn:E; [|reflexivity].
  apply fle_lt_false in E. congruence.
Qed.

(** X20. Once the current slot has reached the end slot of the round, the
    seconds to go are not positive and no iteration deploys (slots below
    2^53, as they are on the chain). *)
Theorem no_deploy_after_round_end (cfg : Config.t) (st : LoopState) (tk : Tick)
    (board : Board) (slot : Z) :
  chain tk = Some (board, slot) ->
  (0 < endSlot board <= slot)%Z -> (slot < 2 ^ 53)%Z ->
  JS.gtb (secondsRemaining board slot) 0 = false
  /\ deploys (snd (iteration cfg st tk)) = 0%nat.
Proof.
  intros Hc He Hs.
  assert (Hsec : JS.gtb (secondsRemaining board slot) 0 = false).
  { unfold secondsRemaining.
    assert (Hact : JS.lt_bigint (JS.Number_of_bigint (endSlot board)) 18446744073709551615 = true).
    { unfold JS.lt_bigint. rewrite Number_floor by lia. apply Z.ltb_lt.
      change (2 ^ 53)%Z with 9007199254740992%Z in Hs. lia. }
    rewrite Hact. apply Math_max_0_positive.
    rewrite FloatAxioms.ltb_spec, FloatAxioms.mul_spec.
    change (Prim2SF 0) with (S754_zero false).
    change (Prim2SF 0.4) with (S754_finite false 7205759403792794 (-54)).
    apply mul_not_positive.
    assert (P0 : forall z, (0 < z < 2 ^ 53)%Z -> (0 <? JS.Number_of_bigint z) = true).
    { intros z Hz. change 0 with (JS.Number_of_bigint 0).
      rewrite Number_ltb by lia. apply Z.ltb_lt. lia. }
    rewrite sub_positive by (apply P0; lia).
    rewrite Number_ltb by lia. apply Z.ltb_ge. lia. }
  split; [exact Hsec|].
  apply (iteration_outside_window cfg st tk board slot Hc).
  unfold inSnipeWindow. rewrite Hsec. apply andb_false_r.
Qed.

(** X21. A balance below [minWalletBalance] at the end of the new-round
    block skips the round: the block marks the round as handled, and
    [deploy] is not called in that iteration nor in any later one that
    sees this round. *)
Theorem low_balance_skips_round (cfg : Config.t) (st : LoopState) (tk : Tick)
    (ticks : list Tick) (board : Board) (slot : Z) (currentBalance : float) :
  chain tk = Some (board, slot) ->
  roundId board <> lastRoundId st ->
  newRound tk = BlockDone currentBalance ->
  (currentBalance <? Config.minWalletBalance cfg) = true ->
  forallb (observes (roundId board)) ticks = true ->
  deploys (snd (run cfg st (tk :: ticks))) = 0%nat
  /\ lastRoundId (fst (run cfg st (tk :: ticks))) = roundId board
  /\ hasDeployedThisRound (fst (run cfg st (tk :: ticks))) = true.
Proof.
  intros Hc Hr Hn Hb Ho. cbn [run].
  assert (E : iteration cfg st tk
              = ({| lastRoundId := roundId board; hasDeployedThisRound := true |},
                 [StartBetTracking (roundId board)])).
  { unfold iteration. rewrite Hc.
    destruct (Z.eqb_spec (roundId board) (lastRoundId st)) as [E|_]; [contradiction|].
    cbn [negb]. rewrite Hn. cbn [onNewRound]. rewrite Hb.
    cbn [hasDeployedThisRound negb]. rewrite andb_false_r. reflexivity. }
  rewrite E.
  rewrite (run_handled cfg ticks
             {| lastRoundId := roundId board; hasDeployedThisRound := true |}
             (roundId board) Ho eq_refl eq_refl).
  repeat split; reflexivity.
Qed.

(** X22. A throw in the new-round block gets round the balance check.  The
    block has already set [lastRoundId] and cleared [hasDeployedThisRound]
    when one of its calls throws, and it is not run again for this round:
    the next iteration in the snipe window deploys, whatever the balance
    is. *)
Theorem throw_skips_balance_check (cfg : Config.t) (st : LoopState) (tk1 tk2 : Tick)
    (board1 board2 : Board) (slot1 slot2 : Z) :
  chain tk1 = Some (board1, slot1) ->
  roundId board1 <> lastRoundId st ->
  newRound tk1 = BlockThrows ->
  chain tk2 = Some (board2, slot2) ->
  roundId board2 = roundId board1 ->
  inSnipeWindow cfg (secondsRemaining board2 slot2) = true ->
  automationThrows tk2 = false ->
  snd (run cfg st [tk1; tk2])
  = [ StartBetTracking (roundId board1);
      Deploy (roundId board1) (Estimator.betPerSquare cfg (store tk2) (round tk2))
        (deployResult tk2) ].
Proof.
  intros Hc1 Hr Hn Hc2 Hr2 Hw Ha. cbn [run].
  assert (E1 : iteration cfg st tk1
               = ({| lastRoundId := roundId board1; hasDeployedThisRound := false |},
                  [StartBetTracking (roundId board1)])).
  { unfold iteration. rewrite Hc1.
    destruct (Z.eqb_spec (roundId board1) (lastRoundId st)) as [E|_]; [contradiction|].
    cbn [negb]. rewrite Hn. reflexivity. }
  rewrite E1.
  assert (E2 : iteration cfg {| lastRoundId := roundId board1; hasDeployedThisRound := false |} tk2
               = ({| lastRoundId := roundId board1; hasDeployedThisRound := true |},
                  [Deploy (roundId board1) (Estimator.betPerSquare cfg (store tk2) (round tk2))
                     (deployResult tk2)])).
  { unfold iteration. rewrite Hc2. cbn [lastRoundId]. rewrite Hr2, Z.eqb_refl.
    cbn [negb]. rewrite Hw, Ha. reflexivity. }
  rewrite E2. reflexivity.
Qed.

End LoopTimes.

(** ** The tracker: more on its states *)

Section TrackerMore.
Import Accounts BetTracker Samples Events Tracker.
Local Open Scope float_scope.

Lemma entries_not_negative tr :
  forallb validSample tr = true ->
  Forall (fun x => JS.isNaN x = false /\ (0 <=? x) = true)
    (maxBetPerSquare (recordAll tr freshBetData)).
Proof.
  intros Hv. destruct (maxima_invariant tr Hv) as [Hlen Hmax].
  apply Forall_lookup. intros i x Hx.
  pose proof (lookup_lt_Some _ _ _ Hx) as Hi. rewrite Hlen in Hi.
  destruct (Hmax i Hi) as [m [Hm Hmm]]. rewrite Hx in Hm. injection Hm as <-.
  destruct (samplesOf i tr) as [|y l] eqn:E; unfold maximumOf in Hmm.
  - subst x. split; reflexivity.
  - destruct Hmm as [Hin _]. rewrite <- E in Hin.
    pose proof (samplesOf_positive i tr Hv) as Hp.
    unfold allPositive in Hp. rewrite List.Forall_forall in Hp.
    specialize (Hp x Hin). split; [eapply flt_not_nan_r; exact Hp | apply flt_le, Hp].
Qed.

Lemma getMaxBet_bounds tr :
  forallb validSample tr = true ->
  let bd := recordAll tr freshBetData in
  (0 <=? getMaxBet bd) = true
  /\ Forall (fun x => (x <=? getMaxBet bd) = true) (maxBetPerSquare bd)
  /\ exists j, (j < 25)%nat /\ maxBetPerSquare bd !! j = Some (getMaxBet bd).
Proof.
  intros Hv bd. destruct (maxima_invariant tr Hv) as [Hlen _]. fold bd in Hlen.
  pose proof (entries_not_negative tr Hv) as Hent. fold bd in Hent.
  assert (Hnn : Forall (fun x => JS.isNaN x = false) (maxBetPerSquare bd)).
  { eapply List.Forall_impl; [|exact Hent]. intros x [H _]. exact H. }
  destruct (fold_Math_max (maxBetPerSquare bd) neg_infinity eq_refl Hnn) as [Hr [_ Hall]].
  fold (JS.Math_max_spread (maxBetPerSquare bd)) in Hr, Hall.
  fold (getMaxBet bd) in Hr, Hall.
  assert (H0 : (0 <=? getMaxBet bd) = true).
  { destruct (maxBetPerSquare bd) as [|x l] eqn:E; [discriminate|].
    apply List.Forall_cons_iff in Hent as [[_ Hx] _].
    apply List.Forall_cons_iff in Hall as [Hxr _].
    eapply fle_trans; eassumption. }
  split; [exact H0|]. split; [exact Hall|].
  destruct Hr as [Hr|Hr]; [rewrite Hr in H0; discriminate|].
  apply list_elem_of_In, list_elem_of_lookup in Hr as [j Hj].
  exists j. split; [|exact Hj].
  apply lookup_lt_Some in Hj. lia.
Qed.

(** X23. In every state the tracker reaches, [getMaxBet()] is the entry of one
    of the 25 squares and no square is above it: [getMaxBetForSquare(i)] is
    a number between 0 and [getMaxBet()] for every integer [i], and 0 for
    an index outside 0..24. *)
Theorem getMaxBet_over_squares (events : list Event) :
  let bd := betData (after events) in
  (forall i, exists m,
     getMaxBetForSquare i bd = Some m
     /\ (0 <=? m) = true /\ (m <=? getMaxBet bd) = true)
  /\ (exists j, (0 <= j < 25)%Z /\ getMaxBetForSquare j bd = Some (getMaxBet bd))
  /\ (forall i, (i < 0 \/ 25 <= i)%Z -> getMaxBetForSquare i bd = Some 0).
Proof.
  destruct (after_valid events) as (tr & Hv & ->). cbv zeta.
  destruct (maxima_invariant tr Hv) as [Hlen _].
  pose proof (entries_not_negative tr Hv) as Hent.
  destruct (getMaxBet_bounds tr Hv) as (H0 & Hall & j & Hj & Hjm).
  set (bd := recordAll tr freshBetData) in *.
  split; [|split].
  - intros i. unfold getMaxBetForSquare.
    destruct ((i <? 0)%Z || (i >=? 25)%Z) eqn:E.
    + exists 0. split; [reflexivity|]. split; [reflexivity | exact H0].
    + apply orb_false_elim in E as [E1 E2].
      apply Z.ltb_ge in E1. rewrite Z.geb_leb in E2. apply Z.leb_gt in E2.
      destruct (lookup_lt_is_Some_2 (maxBetPerSquare bd) (Z.to_nat i)) as [m Hm]; [lia|].
      exists m. split; [exact Hm|].
      rewrite Forall_lookup in Hent. rewrite Forall_lookup in Hall.
      split; [apply (Hent _ _ Hm) | apply (Hall _ _ Hm)].
  - exists (Z.of_nat j). split; [lia|]. unfold getMaxBetForSquare.
    destruct (Z.ltb_spec (Z.of_nat j) 0); [lia|].
    rewrite Z.geb_leb. destruct (Z.leb_spec 25 (Z.of_nat j)); [lia|].
    cbn [orb]. rewrite Nat2Z.id. exact Hjm.
  - intros i Hi. unfold getMaxBetForSquare.
    destruct (Z.ltb_spec i 0); [reflexivity|].
    rewrite Z.geb_leb. destruct (Z.leb_spec 25 i); [reflexivity | lia].
Qed.

Lemma totalBets_recordAll tr : forall bd,
  (totalBets bd <= totalBets (recordAll tr bd) <= totalBets bd + Z.of_nat (length tr))%Z.
Proof.
  induction tr as [|s tr IH]; intros bd; [cbn; lia|].
  cbn [recordAll fold_left length]. specialize (IH (record bd s)).
  unfold recordAll in IH.
  assert (totalBets bd <= totalBets (record bd s) <= totalBets bd + 1)%Z
    by (destruct s; cbn; lia).
  lia.
Qed.

Lemma getNthHighestBet_In tr n :
  forallb validSample tr = true -> tr <> [] ->
  In (getNthHighestBet n (recordAll tr freshBetData)) (map amount tr).
Proof.
  intros Hv Hne. unfold getNthHighestBet. rewrite allBets_recordAll.
  destruct (map amount tr) as [|b bs] eqn:Eb.
  { apply map_eq_nil in Eb. congruence. }
  rewrite <- Eb.
  destruct (Array_sort_descending (map amount tr) (amounts_positive tr Hv)) as [_ Hperm].
  eapply Permutation_in; [symmetry; exact Hperm|].
  apply nth_In.
  pose proof (Permutation_length Hperm) as Hlen. rewrite Eb in Hlen at 1. cbn in Hlen. lia.
Qed.

(** X24. In every state the tracker reaches, the count [totalBets] is at most
    the number of samples.  So when [main] takes the live data
    ([hasBetData()] is true) there are samples, and the target it bids
    against, [getMaxBet()] or [getNthHighestBet(2)], is one of them: a
    positive number, never 0 or NaN. *)
Theorem live_target_is_a_sample (events : list Event) :
  let bd := betData (after events) in
  (0 <= totalBets bd <= Z.of_nat (length (allBets bd)))%Z
  /\ (hasBetData bd = true ->
      allBets bd <> []
      /\ In (getMaxBet bd) (allBets bd) /\ (0 <? getMaxBet bd) = true
      /\ In (getNthHighestBet 2 bd) (allBets bd)
      /\ (0 <? getNthHighestBet 2 bd) = true).
Proof.
  destruct (after_valid events) as (tr & Hv & ->). cbv zeta.
  pose proof (totalBets_recordAll tr freshBetData) as Ht.
  change (totalBets freshBetData) with 0%Z in Ht.
  rewrite allBets_recordAll, length_map. split; [lia|].
  unfold hasBetData. intros Hh. apply Z.gtb_lt in Hh.
  assert (Hne : tr <> []) by (intros ->; cbn in Ht, Hh; lia).
  destruct (getMaxBet_maximum tr Hv Hne) as (Hpos & Hin & _).
  pose proof (getNthHighestBet_In tr 2 Hv Hne) as Hn.
  pose proof (amounts_positive tr Hv) as Hp.
  unfold allPositive in Hp. rewrite List.Forall_forall in Hp.
  repeat split; auto.
  intros E. apply map_eq_nil in E. congruence.
Qed.

Lemma fold_pollSquare_same d idxs : forall st,
  (forall i c l, In i idxs -> d !! i = Some c -> lastSeenDeployed st !! i = Some l ->
                 (c <= l)%Z) ->
  fold_left (pollSquare d) idxs st = st.
Proof.
  induction idxs as [|j idxs IH]; intros st H; [reflexivity|].
  cbn [fold_left].
  assert (E : pollSquare d st j = st).
  { unfold pollSquare.
    destruct (d !! j) as [c|] eqn:Ec; [|reflexivity].
    destruct (lastSeenDeployed st !! j) as [l|] eqn:El; [|reflexivity].
    specialize (H j c l ltac:(left; reflexivity) Ec El).
    destruct (Z.gtb_spec c l); [lia | reflexivity]. }
  rewrite E. apply IH. intros i c l Hi. apply H. right. exact Hi.
Qed.

(** X25. Polling the same totals again records nothing: after a tick on the
    round [round], a second tick that fetches the same round leaves the
    tracker as it is. *)
Theorem poll_twice (round : Round) (st : State) :
  pollRoundAccount (Some round) (pollRoundAccount (Some round) st)
  = pollRoundAccount (Some round) st.
Proof.
  unfold pollRoundAccount. apply fold_pollSquare_same.
  intros i c l Hi Hc Hl.
  destruct (fold_pollSquare (deployed round) (seq 0 25) (NoDup_seq 0 25) st) as [_ Hcur].
  rewrite Hcur in Hl.
  destruct (decide (i ∈ seq 0 25)) as [_|Hn];
    [|exfalso; apply Hn, list_elem_of_In, Hi].
  rewrite Hc in Hl. unfold cursorAfter in Hl.
  destruct (lastSeenDeployed st !! i) as [l0|]; [|discriminate].
  injection Hl as <-. destruct (Z.gtb_spec c l0); lia.
Qed.

(** X26. A round that starts while the subscription is on starts from a cursor
    of zeros: [startBetTracking] resets the store and the cursor and
    returns before the baseline fetch.  The first poll tick then records,
    for every square with a positive total, that whole total as one
    sample. *)
Theorem later_round_polls_whole_totals (st : State) (roundId sub s : Z) (round : Round) :
  subscriptionId st = Some s ->
  roundId <> currentRoundId st ->
  let st1 := startBetTracking roundId sub st in
  let taken := pollSamples (deployed round) (replicate 25 0%Z) in
  subscribes st = false
  /\ subscriptionId st1 = Some s
  /\ lastSeenDeployed st1 = replicate 25 0%Z
  /\ betData (pollRoundAccount (Some round) st1) = recordAll taken freshBetData
  /\ forall i total, (i < 25)%nat -> deployed round !! i = Some total ->
       samplesOf i taken = if (0 <? total)%Z then [increaseSol_of total] else [].
Proof.
  intros Hs Hne. cbv zeta.
  assert (E : startBetTracking roundId sub st
              = {| currentRoundId := roundId;
                   betData := freshBetData;
                   subscriptionId := Some s;
                   pollingInterval := pollingInterval st;
                   lastSeenDeployed := replicate 25 0%Z |}).
  { unfold startBetTracking.
    destruct (Z.eqb_spec roundId (currentRoundId st)) as [E|_]; [contradiction|].
    cbn [negb subscriptionId]. rewrite Hs. reflexivity. }
  rewrite E. cbn [subscriptionId lastSeenDeployed].
  split; [unfold subscribes; rewrite Hs; reflexivity|].
  split; [reflexivity|]. split; [reflexivity|]. split.
  - unfold pollRoundAccount, pollSamples.
    destruct (fold_pollSquare (deployed round) (seq 0 25) (NoDup_seq 0 25)
                {| currentRoundId := roundId;
                   betData := freshBetData;
                   subscriptionId := Some s;
                   pollingInterval := pollingInterval st;
                   lastSeenDeployed := replicate 25 0%Z |}) as [H _].
    exact H.
  - intros i total Hi Ht. unfold pollSamples.
    rewrite (samplesOf_pollSamplesOn _ _ _ _ (NoDup_seq 0 25)).
    destruct (decide (i ∈ seq 0 25)) as [_|Hn];
      [|exfalso; apply Hn, elem_of_seq; lia].
    rewrite Ht, (lookup_replicate_2 _ _ _ Hi), Z.sub_0_r.
    rewrite Z.gtb_ltb. reflexivity.
Qed.

End TrackerMore.

(** ** What the patterns capture *)

Section Captures.
Import BetTracker.
Local Open Scope float_scope.

(** Not NaN, and not negative. *)
Lemma nonneg_shape x :
  match x with
  | S754_zero s | S754_infinity s | S754_finite s _ _ => s = false
  | S754_nan => False
  end ->
  match Prim2SF (SF2Prim x) with
  | S754_zero s | S754_infinity s | S754_finite s _ _ => s = false
  | S754_nan => False
  end.
Proof.
  destruct x as [[|]|[|]| |[|] m e]; cbn [SF2Prim]; try discriminate; try contradiction;
    intros _; try reflexivity.
  rewrite FloatLemmas.Z_ldexp_spec, FloatAxioms.of_uint63_spec.
  pose proof (Uint63.to_Z_bounded (Uint63Axioms.of_Z (Z.pos m))) as [Hz _].
  destruct (Uint63Axioms.to_Z (Uint63Axioms.of_Z (Z.pos m))) as [|p|p]; try lia.
  - reflexivity.
  - unfold binary_normalize.
    pose proof (binary_round_sign false p 0) as H.
    destruct (binary_round prec emax false p 0) as [s|s| |s m' e']; cbn [SFldexp];
      try exact H.
    subst s. apply binary_round_sign.
Qed.

(** A decimal literal is a number, not negative. *)
Lemma decimal_shape n k :
  (0 <= n)%Z -> (0 <= k)%Z ->
  match Prim2SF (JS.decimal n k) with
  | S754_zero s | S754_infinity s | S754_finite s _ _ => s = false
  | S754_nan => False
  end.
Proof.
  intros Hn Hk. unfold JS.decimal.
  destruct n as [|p|p]; try lia; [reflexivity|].
  assert (Hq : (0 <= fst (fst (SFdiv_core_binary prec emax (Z.pos p) 0 (10 ^ k) 0)))%Z).
  { unfold SFdiv_core_binary. cbv zeta.
    set (m' := match _ with 0%Z => _ | Z.pos _ => _ | Z.neg _ => _ end).
    assert (Hm : (0 <= m')%Z).
    { unfold m'. destruct (_ - _ - _)%Z; try lia. apply Z.shiftl_nonneg. lia. }
    assert (Hp : (0 < 10 ^ k)%Z) by (apply Z.pow_pos_nonneg; lia).
    pose proof (Z.div_pos m' (10 ^ k) Hm Hp) as Hd. unfold Z.div in Hd.
    destruct (Z.div_eucl m' (10 ^ k)) as [q r]. exact Hd. }
  destruct (SFdiv_core_binary prec emax (Z.pos p) 0 (10 ^ k) 0) as [[q e] l].
  cbn [fst] in Hq.
  apply nonneg_shape, binary_round_aux_sign. exact Hq.
Qed.

Lemma digitsValue_nonneg s : forall acc, (0 <= acc)%Z -> (0 <= JS.digitsValue acc s)%Z.
Proof.
  induction s as [|c s IH]; intros acc H; cbn [JS.digitsValue]; [exact H|].
  apply IH. lia.
Qed.

Lemma span_head p s c a b : JS.span p s = (String c a, b) -> p c = true.
Proof.
  destruct s as [|c' r]; cbn [JS.span]; [discriminate|].
  destruct (p c') eqn:E.
  - destruct (JS.span p r). intros [= <- _ _]. exact E.
  - discriminate.
Qed.

Lemma parseFloat_shape c r :
  JS.isDigit c = true ->
  match Prim2SF (JS.parseFloat (String c r)) with
  | S754_zero s | S754_infinity s | S754_finite s _ _ => s = false
  | S754_nan => False
  end.
Proof.
  intros Hc. unfold JS.parseFloat. cbn [JS.span]. rewrite Hc.
  destruct (JS.span JS.isDigit r) as [a b].
  apply decimal_shape; [apply digitsValue_nonneg; lia | lia].
Qed.

Lemma matchHere_digit p s g :
  matchHere p s = Some g -> exists c r, g = String c r /\ JS.isDigit c = true.
Proof.
  unfold matchHere. destruct (JS.literal (key p) s) as [r0|]; [|discriminate].
  set (r1 := match optional p, r0 with
             | Some o, String c r => if Ascii.eqb (JS.toLower c) o then r else r0
             | _, _ => r0
             end).
  destruct (JS.spanSeparators (colon p) r1) as [sep r2].
  destruct (JS.span JS.isDigit r2) as [int r3] eqn:Eint.
  set (dr := match r3 with String "."%char r => ("."%string, r) | _ => (EmptyString, r3) end).
  destruct dr as [dot r4].
  destruct (JS.span JS.isDigit r4) as [frac r5].
  destruct (JS.spanSeparators false r5) as [sp r6].
  destruct sep as [|s0 sep']; [discriminate|].
  destruct int as [|c int']; [discriminate|].
  destruct (JS.literal "SOL" r6); [|discriminate].
  intros [= <-]. exists c, (int' ++ dot ++ frac)%string. split; [reflexivity|].
  eapply span_head. exact Eint.
Qed.

Lemma logMatch_digit p log : forall g,
  logMatch p log = Some g -> exists c r, g = String c r /\ JS.isDigit c = true.
Proof.
  induction log as [|c0 log IH]; intros g; cbn [logMatch].
  - destruct (matchHere p EmptyString) eqn:E; [|discriminate].
    intros [= <-]. eapply matchHere_digit. exact E.
  - destruct (matchHere p (String c0 log)) eqn:E.
    + intros [= <-]. eapply matchHere_digit. exact E.
    + apply IH.
Qed.

(** X27. What a pattern captures always reads as a number: [parseFloat] of the
    captured text is never NaN and never negative.  Of the guard
    [isNaN(amountSol) || amountSol <= 0] only the case of zero can
    happen, and a captured amount is recorded exactly when it is
    positive.  The separator in front of the amount may be any white space
    of JavaScript, and the leftmost match is the one taken: with such a
    character between [deploying] and [7 SOL], and [deploying 5 SOL]
    behind, the amount recorded is 7. *)
Theorem captured_amount_is_number (p : Pattern) (ps : list Pattern) (log g : string)
    (bd : BetData) :
  logMatch p log = Some g ->
  JS.isNaN (JS.parseFloat g) = false
  /\ (0 <=? JS.parseFloat g) = true
  /\ ((0 <? JS.parseFloat g) = true ->
      scanPatterns (p :: ps) log bd = recordAllSquares (JS.parseFloat g) bd)
  /\ ((0 <? JS.parseFloat g) = false ->
      JS.parseFloat g = 0 /\ scanPatterns (p :: ps) log bd = scanPatterns ps log bd)
  /\ (forall c, JS.isWhiteSpace c = true ->
        scanPatterns patterns ("deploying" ++ JS.utf8 c ++ "7 SOL deploying 5 SOL") bd
        = recordAllSquares 7 bd).
Proof.
  intros Hg.
  assert (Hsep : forall c, JS.isWhiteSpace c = true ->
            scanPatterns patterns ("deploying" ++ JS.utf8 c ++ "7 SOL deploying 5 SOL") bd
            = recordAllSquares 7 bd).
  { intros c H. apply isWhiteSpace_cases in H. cbn [In] in H.
    assert (E : logMatch {| source := "/deploying\s+(\d+\.?\d*)\s*SOL/i";
                            key := "deploying"; optional := None; colon := false |}
                  ("deploying" ++ JS.utf8 c ++ "7 SOL deploying 5 SOL") = Some "7"%string).
    { repeat (destruct H as [<-|H]); try contradiction; vm_compute; reflexivity. }
    unfold patterns. cbn [scanPatterns]. rewrite E.
    replace (JS.parseFloat "7") with 7 by (vm_compute; reflexivity).
    reflexivity. }
  destruct (logMatch_digit p log g Hg) as (c & r & -> & Hc).
  pose proof (parseFloat_shape c r Hc) as Hsh.
  set (x := JS.parseFloat (String c r)) in *.
  assert (Hn : JS.isNaN x = false).
  { apply isNaN_false. intros E. rewrite E in Hsh. exact Hsh. }
  assert (H0 : (0 <=? x) = true).
  { rewrite FloatAxioms.leb_spec. change (Prim2SF 0) with (S754_zero false).
    destruct (Prim2SF x) as [s|s| |s m e]; try contradiction; subst; reflexivity. }
  split; [exact Hn|]. split; [exact H0|].
  cbn [scanPatterns]. rewrite Hg. cbv zeta. fold x. split; [|split; [|exact Hsep]].
  - intros Hpos. rewrite (positive_guard _ Hpos). reflexivity.
  - intros Hz.
    assert (Hle : (x <=? 0) = true)
      by (apply flt_false_le; [reflexivity | exact Hn | exact Hz]).
    rewrite Hn, Hle. cbn [orb]. split; [|reflexivity].
    apply Prim2SF_inj. change (Prim2SF 0) with (S754_zero false).
    rewrite FloatAxioms.ltb_spec in Hz. change (Prim2SF 0) with (S754_zero false) in Hz.
    destruct (Prim2SF x) as [s|s| |s m e]; try contradiction; subst;
      try reflexivity; discriminate.
Qed.

End Captures.

(** ** The properties at concrete inputs *)

Section Instances.
Import Accounts Outcome Buffer Solana Chain Instructions Actions Bot Rounds.
Import BetTracker Samples Tracker.
Local Open Scope float_scope.

Lemma round_seed_round_trip_witness :
  roundId Cases.board10947 = 10947%Z
  /\ getRoundPDA (roundId Cases.board10947)
     = Returned (ProgramAddress [Bytes ROUND_SEED; Bytes (take 8 (drop 8 Cases.boardData))]).
Proof.
  apply (round_seed_round_trip Cases.boardData Cases.board10947 10947);
    [vm_compute; reflexivity | vm_compute; reflexivity | reflexivity].
Defined.

Lemma needsCheckpoint_exact_witness :
  needsCheckpoint (Returned (Some Cases.minerDue))
  = Returned (Miner.checkpointId Cases.minerDue <? Miner.roundId Cases.minerDue)%Z
  /\ needsCheckpoint (Returned None) = Returned false
  /\ needsCheckpoint
       (Returned (Some {| Miner.rewardsSol := 0; Miner.rewardsOre := 0;
                          Miner.checkpointId := 2 ^ 53;
                          Miner.roundId := 2 ^ 53 + 1 |}))
     = Returned false.
Proof.
  apply (needsCheckpoint_exact Cases.minerDue); vm_compute; split; congruence.
Defined.

Lemma nan_bet_not_deployed_witness :
  let betPerSquare := Estimator.calculateOurBet Cases.nanBuffer 0.005 in
  JS.isNaN betPerSquare = true
  /\ snd (fst (deploy Cases.live Cases.firstDeploy 0 betPerSquare)) = []
  /\ snd (deploy Cases.live Cases.firstDeploy 0 betPerSquare) = 0%Z
  /\ (Settings.dryRun Cases.live = false ->
      fst (fst (deploy Cases.live Cases.firstDeploy 0 betPerSquare)) = false).
Proof.
  apply (nan_bet_not_deployed Cases.nanBuffer Cases.live Cases.firstDeploy 0 0.005).
  reflexivity.
Defined.

Lemma own_deploy_not_recognised_witness :
  exists tx ok,
    Cases.sentDeploy = Submitted tx ok
    /\ fetchBettorAddress (Some (asParsed tx)) = None.
Proof.
  apply (own_deploy_not_recognised Cases.live Cases.firstDeploy 0 0.0001 Cases.sentDeploy).
  vm_compute. left. reflexivity.
Defined.

Lemma snipe_dry_run_witness :
  (forall a, automation Cases.withAutomation = Returned (Some a) ->
     exists ix,
       buildCloseAutomationInstruction = Returned ix
       /\ data ix = Buffer.alloc 34
       /\ snipe Config.default Cases.dry Cases.withAutomation 0
          = Returned (true,
                      [Submitted (transactionOf [ix] "Close Automation")
                         (closeSend Cases.withAutomation)],
                      0%Z))
  /\ (automation Cases.withAutomation = Returned None ->
      snipe Config.default Cases.dry Cases.withAutomation 0 = Returned (true, [], 0%Z)).
Proof.
  apply (snipe_dry_run Config.default Cases.dry Cases.withAutomation 0). reflexivity.
Defined.

Lemma swap_sent_twice_witness :
  fst (DFlow.swapOreToSol false Cases.unconfirmed 3) = Some DFlow.JupiterApi
  /\ DFlow.sentThrough (snd (DFlow.swapOreToSol false Cases.unconfirmed 3))
     = [DFlow.DFlowApi; DFlow.JupiterApi]
  /\ DFlow.quotedAmounts (snd (DFlow.swapOreToSol false Cases.unconfirmed 3))
     = [DFlow.amountLamports 3; DFlow.amountLamports 3].
Proof.
  apply (swap_sent_twice Cases.unconfirmed 3 "1000000" "AQID" "1000000" "AQID");
    try reflexivity; discriminate.
Defined.

Lemma claim_described_as_sol_witness :
  submitted (claimRewards Cases.live Cases.claimDue)
  = [ {| description := "Claim SOL";
         items := [ SetComputeUnitLimit 1400000; SetComputeUnitPrice 0;
                    Instruction buildClaimOreInstruction ] |} ].
Proof.
  apply (claim_described_as_sol Cases.live Cases.claimDue Cases.minerDue);
    reflexivity.
Defined.

Lemma sol_claim_swaps_wallet_ore_witness :
  exists tx swap,
    claimRewards Cases.live Cases.claimSol
    = [Submitted tx true;
       SwapOreToSol (JS.Number_of_bigint 300000000000 / 1e11) swap]
    /\ instructionsOf tx = [buildClaimSolInstruction]
    /\ swap = snd (DFlow.swapOreToSol false (swapEnv Cases.claimSol)
                     (JS.Number_of_bigint 300000000000 / 1e11))
    /\ DFlow.quotedAmounts swap <> []
    /\ Forall (fun a => a = JS.Math_floor (JS.Number_of_bigint 300000000000 / 1e11 * 1e11))
         (DFlow.quotedAmounts swap).
Proof.
  apply (sol_claim_swaps_wallet_ore Cases.live Cases.claimSol Cases.minerSol 300000000000);
    reflexivity.
Defined.

Lemma no_deploy_before_round_starts_witness :
  secondsRemaining {| roundId := 5; startSlot := 18446744073709551615;
                      endSlot := 18446744073709551615 |} 1000 = 60
  /\ deploys (snd (iteration Config.default initialLoopState Cases.notStarted)) = 0%nat.
Proof.
  apply (no_deploy_before_round_starts Config.default initialLoopState Cases.notStarted
           {| roundId := 5; startSlot := 18446744073709551615;
              endSlot := 18446744073709551615 |} 1000); reflexivity.
Defined.

Lemma no_deploy_after_round_end_witness :
  JS.gtb (secondsRemaining {| roundId := 5; startSlot := 870; endSlot := 1020 |} 1020) 0
  = false
  /\ deploys (snd (iteration Config.default initialLoopState Cases.atEnd)) = 0%nat.
Proof.
  apply (no_deploy_after_round_end Config.default initialLoopState Cases.atEnd
           {| roundId := 5; startSlot := 870; endSlot := 1020 |} 1020);
    [reflexivity | cbn; lia | reflexivity].
Defined.

Lemma low_balance_skips_round_witness :
  deploys (snd (run Config.default initialLoopState
                  (Cases.lowBalance :: [eightSecondsLeft; eightSecondsLeft]))) = 0%nat
  /\ lastRoundId
       (fst (run Config.default initialLoopState
               (Cases.lowBalance :: [eightSecondsLeft; eightSecondsLeft]))) = 5%Z
  /\ hasDeployedThisRound
       (fst (run Config.default initialLoopState
               (Cases.lowBalance :: [eightSecondsLeft; eightSecondsLeft]))) = true.
Proof.
  apply (low_balance_skips_round Config.default initialLoopState Cases.lowBalance
           [eightSecondsLeft; eightSecondsLeft]
           {| roundId := 5; startSlot := 870; endSlot := 1020 |} 1000 0.05);
    try reflexivity. cbn. lia.
Defined.

Lemma throw_skips_balance_check_witness :
  snd (run Config.default initialLoopState [Cases.blockThrows; Cases.lowBalance])
  = [ StartBetTracking 5;
      Deploy 5 (Estimator.betPerSquare Config.default (store Cases.lowBalance)
                  (round Cases.lowBalance))
        (deployResult Cases.lowBalance) ].
Proof.
  apply (throw_skips_balance_check Config.default initialLoopState
           Cases.blockThrows Cases.lowBalance
           {| roundId := 5; startSlot := 870; endSlot := 1020 |}
           {| roundId := 5; startSlot := 870; endSlot := 1020 |} 1000 1000);
    try reflexivity. cbn. lia.
Defined.

Lemma later_round_polls_whole_totals_witness :
  let st := startBetTracking 1 7 initialState in
  let round := Examples.roundOf 5000000000 3 in
  let st1 := startBetTracking 2 8 st in
  let taken := pollSamples (deployed round) (replicate 25 0%Z) in
  subscribes st = false
  /\ subscriptionId st1 = Some 7%Z
  /\ lastSeenDeployed st1 = replicate 25 0%Z
  /\ betData (pollRoundAccount (Some round) st1) = recordAll taken freshBetData
  /\ forall i total, (i < 25)%nat -> deployed round !! i = Some total ->
       samplesOf i taken = if (0 <? total)%Z then [increaseSol_of total] else [].
Proof.
  apply (later_round_polls_whole_totals (startBetTracking 1 7 initialState) 2 8 7
           (Examples.roundOf 5000000000 3)); [reflexivity | cbn; lia].
Defined.

Lemma captured_amount_is_number_witness :
  JS.isNaN (JS.parseFloat "0.12834") = false
  /\ (0 <=? JS.parseFloat "0.12834") = true
  /\ ((0 <? JS.parseFloat "0.12834") = true ->
      scanPatterns patterns Cases.documentedLog freshBetData
      = recordAllSquares (JS.parseFloat "0.12834") freshBetData)
  /\ ((0 <? JS.parseFloat "0.12834") = false ->
      JS.parseFloat "0.12834" = 0
      /\ scanPatterns patterns Cases.documentedLog freshBetData
         = scanPatterns (tl patterns) Cases.documentedLog freshBetData)
  /\ (forall c, JS.isWhiteSpace c = true ->
        scanPatterns patterns ("deploying" ++ JS.utf8 c ++ "7 SOL deploying 5 SOL")
          freshBetData
        = recordAllSquares 7 freshBetData).
Proof.
  apply (captured_amount_is_number
           {| source := "/deploying\s+(\d+\.?\d*)\s*SOL/i";
              key := "deploying"; optional := None; colon := false |}
           (tl patterns) Cases.documentedLog "0.12834" freshBetData).
  vm_compute. reflexivity.
Defined.

End Instances.
